(** * precision-tracking: the density-grid tracker

    A shallow embedding of [density_grid_tracker.cpp] and the properties of
    its specification.

    Modelling conventions.
    - [double] and [float] values are real numbers ([R]) and arithmetic on
      them is exact: rounding error, overflow to infinity and division by
      zero are outside the model.  [exp], [sqrt], [tan] and [fabs] are the
      functions of the real-number library, and so is [log] where its
      argument is positive by construction.  Two operations are modelled
      more closely, because what the code does depends on them.  The
      additions [x += step] that drive the two [for] loops over [double]
      counters round their exact sum to the nearest double
      ([double_add]): the number of iterations depends on the rounding.
      [log] of the motion-model probability, which the caller supplies, is
      a [log_value]: minus infinity at 0, not a number below 0.
    - [int] values are integers ([Z]).  A conversion from [double] to [int]
      truncates toward zero and keeps the mathematical value; the language
      defines the conversion only when that value fits an [int], which
      [fits_int] states.  The product of the three location counts wraps
      around at 32 bits.
    - [size_t] counts are [nat] (lengths of lists).
    - A [std::vector] is a list; the three-dimensional density grid, whose
      allocation is fixed at [kMaxXSize * kMaxYSize * kMaxZSize], is a
      function from cells to values together with the bounds of the
      allocation, and every indexed access checks those bounds.
    - Code that can leave its defined behaviour returns a [result]: an
      indexed access outside a vector is [OutOfBounds], the
      [std::length_error] of a vector asked for more than [max_size()]
      elements is [LengthError].
    - The two [for] loops over [double] counters take fuel: they do not end
      for a step that is not positive, or that the rounded addition
      absorbs. *)

From Stdlib Require Import Reals ZArith List Bool Lia Lra Psatz.
Import ListNotations.

Local Open Scope R_scope.

(** ** Results of code that can fault *)

Inductive fault : Set :=
| OutOfBounds
| LengthError.

Inductive result (A : Type) : Type :=
| Ok (a : A)
| Fault (f : fault).

Arguments Ok {A} a.
Arguments Fault {A} f.

Definition bind {A B : Type} (r : result A) (k : A -> result B) : result B :=
  match r with
  | Ok a => k a
  | Fault f => Fault f
  end.

Notation "x <- r ;; k" := (bind r (fun x => k))
  (at level 61, r at next level, right associativity).

(** A loop over the elements of a list whose body may fault. *)
Fixpoint foldM {A S : Type} (body : A -> S -> result S) (l : list A) (s : S)
  : result S :=
  match l with
  | [] => Ok s
  | a :: l' => s' <- body a s ;; foldM body l' s'
  end.

(** The values [lo, lo + 1, ..., hi] of the counter of
    [for (int i = lo; i <= hi; ++i)]. *)
Definition Zrange (lo hi : Z) : list Z :=
  map (fun n => (lo + Z.of_nat n)%Z) (seq 0 (Z.to_nat (hi - lo + 1))).

Definition for_range {S : Type} (lo hi : Z) (body : Z -> S -> result S) (s : S)
  : result S :=
  foldM body (Zrange lo hi) s.

(** ** <cmath> and <algorithm> *)

Definition ceil (r : R) : R := IZR (Zceil r).

(** [round]: to the nearest integer, halfway cases away from zero. *)
Definition round (r : R) : R :=
  if Rle_dec 0 r then IZR (Zfloor (r + / 2)) else IZR (- Zfloor (- r + / 2)).

(** [static_cast<int>] and the implicit conversion of a [double] to [int]. *)
Definition to_int (r : R) : Z :=
  if Rle_dec 0 r then Zfloor r else Zceil r.

(** [std::max(a, b)] is [(a < b) ? b : a]; [std::min(a, b)] is
    [(b < a) ? b : a]. *)
Definition dmax (a b : R) : R := if Rlt_dec a b then b else a.
Definition dmin (a b : R) : R := if Rlt_dec b a then b else a.

(** Two's complement wrap-around of a 32-bit [int]. *)
Definition wrap_int (n : Z) : Z := ((n + 2 ^ 31) mod 2 ^ 32 - 2 ^ 31)%Z.

(** [log] of a value that the caller supplies: the natural logarithm of a
    positive number, minus infinity at 0, not a number below 0. *)
Inductive log_value : Set :=
| Finite (r : R)
| MinusInfinity
| NotANumber.

Definition log (x : R) : log_value :=
  if Rlt_dec 0 x then Finite (ln x)
  else if Req_dec_T x 0 then MinusInfinity
  else NotANumber.

(** [l + r] for a finite [r]. *)
Definition log_plus (l : log_value) (r : R) : log_value :=
  match l with
  | Finite a => Finite (a + r)
  | MinusInfinity => MinusInfinity
  | NotANumber => NotANumber
  end.

(** The sum of two doubles: the exact sum rounded to the nearest double,
    halfway cases to the even significand.  A double is a multiple of a
    power of two by an integer of at most 53 bits; the exponent is not
    bounded here (the sum of two doubles that does not overflow rounds the
    same way with and without the bounds of the format). *)
Definition binade (x : R) : Z := Zfloor (ln (Rabs x) / ln 2).

Definition ulp (x : R) : R := powerRZ 2 (binade x - 52).

Definition nearest_even (r : R) : Z :=
  let f := Zfloor r in
  if Rlt_dec (r - IZR f) (/ 2) then f
  else if Rlt_dec (/ 2) (r - IZR f) then (f + 1)%Z
  else if Z.even f then f else (f + 1)%Z.

Definition round_double (x : R) : R :=
  if Req_dec_T x 0 then 0 else IZR (nearest_even (x / ulp x)) * ulp x.

Definition double_add (x y : R) : R := round_double (x + y).

(** ** Constants of the anonymous namespace *)

Definition kMaxDiscountPoints : R := 150.
Definition kSpilloverRadius : R := 2.
Definition kSigmaFactor : R := 0.5.
Definition kSigmaGridFactor : R := 1.
Definition kMinMeasurementVariance : R := 0.03.
Definition kSmoothingFactor : R := 0.8.
Definition kMeasurementDiscountFactor : R := 1.
Definition k_NNTracking : bool := false.
Definition pi : R := PI.
Definition kMaxXSize : Z := if k_NNTracking then 1 else 1000.
Definition kMaxYSize : Z := if k_NNTracking then 1 else 1000.
Definition kMaxZSize : Z := if k_NNTracking then 1 else 500.

(** ** Points, transforms and the tracker *)

Record PointXYZRGB : Type := mkPoint { pt_x : R; pt_y : R; pt_z : R }.

Definition PointCloud : Type := list PointXYZRGB.

Record XYZTransform : Type :=
  mkXYZTransform { tf_x : R; tf_y : R; tf_z : R; tf_volume : R }.

Record ScoredTransformXYZ : Type :=
  mkScoredTransformXYZ
    { st_x : R; st_y : R; st_z : R; st_log_prob : log_value;
      st_volume : R }.

(** The motion model is an external collaborator: only its score is used. *)
Definition MotionModel : Type := R -> R -> R -> R.
Definition computeScore (m : MotionModel) (x y z : R) : R := m x y z.

Definition cell : Type := (Z * Z * Z)%type.

Definition cell_eqb (a b : cell) : bool :=
  let '(ax, ay, az) := a in
  let '(bx, by_, bz) := b in
  (ax =? bx)%Z && (ay =? by_)%Z && (az =? bz)%Z.

(** The density grid: [kMaxXSize] vectors of [kMaxYSize] vectors of
    [kMaxZSize] doubles. *)
Definition grid : Type := cell -> R.

Definition allocated (c : cell) : bool :=
  let '(i, j, k) := c in
  (0 <=? i)%Z && (i <? kMaxXSize)%Z &&
  (0 <=? j)%Z && (j <? kMaxYSize)%Z &&
  (0 <=? k)%Z && (k <? kMaxZSize)%Z.

(** [density_grid_[i][j][k]] read. *)
Definition grid_get (g : grid) (c : cell) : result R :=
  if allocated c then Ok (g c) else Fault OutOfBounds.

Definition grid_store (g : grid) (c : cell) (v : R) : grid :=
  fun c' => if cell_eqb c' c then v else g c'.

(** [density_grid_[i][j][k] = v]. *)
Definition grid_set (g : grid) (c : cell) (v : R) : result grid :=
  if allocated c then Ok (grid_store g c v) else Fault OutOfBounds.

Record DensityGridTracker : Type := mkTracker {
  density_grid_ : grid;
  xy_grid_step_ : R;
  z_grid_step_ : R;
  discount_factor_ : R;
  min_pt_ : PointXYZRGB;
  xSize_ : Z;
  ySize_ : Z;
  zSize_ : Z;
  spillover_sigma_xy_ : R;
  spillover_sigma_z_ : R;
  num_spillover_steps_xy_ : Z;
  num_spillover_steps_z_ : Z;
  min_density_ : R
}.

Definition set_density_grid (t : DensityGridTracker) (g : grid)
  : DensityGridTracker :=
  mkTracker g (xy_grid_step_ t) (z_grid_step_ t) (discount_factor_ t)
    (min_pt_ t) (xSize_ t) (ySize_ t) (zSize_ t)
    (spillover_sigma_xy_ t) (spillover_sigma_z_ t)
    (num_spillover_steps_xy_ t) (num_spillover_steps_z_ t) (min_density_ t).

(** The constructor fills the whole allocation with [log(kSmoothingFactor)];
    the other members are set by [computeDensityGridSize] before they are
    read, and start here at zero. *)
Definition DensityGridTracker_new : DensityGridTracker :=
  mkTracker (fun _ => ln kSmoothingFactor) 0 0 0 (mkPoint 0 0 0)
    0 0 0 0 0 0 0 0.

(** ** pcl::getMinMax3D

    The bounding box of a cloud: the component-wise minimum and maximum of
    its points, started at [FLT_MAX] and [-FLT_MAX]. *)

Definition FLT_MAX : R := (2 - / 2 ^ 23) * 2 ^ 127.

Definition minmax_step (mm : PointXYZRGB * PointXYZRGB) (p : PointXYZRGB)
  : PointXYZRGB * PointXYZRGB :=
  (mkPoint (dmin (pt_x (fst mm)) (pt_x p))
           (dmin (pt_y (fst mm)) (pt_y p))
           (dmin (pt_z (fst mm)) (pt_z p)),
   mkPoint (dmax (pt_x (snd mm)) (pt_x p))
           (dmax (pt_y (snd mm)) (pt_y p))
           (dmax (pt_z (snd mm)) (pt_z p))).

Definition getMinMax3D (cloud : PointCloud) : PointXYZRGB * PointXYZRGB :=
  fold_left minmax_step cloud
    (mkPoint FLT_MAX FLT_MAX FLT_MAX,
     mkPoint (- FLT_MAX) (- FLT_MAX) (- FLT_MAX)).

(** ** DensityGridTracker::createCandidateXYZTransforms *)

(** The z range that the generator works with. *)
Definition candidate_zRange (z_step_size : R) (zRange_orig : R * R) : R * R :=
  if Rgt_dec z_step_size (Rabs (fst zRange_orig))
  then (0, 0)
  else (fst zRange_orig, snd zRange_orig).

Definition num_z_locations (z_step_size : R) (zRange : R * R) : Z :=
  if Req_dec_T z_step_size 0 then 1%Z
  else to_int ((snd zRange - fst zRange) / z_step_size).

(** [transforms->reserve(n)] with an [int] argument: the argument converts
    to [size_t], and a negative one becomes a count above [max_size()]. *)
Definition reserve (n : Z) : result unit :=
  if (n <? 0)%Z then Fault LengthError else Ok tt.

(** [for (double y = yRange.first; y <= yRange.second; y += xy_step_size)]:
    [None] when the fuel runs out before the loop ends. *)
Fixpoint y_loop (fuel : nat) (x y y_last step volume : R)
    (transforms : list XYZTransform) : option (list XYZTransform) :=
  match fuel with
  | O => None
  | S fuel' =>
      if Rle_dec y y_last
      then y_loop fuel' x (double_add y step) y_last step volume
             (transforms ++ [mkXYZTransform x y 0 volume])
      else Some transforms
  end.

(** [for (double x = xRange.first; x <= xRange.second; x += xy_step_size)]. *)
Fixpoint x_loop (fuel : nat) (x x_last : R) (yRange : R * R) (step volume : R)
    (transforms : list XYZTransform) : option (list XYZTransform) :=
  match fuel with
  | O => None
  | S fuel' =>
      if Rle_dec x x_last
      then match y_loop fuel' x (fst yRange) (snd yRange) step volume
                   transforms with
           | Some transforms' =>
               x_loop fuel' (double_add x step) x_last yRange step volume
                 transforms'
           | None => None
           end
      else Some transforms
  end.

Definition createCandidateXYZTransforms (fuel : nat)
    (xy_step_size z_step_size : R) (xRange yRange zRange_orig : R * R)
    (transforms : list XYZTransform)
  : option (result (list XYZTransform)) :=
  let zRange := candidate_zRange z_step_size zRange_orig in
  let num_x_locations := to_int ((snd xRange - fst xRange) / xy_step_size) in
  let num_y_locations := to_int ((snd yRange - fst yRange) / xy_step_size) in
  let num_z := num_z_locations z_step_size zRange in
  match reserve (wrap_int (num_x_locations * num_y_locations * num_z)) with
  | Fault f => Some (Fault f)
  | Ok _ =>
      let volume := xy_step_size ^ 2 * z_step_size in
      match x_loop fuel (fst xRange) (snd xRange) yRange xy_step_size volume
              transforms with
      | Some l => Some (Ok l)
      | None => None
      end
  end.

(** ** DensityGridTracker::computeDensityGridSize *)

(** The cells [0 <= i < xSize], [0 <= j < ySize], [0 <= k < zSize]. *)
Definition in_extent (xSize ySize zSize : Z) (c : cell) : bool :=
  let '(i, j, k) := c in
  (0 <=? i)%Z && (i <? xSize)%Z &&
  (0 <=? j)%Z && (j <? ySize)%Z &&
  (0 <=? k)%Z && (k <? zSize)%Z.

(** [std::fill(density_grid_[i][j].begin(),
               density_grid_[i][j].begin() + zSize, v)]. *)
Definition fill_z (i j zSize : Z) (v : R) (g : grid) : grid :=
  fold_left (fun g' k => grid_store g' (i, j, k) v) (Zrange 0 (zSize - 1)) g.

(** The reset loops of [computeDensityGridSize]. *)
Definition reset_grid (xSize ySize zSize : Z) (v : R) (g : grid) : grid :=
  fold_left
    (fun g1 i =>
       fold_left (fun g2 j => fill_z i j zSize v g2)
         (Zrange 0 (ySize - 1)) g1)
    (Zrange 0 (xSize - 1)) g.

Definition discount_factor (num_prev_points : nat) : R :=
  if Rlt_dec (INR num_prev_points) kMaxDiscountPoints
  then kMeasurementDiscountFactor
  else kMeasurementDiscountFactor
       * (kMaxDiscountPoints / INR num_prev_points).

Definition velodyne_horizontal_res
    (horizontal_distance down_sample_factor : R) : R :=
  let velodyne_horizontal_res_actual :=
    2 * horizontal_distance * tan (0.18 / 2.0 * pi / 180.0) in
  velodyne_horizontal_res_actual / down_sample_factor.

Definition velodyne_vertical_res
    (horizontal_distance down_sample_factor : R) : R :=
  2.2 * velodyne_horizontal_res horizontal_distance down_sample_factor.

Definition sigma_xy (xy_stepSize horizontal_distance down_sample_factor : R)
  : R :=
  let sampling_error_xy := kSigmaGridFactor * xy_stepSize in
  let resolution_error_xy :=
    velodyne_horizontal_res horizontal_distance down_sample_factor
    * kSigmaFactor in
  let noise_error_xy := kMinMeasurementVariance in
  sqrt (sampling_error_xy ^ 2 + resolution_error_xy ^ 2 + noise_error_xy ^ 2).

Definition sigma_z (horizontal_distance down_sample_factor : R) : R :=
  let sampling_error_z := 0 in
  let resolution_error_z :=
    velodyne_vertical_res horizontal_distance down_sample_factor
    * kSigmaFactor in
  let noise_error_z := kMinMeasurementVariance in
  sqrt (sampling_error_z ^ 2 + resolution_error_z ^ 2 + noise_error_z ^ 2).

Definition computeDensityGridSize (t : DensityGridTracker)
    (prev_points : PointCloud) (xy_stepSize z_stepSize : R)
    (horizontal_distance down_sample_factor : R) : DensityGridTracker :=
  let xy_grid_step := xy_stepSize in
  let z_grid_step := z_stepSize in
  let discount := discount_factor (length prev_points) in
  let '(min_pt0, max_pt0) := getMinMax3D prev_points in
  let epsilon := 0.0001 in
  let min_x := pt_x min_pt0 - (2 * xy_grid_step + epsilon) in
  let min_y := pt_y min_pt0 - (2 * xy_grid_step + epsilon) in
  let z_range := pt_z max_pt0 - pt_z min_pt0 in
  let z_centering := Rabs (z_grid_step - z_range) / 2 in
  let min_z := pt_z min_pt0 - (2 * z_grid_step + z_centering) in
  let max_x := pt_x max_pt0 + 2 * xy_grid_step in
  let max_y := pt_y max_pt0 + 2 * xy_grid_step in
  let max_z := pt_z max_pt0 + 2 * z_grid_step in
  let xSize :=
    Z.min kMaxXSize (Z.max 1 (to_int (ceil ((max_x - min_x) / xy_grid_step))))
  in
  let ySize :=
    Z.min kMaxYSize (Z.max 1 (to_int (ceil ((max_y - min_y) / xy_grid_step))))
  in
  let zSize :=
    Z.min kMaxZSize (Z.max 1 (to_int (ceil ((max_z - min_z) / z_grid_step))))
  in
  let default_val := ln kSmoothingFactor in
  let g := reset_grid xSize ySize zSize default_val (density_grid_ t) in
  let spillover_sigma_xy :=
    sigma_xy xy_stepSize horizontal_distance down_sample_factor in
  let spillover_sigma_z := sigma_z horizontal_distance down_sample_factor in
  let num_spillover_steps_xy :=
    to_int (ceil (kSpilloverRadius * spillover_sigma_xy / xy_grid_step - 1)) in
  let num_spillover_steps_z :=
    to_int (dmax 1.0
              (ceil (kSpilloverRadius * spillover_sigma_z / z_grid_step - 1)))
  in
  mkTracker g xy_grid_step z_grid_step discount (mkPoint min_x min_y min_z)
    xSize ySize zSize spillover_sigma_xy spillover_sigma_z
    num_spillover_steps_xy num_spillover_steps_z kSmoothingFactor.

(** ** DensityGridTracker::computeDensityGrid *)

Definition xy_exp_factor (t : DensityGridTracker) : R :=
  -1.0 * xy_grid_step_ t ^ 2 / (2 * spillover_sigma_xy_ t ^ 2).

Definition z_exp_factor (t : DensityGridTracker) : R :=
  -1.0 * z_grid_step_ t ^ 2 / (2 * spillover_sigma_z_ t ^ 2).

(** The value stored at [spillovers[i][j][k]]. *)
Definition spillover_value (t : DensityGridTracker) (i j k : Z) : R :=
  let i_dist_sq := (i * i)%Z in
  let j_dist_sq := (j * j)%Z in
  let log_xy_density := IZR (i_dist_sq + j_dist_sq) * xy_exp_factor t in
  let k_dist_sq := (k * k)%Z in
  let log_z_density := IZR k_dist_sq * z_exp_factor t in
  ln (exp (log_xy_density + log_z_density) + min_density_ t).

Definition spillover_table : Type := list (list (list R)).

(** The table after its three filling loops: [num_spillover_steps_xy_ + 1]
    by [num_spillover_steps_xy_ + 1] by [num_spillover_steps_z_ + 1]
    entries.  A negative size asks the vector for more than [max_size()]
    elements. *)
Definition make_spillovers (t : DensityGridTracker) : result spillover_table :=
  if ((num_spillover_steps_xy_ t + 1 <? 0)
      || (num_spillover_steps_z_ t + 1 <? 0))%Z
  then Fault LengthError
  else
    Ok (map (fun i =>
          map (fun j =>
            map (fun k => spillover_value t i j k)
              (Zrange 0 (num_spillover_steps_z_ t)))
            (Zrange 0 (num_spillover_steps_xy_ t)))
          (Zrange 0 (num_spillover_steps_xy_ t))).

(** [v[i]] on a vector. *)
Definition vec_get {A : Type} (v : list A) (i : Z) : result A :=
  if (i <? 0)%Z then Fault OutOfBounds
  else match nth_error v (Z.to_nat i) with
       | Some a => Ok a
       | None => Fault OutOfBounds
       end.

(** [spillovers[i][j][k]]. *)
Definition spillovers_get (tbl : spillover_table) (i j k : Z) : result R :=
  row <- vec_get tbl i ;;
  col <- vec_get row j ;;
  vec_get col k.

(** [density_grid_[c] = max(density_grid_[c], spillover)]. *)
Definition max_update (g : grid) (c : cell) (spillover : R) : result grid :=
  old <- grid_get g c ;;
  grid_set g c (dmax old spillover).

Definition point_index (coordinate step offset : R) : Z :=
  to_int (round (coordinate / step + offset)).

Definition x_index_of (t : DensityGridTracker) (pt : PointXYZRGB) : Z :=
  point_index (pt_x pt) (xy_grid_step_ t)
    (- pt_x (min_pt_ t) / xy_grid_step_ t).
Definition y_index_of (t : DensityGridTracker) (pt : PointXYZRGB) : Z :=
  point_index (pt_y pt) (xy_grid_step_ t)
    (- pt_y (min_pt_ t) / xy_grid_step_ t).
Definition z_index_of (t : DensityGridTracker) (pt : PointXYZRGB) : Z :=
  point_index (pt_z pt) (z_grid_step_ t)
    (- pt_z (min_pt_ t) / z_grid_step_ t).

Definition max_index (size index steps : Z) : Z :=
  Z.max 1 (Z.min (size - 2) (index + steps)).
Definition min_index (size index steps : Z) : Z :=
  Z.min (size - 2) (Z.max 1 (index - steps)).

(** The branch taken when [num_spillover_steps_z_ > 1]: the three nested
    spill loops. *)
Definition spill_general (t : DensityGridTracker) (spillovers : spillover_table)
    (pt : PointXYZRGB) (g : grid) : result grid :=
  let x_index := x_index_of t pt in
  let y_index := y_index_of t pt in
  let z_index := z_index_of t pt in
  let max_x_index := max_index (xSize_ t) x_index (num_spillover_steps_xy_ t) in
  let max_y_index := max_index (ySize_ t) y_index (num_spillover_steps_xy_ t) in
  let min_x_index := min_index (xSize_ t) x_index (num_spillover_steps_xy_ t) in
  let min_y_index := min_index (ySize_ t) y_index (num_spillover_steps_xy_ t) in
  let max_z_index :=
    Z.max 1 (Z.min (zSize_ t - 2) (z_index + num_spillover_steps_z_ t)) in
  let min_z_index :=
    Z.max 1 (Z.min (zSize_ t - 2) (z_index - num_spillover_steps_z_ t)) in
  for_range min_x_index max_x_index (fun x_spill g1 =>
    let x_diff := Z.abs (x_index - x_spill) in
    for_range min_y_index max_y_index (fun y_spill g2 =>
      let y_diff := Z.abs (y_index - y_spill) in
      for_range min_z_index max_z_index (fun z_spill g3 =>
        let z_diff := Z.abs (z_index - z_spill) in
        spillover <- spillovers_get spillovers x_diff y_diff z_diff ;;
        max_update g3 (x_spill, y_spill, z_spill) spillover) g2) g1) g.

(** The other branch: the specialisation for a spill of one cell in z. *)
Definition spill_unit_z (t : DensityGridTracker) (spillovers : spillover_table)
    (pt : PointXYZRGB) (g : grid) : result grid :=
  let x_index := x_index_of t pt in
  let y_index := y_index_of t pt in
  let z_index := z_index_of t pt in
  let max_x_index := max_index (xSize_ t) x_index (num_spillover_steps_xy_ t) in
  let max_y_index := max_index (ySize_ t) y_index (num_spillover_steps_xy_ t) in
  let min_x_index := min_index (xSize_ t) x_index (num_spillover_steps_xy_ t) in
  let min_y_index := min_index (ySize_ t) y_index (num_spillover_steps_xy_ t) in
  let z_spill := Z.min (Z.max 1 z_index) (zSize_ t - 2) in
  let z_spill_up := Z.min (z_spill + 1) (zSize_ t - 2) in
  let z_spill_down := Z.max 1 (z_spill - 1) in
  for_range min_x_index max_x_index (fun x_spill g1 =>
    let x_diff := Z.abs (x_index - x_spill) in
    for_range min_y_index max_y_index (fun y_spill g2 =>
      let y_diff := Z.abs (y_index - y_spill) in
      spillover0 <- spillovers_get spillovers x_diff y_diff 0 ;;
      g3 <- max_update g2 (x_spill, y_spill, z_spill) spillover0 ;;
      spillover1 <- spillovers_get spillovers x_diff y_diff 1 ;;
      g4 <- max_update g3 (x_spill, y_spill, z_spill_up) spillover1 ;;
      max_update g4 (x_spill, y_spill, z_spill_down) spillover1) g1) g.

(** The body of the loop over the points. *)
Definition spill_point (t : DensityGridTracker) (spillovers : spillover_table)
    (pt : PointXYZRGB) (g : grid) : result grid :=
  if (1 <? num_spillover_steps_z_ t)%Z
  then spill_general t spillovers pt g
  else spill_unit_z t spillovers pt g.

(** [computeDensityGrid] with the body of its point loop as a parameter. *)
Definition build_grid
    (spill : DensityGridTracker -> spillover_table -> PointXYZRGB -> grid ->
             result grid)
    (t : DensityGridTracker) (points : PointCloud) : result DensityGridTracker :=
  spillovers <- make_spillovers t ;;
  g <- foldM (spill t spillovers) points (density_grid_ t) ;;
  Ok (set_density_grid t g).

Definition computeDensityGrid (t : DensityGridTracker) (points : PointCloud)
  : result DensityGridTracker :=
  build_grid spill_point t points.

(** ** DensityGridTracker::getLogProbability *)

Definition shifted_index (size : Z) (coordinate gridStep offset : R) : Z :=
  Z.min (Z.max 0 (to_int (round (coordinate / gridStep + offset)))) (size - 1).

Definition shifted_cell (t : DensityGridTracker) (minPt : PointXYZRGB)
    (xy_gridStep z_gridStep x y z : R) (pt : PointXYZRGB) : cell :=
  let x_offset := (x - pt_x minPt) / xy_gridStep in
  let y_offset := (y - pt_y minPt) / xy_gridStep in
  let z_offset := (z - pt_z minPt) / z_gridStep in
  (shifted_index (xSize_ t) (pt_x pt) xy_gridStep x_offset,
   shifted_index (ySize_ t) (pt_y pt) xy_gridStep y_offset,
   shifted_index (zSize_ t) (pt_z pt) z_gridStep z_offset).

Definition getLogProbability (t : DensityGridTracker)
    (current_points : PointCloud) (minPt : PointXYZRGB)
    (xy_gridStep z_gridStep : R) (motion_model : MotionModel) (x y z : R)
  : result log_value :=
  total_log_density <-
    foldM (fun pt total =>
             d <- grid_get (density_grid_ t)
                    (shifted_cell t minPt xy_gridStep z_gridStep x y z pt) ;;
             Ok (total + d))
      current_points 0 ;;
  let motion_model_prob := computeScore motion_model x y z in
  let log_measurement_prob := total_log_density in
  Ok (log_plus (log motion_model_prob)
        (discount_factor_ t * log_measurement_prob)).

(** ** DensityGridTracker::scoreXYZTransforms and DensityGridTracker::track *)

Definition scoreXYZTransforms (t : DensityGridTracker)
    (current_points prev_points : PointCloud) (xy_stepSize z_stepSize : R)
    (transforms : list XYZTransform) (motion_model : MotionModel)
    (horizontal_distance down_sample_factor : R)
  : result (DensityGridTracker * list ScoredTransformXYZ) :=
  let t1 := computeDensityGridSize t prev_points xy_stepSize z_stepSize
              horizontal_distance down_sample_factor in
  t2 <- computeDensityGrid t1 prev_points ;;
  scored <-
    foldM (fun transform scored_transforms =>
             log_prob <- getLogProbability t2 current_points (min_pt_ t2)
                           (xy_grid_step_ t2) (z_grid_step_ t2) motion_model
                           (tf_x transform) (tf_y transform) (tf_z transform) ;;
             Ok (scored_transforms ++
                 [mkScoredTransformXYZ (tf_x transform) (tf_y transform)
                    (tf_z transform) log_prob (tf_volume transform)]))
      transforms [] ;;
  Ok (t2, scored).


(** ** The cell updates of one point, in loop order

    The spill loops of one point perform a sequence of updates, each one
    reading an entry of the spillover table and max-combining it into a
    cell.  [writes_general] and [writes_unit_z] list, for the two branches,
    the target cell of every update with the table index it reads. *)

Definition write : Type := (cell * (Z * Z * Z))%type.

Definition do_write (spillovers : spillover_table) (w : write) (g : grid)
  : result grid :=
  let '(i, j, k) := snd w in
  spillover <- spillovers_get spillovers i j k ;;
  max_update g (fst w) spillover.

Definition apply_writes (spillovers : spillover_table) (ws : list write)
    (g : grid) : result grid :=
  foldM (do_write spillovers) ws g.

Definition writes_general (t : DensityGridTracker) (pt : PointXYZRGB)
  : list write :=
  let x_index := x_index_of t pt in
  let y_index := y_index_of t pt in
  let z_index := z_index_of t pt in
  flat_map (fun x_spill =>
    flat_map (fun y_spill =>
      map (fun z_spill =>
             ((x_spill, y_spill, z_spill),
              (Z.abs (x_index - x_spill), Z.abs (y_index - y_spill),
               Z.abs (z_index - z_spill))))
        (Zrange
           (Z.max 1 (Z.min (zSize_ t - 2)
                       (z_index - num_spillover_steps_z_ t)))
           (Z.max 1 (Z.min (zSize_ t - 2)
                       (z_index + num_spillover_steps_z_ t)))))
      (Zrange (min_index (ySize_ t) y_index (num_spillover_steps_xy_ t))
              (max_index (ySize_ t) y_index (num_spillover_steps_xy_ t))))
    (Zrange (min_index (xSize_ t) x_index (num_spillover_steps_xy_ t))
            (max_index (xSize_ t) x_index (num_spillover_steps_xy_ t))).

Definition writes_unit_z (t : DensityGridTracker) (pt : PointXYZRGB)
  : list write :=
  let x_index := x_index_of t pt in
  let y_index := y_index_of t pt in
  let z_index := z_index_of t pt in
  let z_spill := Z.min (Z.max 1 z_index) (zSize_ t - 2) in
  let z_spill_up := Z.min (z_spill + 1) (zSize_ t - 2) in
  let z_spill_down := Z.max 1 (z_spill - 1) in
  flat_map (fun x_spill =>
    flat_map (fun y_spill =>
      let x_diff := Z.abs (x_index - x_spill) in
      let y_diff := Z.abs (y_index - y_spill) in
      [((x_spill, y_spill, z_spill), (x_diff, y_diff, 0%Z));
       ((x_spill, y_spill, z_spill_up), (x_diff, y_diff, 1%Z));
       ((x_spill, y_spill, z_spill_down), (x_diff, y_diff, 1%Z))])
      (Zrange (min_index (ySize_ t) y_index (num_spillover_steps_xy_ t))
              (max_index (ySize_ t) y_index (num_spillover_steps_xy_ t))))
    (Zrange (min_index (xSize_ t) x_index (num_spillover_steps_xy_ t))
            (max_index (xSize_ t) x_index (num_spillover_steps_xy_ t))).

Definition writes_of (t : DensityGridTracker) (pt : PointXYZRGB) : list write :=
  if (1 <? num_spillover_steps_z_ t)%Z
  then writes_general t pt
  else writes_unit_z t pt.


(** The cell of a point, each index clamped to the interior
    [[1, size - 2]] of the used extent. *)
Definition clamp_interior (size index : Z) : Z :=
  Z.min (Z.max 1 index) (size - 2).

Definition own_cell (t : DensityGridTracker) (pt : PointXYZRGB) : cell :=
  (clamp_interior (xSize_ t) (x_index_of t pt),
   clamp_interior (ySize_ t) (y_index_of t pt),
   clamp_interior (zSize_ t) (z_index_of t pt)).

(** ** Definitions of the statements

    The predicates, the specification's own wording of the computed
    values, and the concrete frames that the theorems below use. *)

(** The cells that the reset loops visit, in loop order. *)
Definition extent_cells (xSize ySize zSize : Z) : list cell :=
  flat_map (fun i =>
    flat_map (fun j => map (fun k => (i, j, k)) (Zrange 0 (zSize - 1)))
      (Zrange 0 (ySize - 1)))
    (Zrange 0 (xSize - 1)).

(** The bounds of the spillover table. *)
Definition in_table (t : DensityGridTracker) (i j k : Z) : bool :=
  ((0 <=? i) && (i <=? num_spillover_steps_xy_ t) &&
   (0 <=? j) && (j <=? num_spillover_steps_xy_ t) &&
   (0 <=? k) && (k <=? num_spillover_steps_z_ t))%Z.

(** The used extent lies inside the allocation and is not empty. *)
Definition extent_ok (t : DensityGridTracker) : Prop :=
  (1 <= xSize_ t <= kMaxXSize)%Z /\
  (1 <= ySize_ t <= kMaxYSize)%Z /\
  (1 <= zSize_ t <= kMaxZSize)%Z.

(** The cells of the used extent of a tracker. *)
Definition used_extent (t : DensityGridTracker) (c : cell) : bool :=
  in_extent (xSize_ t) (ySize_ t) (zSize_ t) c.

(** Unfolds [computeDensityGridSize] down to the members it stores. *)
Ltac sizing_unfold :=
  unfold computeDensityGridSize;
  match goal with
  | |- context [getMinMax3D ?p] => destruct (getMinMax3D p) as [mn mx]
  end;
  cbn [density_grid_ xy_grid_step_ z_grid_step_ discount_factor_ min_pt_
       xSize_ ySize_ zSize_ spillover_sigma_xy_ spillover_sigma_z_
       num_spillover_steps_xy_ num_spillover_steps_z_ min_density_
       pt_x pt_y pt_z].

(** The vertical sigma as the specification words it: the sampling-step
    noise term enters the vertical combination as it enters the horizontal
    one. *)
Definition claimed_sigma_z (z_stepSize horizontal_distance
    down_sample_factor : R) : R :=
  sqrt ((kSigmaGridFactor * z_stepSize) ^ 2
        + (velodyne_vertical_res horizontal_distance down_sample_factor
           * kSigmaFactor) ^ 2
        + kMinMeasurementVariance ^ 2).

(** The score as the specification words it: clamp an index into
    [[lo, hi]], round to the nearest index, look the shifted point up, sum
    over the points. *)
Definition clamp (lo hi v : Z) : Z := Z.max lo (Z.min hi v).

Definition nearest_index (r : R) : Z := to_int (round r).

Definition spec_cell (t : DensityGridTracker) (min_pt : PointXYZRGB)
    (xy_step z_step x y z : R) (pt : PointXYZRGB) : cell :=
  (clamp 0 (xSize_ t - 1)
     (nearest_index (pt_x pt / xy_step + (x - pt_x min_pt) / xy_step)),
   clamp 0 (ySize_ t - 1)
     (nearest_index (pt_y pt / xy_step + (y - pt_y min_pt) / xy_step)),
   clamp 0 (zSize_ t - 1)
     (nearest_index (pt_z pt / z_step + (z - pt_z min_pt) / z_step))).

Definition spec_log_probability (t : DensityGridTracker)
    (current_points : PointCloud) (min_pt : PointXYZRGB)
    (xy_step z_step : R) (motion_model : MotionModel) (x y z : R)
  : log_value :=
  log_plus (log (motion_model x y z))
    (discount_factor_ t
     * fold_right Rplus 0
         (map (fun pt =>
                 density_grid_ t (spec_cell t min_pt xy_step z_step x y z pt))
            current_points)).

(** The values of [int], and the doubles whose conversion to [int] is
    defined: those whose truncation is an [int] value. *)
Definition INT_MAX : Z := (2 ^ 31 - 1)%Z.
Definition INT_MIN : Z := (- 2 ^ 31)%Z.

Definition fits_int (r : R) : Prop := IZR INT_MIN - 1 < r < IZR INT_MAX + 1.


(** The two radii that sizing converts to [int] are [int] values. *)
Definition radii_fit_int (xy_stepSize z_stepSize horizontal_distance
    down_sample_factor : R) : Prop :=
  fits_int
    (ceil (kSpilloverRadius
           * sigma_xy xy_stepSize horizontal_distance down_sample_factor
           / xy_stepSize - 1)) /\
  fits_int
    (dmax 1.0
       (ceil (kSpilloverRadius
              * sigma_z horizontal_distance down_sample_factor
              / z_stepSize - 1))).


(** The two quotients that the generator converts to the x and y location
    counts are [int] values. *)
Definition counts_fit_int (xy_step : R) (xRange yRange : R * R) : Prop :=
  fits_int ((snd xRange - fst xRange) / xy_step) /\
  fits_int ((snd yRange - fst yRange) / xy_step).

(** The addition of the step is not absorbed: from every value of the
    range it advances the counter by at least half the step. *)
Definition step_advances (first last step : R) : Prop :=
  forall x, first <= x <= last -> x + step / 2 <= double_add x step.

(** The z range as the specification words it: collapsed to the single
    point 0 when the step is larger than the available range. *)
Definition claimed_zRange (z_step : R) (zRange : R * R) : R * R :=
  if Rgt_dec z_step (snd zRange - fst zRange)
  then (0, 0)
  else zRange.

(** The grid with the cells outside the used extent overwritten. *)
Definition overwrite_outside (t : DensityGridTracker) (stale : grid)
  : DensityGridTracker :=
  set_density_grid t
    (fun c => if used_extent t c then density_grid_ t c else stale c).

(** A tracker after [computeDensityGridSize], for positive steps. *)
Record sized (t : DensityGridTracker) : Prop := {
  sized_extent : extent_ok t;
  sized_dims : (4 <= xSize_ t /\ 4 <= ySize_ t /\ 4 <= zSize_ t)%Z;
  sized_radius_xy : (1 <= num_spillover_steps_xy_ t)%Z;
  sized_radius_z : (1 <= num_spillover_steps_z_ t)%Z;
  sized_sigma_xy : 0 < spillover_sigma_xy_ t;
  sized_sigma_z : 0 < spillover_sigma_z_ t;
  sized_min_density : min_density_ t = kSmoothingFactor
}.

(** The indices of a point lie in the interior of the used extent. *)
Definition in_interior (t : DensityGridTracker) (pt : PointXYZRGB) : Prop :=
  (1 <= x_index_of t pt <= xSize_ t - 2)%Z /\
  (1 <= y_index_of t pt <= ySize_ t - 2)%Z /\
  (1 <= z_index_of t pt <= zSize_ t - 2)%Z.

(** The updates of the whole construction, point after point. *)
Definition all_writes (t : DensityGridTracker) (points : PointCloud)
  : list write :=
  flat_map (writes_of t) points.

(** The table index that the updates of a point use at its own cell. *)
Definition own_index (t : DensityGridTracker) (pt : PointXYZRGB)
  : Z * Z * Z :=
  (Z.abs (x_index_of t pt - clamp_interior (xSize_ t) (x_index_of t pt)),
   Z.abs (y_index_of t pt - clamp_interior (ySize_ t) (y_index_of t pt)),
   if (1 <? num_spillover_steps_z_ t)%Z
   then Z.abs (z_index_of t pt - clamp_interior (zSize_ t) (z_index_of t pt))
   else 0%Z).

(** A frame with one previous point, steps of 1, the object 20 away. *)
Definition one_point_scan : PointCloud := [mkPoint 0 0 0].

Definition one_point_tracker : DensityGridTracker :=
  computeDensityGridSize DensityGridTracker_new one_point_scan 1 1 20 1.

(** 1000 points, two units apart along x. *)
Definition wide_scan : PointCloud :=
  map (fun i => mkPoint (2 * INR i) 0 0) (seq 0 1000).

Definition wide_tracker : DensityGridTracker :=
  computeDensityGridSize DensityGridTracker_new wide_scan 1 1 20 1.

(** Two points 331.5 steps apart along z. *)
Definition tall_scan : PointCloud := [mkPoint 0 0 0; mkPoint 0 0 331.5].

Definition tall_tracker : DensityGridTracker :=
  computeDensityGridSize DensityGridTracker_new tall_scan 1 1 20 1.

(** [computeDensityGrid] with the three nested loops for every point,
    whatever the z radius. *)
Definition computeDensityGrid_general (t : DensityGridTracker)
    (points : PointCloud) : result DensityGridTracker :=
  build_grid spill_general t points.

(** The lattice of one range as the specification words it: the values
    reached from [first] in increments of [step], by floating-point
    stepping, while not above [last].  [stepping n] lists at most [n] of
    them; a step that advances reaches the end of the range within
    [lattice_bound] additions. *)
Fixpoint stepping (n : nat) (x last step : R) : list R :=
  match n with
  | O => []
  | S n' =>
      if Rle_dec x last
      then x :: stepping n' (double_add x step) last step
      else []
  end.

Definition lattice_bound (first last step : R) : nat :=
  S (Z.to_nat (Zfloor (2 * (last - first) / step))).

(** Its values, and the candidates over the x and y lattices. *)
Definition lattice_points (first last step : R) : list R :=
  stepping (lattice_bound first last step) first last step.

Definition spec_candidates (xy_step z_step : R) (xRange yRange : R * R)
  : list XYZTransform :=
  flat_map (fun x =>
    map (fun y => mkXYZTransform x y 0 (xy_step ^ 2 * z_step))
      (lattice_points (fst yRange) (snd yRange) xy_step))
    (lattice_points (fst xRange) (snd xRange) xy_step).

(** The scores that [scoreXYZTransforms] emits. *)
Definition emitted_scores
    (r : result (DensityGridTracker * list ScoredTransformXYZ))
  : result (list ScoredTransformXYZ) :=
  match r with
  | Ok (_, scored) => Ok scored
  | Fault f => Fault f
  end.

(** The scored transform that [scoreXYZTransforms] emits for a candidate:
    the candidate with the score of the specification on the built grid. *)
Definition scored_transform (t : DensityGridTracker)
    (current_points : PointCloud) (motion_model : MotionModel)
    (transform : XYZTransform) : ScoredTransformXYZ :=
  mkScoredTransformXYZ (tf_x transform) (tf_y transform) (tf_z transform)
    (spec_log_probability t current_points (min_pt_ t) (xy_grid_step_ t)
       (z_grid_step_ t) motion_model
       (tf_x transform) (tf_y transform) (tf_z transform))
    (tf_volume transform).

(** The candidate that a scored transform carries. *)
Definition st_transform (s : ScoredTransformXYZ) : XYZTransform :=
  mkXYZTransform (st_x s) (st_y s) (st_z s) (st_volume s).

(** The range of the score of [n] points under the motion probability
    [p]: for a positive [p] a number between the score of [n] background
    cells and the score of [n] cells at the centre of the kernel, for
    [p = 0] minus infinity. *)
Definition score_in_range (discount : R) (n : nat) (p : R) (s : log_value)
  : Prop :=
  (0 < p ->
   exists v, s = Finite v /\
     ln p + discount * (INR n * ln 0.8) <= v /\
     v <= ln p + discount * (INR n * ln (1 + 0.8))) /\
  (p = 0 -> s = MinusInfinity).


(** ** Basic facts: ranges and loops *)

Lemma In_Zrange (lo hi i : Z) : In i (Zrange lo hi) <-> (lo <= i <= hi)%Z.
Proof.
  unfold Zrange. rewrite in_map_iff. split.
  - intros [n [<- Hn]]. apply in_seq in Hn. lia.
  - intros H. exists (Z.to_nat (i - lo)). split; [lia|].
    apply in_seq. lia.
Qed.

Lemma Zrange_empty (lo hi : Z) : (hi < lo)%Z -> Zrange lo hi = [].
Proof.
  intros H. unfold Zrange.
  replace (Z.to_nat (hi - lo + 1)) with 0%nat by lia. reflexivity.
Qed.

Lemma Zrange_cons (lo hi : Z) :
  (lo <= hi)%Z -> Zrange lo hi = lo :: Zrange (lo + 1) hi.
Proof.
  intros H. unfold Zrange.
  replace (Z.to_nat (hi - lo + 1)) with (S (Z.to_nat (hi - (lo + 1) + 1)))
    by lia.
  simpl. f_equal; [lia|].
  rewrite <- seq_shift, map_map. apply map_ext. intros n. lia.
Qed.

Lemma Zrange_single (lo : Z) : Zrange lo lo = [lo].
Proof.
  rewrite Zrange_cons by lia. rewrite Zrange_empty by lia. reflexivity.
Qed.

Lemma nth_error_Zrange (lo hi : Z) (n : nat) :
  (Z.of_nat n <= hi - lo)%Z ->
  nth_error (Zrange lo hi) n = Some (lo + Z.of_nat n)%Z.
Proof.
  intros H. unfold Zrange.
  rewrite nth_error_map, nth_error_seq.
  destruct (Nat.ltb_spec n (Z.to_nat (hi - lo + 1))); [reflexivity | lia].
Qed.

Lemma length_Zrange (lo hi : Z) :
  length (Zrange lo hi) = Z.to_nat (hi - lo + 1).
Proof. unfold Zrange. now rewrite length_map, length_seq. Qed.

Lemma foldM_app {A S : Type} (body : A -> S -> result S) (l1 l2 : list A)
    (s : S) :
  foldM body (l1 ++ l2) s = (s' <- foldM body l1 s ;; foldM body l2 s').
Proof.
  revert s. induction l1 as [|a l1 IH]; intros s; simpl; [reflexivity|].
  destruct (body a s); simpl; [apply IH | reflexivity].
Qed.

Lemma foldM_ext {A S : Type} (f g : A -> S -> result S) (l : list A) (s : S) :
  (forall a s', In a l -> f a s' = g a s') -> foldM f l s = foldM g l s.
Proof.
  revert s. induction l as [|a l IH]; intros s H; simpl; [reflexivity|].
  rewrite (H a s) by (now left).
  destruct (g a s); simpl; [|reflexivity].
  apply IH. intros b s' Hb. apply H. now right.
Qed.

Lemma foldM_flat_map {A B S : Type} (body : B -> S -> result S)
    (f : A -> list B) (l : list A) (s : S) :
  foldM body (flat_map f l) s = foldM (fun a s' => foldM body (f a) s') l s.
Proof.
  revert s. induction l as [|a l IH]; intros s; simpl; [reflexivity|].
  rewrite foldM_app. destruct (foldM body (f a) s); simpl;
    [apply IH | reflexivity].
Qed.

Lemma foldM_map {A B S : Type} (body : B -> S -> result S) (f : A -> B)
    (l : list A) (s : S) :
  foldM body (map f l) s = foldM (fun a s' => body (f a) s') l s.
Proof.
  revert s. induction l as [|a l IH]; intros s; simpl; [reflexivity|].
  destruct (body (f a) s); simpl; [apply IH | reflexivity].
Qed.

(** A loop invariant: what every iteration preserves holds at the end. *)
Lemma foldM_invariant {A S : Type} (P : S -> Prop) (body : A -> S -> result S)
    (l : list A) (s s' : S) :
  (forall a s1 s2, In a l -> P s1 -> body a s1 = Ok s2 -> P s2) ->
  P s -> foldM body l s = Ok s' -> P s'.
Proof.
  revert s. induction l as [|a l IH]; intros s Hbody Hs Hrun; simpl in Hrun.
  - now inversion Hrun; subst.
  - destruct (body a s) as [s1|f] eqn:E; simpl in Hrun; [|discriminate].
    apply (IH s1); auto.
    + intros b t1 t2 Hb. apply Hbody. now right.
    + apply (Hbody a s s1); auto. now left.
Qed.

(** A loop whose iterations all succeed, succeeds. *)
Lemma foldM_succeeds {A S : Type} (body : A -> S -> result S) (l : list A)
    (s : S) :
  (forall a s1, In a l -> exists s2, body a s1 = Ok s2) ->
  exists s', foldM body l s = Ok s'.
Proof.
  revert s. induction l as [|a l IH]; intros s H; simpl.
  - now exists s.
  - destruct (H a s (or_introl eq_refl)) as [s1 ->]. simpl.
    apply IH. intros b t1 Hb. apply H. now right.
Qed.

(** A loop with an iteration that faults in every state does not succeed,
    and it faults the way its iterations do. *)
Lemma foldM_faults {A S : Type} (body : A -> S -> result S) (l : list A)
    (s : S) (a : A) (f : fault) :
  In a l ->
  (forall s1, body a s1 = Fault f) ->
  (forall b s1 f', body b s1 = Fault f' -> f' = f) ->
  foldM body l s = Fault f.
Proof.
  intros Hin Ha Honly. revert s.
  induction l as [|b l IH]; intros s; simpl; [contradiction|].
  destruct (body b s) as [s1|f'] eqn:E; simpl.
  - destruct Hin as [->|Hin]; [rewrite Ha in E; discriminate | now apply IH].
  - now rewrite (Honly _ _ _ E).
Qed.


(** ** Basic facts: numbers *)

Lemma dmax_Rmax (a b : R) : dmax a b = Rmax a b.
Proof.
  unfold dmax, Rmax. destruct (Rlt_dec a b), (Rle_dec a b); lra.
Qed.

Lemma dmin_Rmin (a b : R) : dmin a b = Rmin a b.
Proof.
  unfold dmin, Rmin. destruct (Rlt_dec b a), (Rle_dec a b); lra.
Qed.

Lemma dmax_l (a b : R) : a <= dmax a b.
Proof. rewrite dmax_Rmax. apply Rmax_l. Qed.

Lemma dmax_r (a b : R) : b <= dmax a b.
Proof. rewrite dmax_Rmax. apply Rmax_r. Qed.

Lemma dmax_lub (a b c : R) : a <= c -> b <= c -> dmax a b <= c.
Proof. rewrite dmax_Rmax. apply Rmax_lub. Qed.

Lemma to_int_IZR (n : Z) : to_int (IZR n) = n.
Proof.
  unfold to_int. destruct (Rle_dec 0 (IZR n)).
  - apply ZfloorZ.
  - apply Zceil_eq. lra.
Qed.

Lemma to_int_ceil (r : R) : to_int (ceil r) = Zceil r.
Proof. apply to_int_IZR. Qed.

Lemma round_IZR (r : R) : exists n : Z, round r = IZR n.
Proof. unfold round. destruct (Rle_dec 0 r); eauto. Qed.

(** [round] on a value within a half of an integer. *)
Lemma round_near (r : R) (n : Z) :
  IZR n - / 2 < r < IZR n + / 2 -> round r = IZR n.
Proof.
  intros H. unfold round. destruct (Rle_dec 0 r).
  - f_equal. apply Zfloor_eq. lra.
  - f_equal. assert (Zfloor (- r + / 2) = (- n)%Z) as ->; [|lia].
    apply Zfloor_eq. rewrite opp_IZR. lra.
Qed.

(** Halfway cases go away from zero. *)
Lemma round_half_up (n : Z) :
  (0 <= n)%Z -> round (IZR n + / 2) = IZR (n + 1).
Proof.
  intros Hn. apply IZR_le in Hn. unfold round.
  destruct (Rle_dec 0 (IZR n + / 2)); [|lra].
  f_equal. apply Zfloor_eq. rewrite plus_IZR. lra.
Qed.

Lemma index_near (c step off : R) (n : Z) :
  IZR n - / 2 < c / step + off < IZR n + / 2 -> point_index c step off = n.
Proof.
  intros H. unfold point_index. rewrite (round_near _ n H). apply to_int_IZR.
Qed.

Lemma round_le (a b : R) : a <= b -> round a <= round b.
Proof.
  intros H. unfold round.
  destruct (Rle_dec 0 a), (Rle_dec 0 b); try lra; apply IZR_le.
  - apply Zfloor_le. lra.
  - assert (0 <= Zfloor (b + / 2))%Z by (apply Zfloor_lub; simpl; lra).
    assert (0 <= Zfloor (- a + / 2))%Z by (apply Zfloor_lub; simpl; lra).
    lia.
  - assert (Zfloor (- b + / 2) <= Zfloor (- a + / 2))%Z
      by (apply Zfloor_le; lra).
    lia.
Qed.

Lemma to_int_le (a b : R) : a <= b -> (to_int a <= to_int b)%Z.
Proof.
  intros H. unfold to_int.
  destruct (Rle_dec 0 a), (Rle_dec 0 b); try lra.
  - now apply Zfloor_le.
  - assert (0 <= Zfloor b)%Z by (apply Zfloor_lub; simpl; lra).
    assert (Zceil a <= 0)%Z.
    { unfold Zceil. assert (0 <= Zfloor (- a))%Z
        by (apply Zfloor_lub; simpl; lra). lia. }
    lia.
  - now apply Zceil_le.
Qed.

Lemma point_index_le (c1 c2 step off : R) :
  c1 / step + off <= c2 / step + off ->
  (point_index c1 step off <= point_index c2 step off)%Z.
Proof. intros H. unfold point_index. now apply to_int_le, round_le. Qed.

Lemma fits_int_IZR (n : Z) :
  (INT_MIN <= n <= INT_MAX)%Z -> fits_int (IZR n).
Proof.
  intros [H1 H2]. apply IZR_le in H1, H2. unfold fits_int. lra.
Qed.

Lemma log_pos (p : R) : 0 < p -> log p = Finite (ln p).
Proof. intros H. unfold log. destruct (Rlt_dec 0 p); [reflexivity | lra]. Qed.

Lemma log_zero (p : R) : p = 0 -> log p = MinusInfinity.
Proof.
  intros ->. unfold log. destruct (Rlt_dec 0 0); [lra|].
  destruct (Req_dec_T 0 0); [reflexivity | lra].
Qed.

(** ** Basic facts: the rounded addition of doubles *)

Lemma nearest_even_error (r : R) : Rabs (IZR (nearest_even r) - r) <= / 2.
Proof.
  unfold nearest_even. pose proof (Zfloor_bound r) as [H1 H2].
  destruct (Rlt_dec (r - IZR (Zfloor r)) (/ 2)).
  - apply Rabs_le. lra.
  - destruct (Rlt_dec (/ 2) (r - IZR (Zfloor r))).
    + rewrite plus_IZR. apply Rabs_le. lra.
    + destruct (Z.even (Zfloor r)); [|rewrite plus_IZR]; apply Rabs_le; lra.
Qed.

Lemma nearest_even_IZR (n : Z) : nearest_even (IZR n) = n.
Proof.
  unfold nearest_even. rewrite ZfloorZ.
  destruct (Rlt_dec (IZR n - IZR n) (/ 2)); [reflexivity | lra].
Qed.

Lemma powerRZ_2_exp (e : Z) : powerRZ 2 e = exp (IZR e * ln 2).
Proof. rewrite powerRZ_Rpower by lra. reflexivity. Qed.

Lemma ln_2_pos : 0 < ln 2.
Proof. rewrite <- ln_1. apply ln_increasing; lra. Qed.

Lemma binade_bounds (x : R) :
  x <> 0 -> powerRZ 2 (binade x) <= Rabs x < powerRZ 2 (binade x + 1).
Proof.
  intros Hx. pose proof ln_2_pos as L2.
  assert (Hpos : 0 < Rabs x) by now apply Rabs_pos_lt.
  pose proof (Zfloor_bound (ln (Rabs x) / ln 2)) as [H1 H2].
  fold (binade x) in H1, H2.
  assert (A1 : IZR (binade x) * ln 2 <= ln (Rabs x)).
  { apply (Rmult_le_compat_r (ln 2)) in H1; [|lra].
    unfold Rdiv in H1. rewrite Rmult_assoc, Rinv_l, Rmult_1_r in H1; lra. }
  assert (A2 : ln (Rabs x) < IZR (binade x + 1) * ln 2).
  { apply (Rmult_lt_compat_r (ln 2)) in H2; [|lra].
    unfold Rdiv in H2. rewrite Rmult_assoc, Rinv_l, Rmult_1_r in H2 by lra.
    rewrite plus_IZR. lra. }
  rewrite !powerRZ_2_exp.
  pose proof (exp_ln (Rabs x) Hpos) as E.
  split.
  - rewrite <- E. destruct A1 as [A1|A1].
    + left. now apply exp_increasing.
    + right. now rewrite A1.
  - rewrite <- E at 1. now apply exp_increasing.
Qed.

Lemma powerRZ_2_pos (e : Z) : 0 < powerRZ 2 e.
Proof. apply powerRZ_lt. lra. Qed.

Lemma powerRZ_2_lt (a b : Z) : (a < b)%Z -> powerRZ 2 a < powerRZ 2 b.
Proof.
  intros H. rewrite !powerRZ_2_exp. apply exp_increasing.
  apply Rmult_lt_compat_r; [apply ln_2_pos | now apply IZR_lt].
Qed.

Lemma powerRZ_2_le (a b : Z) : (a <= b)%Z -> powerRZ 2 a <= powerRZ 2 b.
Proof.
  intros H. destruct (Z.eq_dec a b) as [->|N]; [lra|].
  left. apply powerRZ_2_lt. lia.
Qed.

Lemma powerRZ_2_lt_inv (a b : Z) : powerRZ 2 a < powerRZ 2 b -> (a < b)%Z.
Proof.
  intros H. destruct (Z.lt_ge_cases a b) as [|Hge]; [assumption|].
  apply powerRZ_2_le in Hge. lra.
Qed.

Lemma powerRZ_2_nat (n : Z) : (0 <= n)%Z -> powerRZ 2 n = IZR (2 ^ n).
Proof.
  intros H. destruct n as [|p|p]; [reflexivity | | lia].
  change (2 ^ Z.pos p)%Z with (Z.pow_pos 2 p).
  now rewrite Zpower_pos_powerRZ.
Qed.

Lemma round_double_error (x : R) :
  Rabs (round_double x - x) <= Rabs x / 2 ^ 53.
Proof.
  unfold round_double. destruct (Req_dec_T x 0) as [->|Hx].
  - rewrite Rminus_0_r, Rabs_R0. lra.
  - pose proof (binade_bounds x Hx) as [Hlo _].
    pose proof (powerRZ_2_pos (binade x - 52)) as Hu. fold (ulp x) in Hu.
    pose proof (nearest_even_error (x / ulp x)) as He.
    assert (E : IZR (nearest_even (x / ulp x)) * ulp x - x
                = (IZR (nearest_even (x / ulp x)) - x / ulp x) * ulp x)
      by (field; lra).
    rewrite E, Rabs_mult, (Rabs_pos_eq (ulp x)) by lra.
    assert (Eu : ulp x = powerRZ 2 (binade x) * / 2 ^ 52).
    { unfold ulp. unfold Z.sub. rewrite powerRZ_add by lra.
      f_equal. }
    apply Rle_trans with (/ 2 * ulp x).
    + apply Rmult_le_compat_r; lra.
    + rewrite Eu. lra.
Qed.

Lemma round_double_exact (m k : Z) :
  (Z.abs m < 2 ^ 53)%Z ->
  round_double (IZR m * powerRZ 2 k) = IZR m * powerRZ 2 k.
Proof.
  intros Hm. unfold round_double.
  destruct (Req_dec_T (IZR m * powerRZ 2 k) 0) as [E|Hx]; [now rewrite E|].
  set (x := IZR m * powerRZ 2 k) in *.
  pose proof (binade_bounds x Hx) as [Hlo _].
  pose proof (powerRZ_2_pos k) as Hk.
  assert (Hax : Rabs x < powerRZ 2 (53 + k)).
  { unfold x. rewrite Rabs_mult, (Rabs_pos_eq (powerRZ 2 k)) by lra.
    rewrite powerRZ_add by lra. apply Rmult_lt_compat_r; [assumption|].
    rewrite powerRZ_2_nat by lia. rewrite <- abs_IZR. now apply IZR_lt. }
  assert (He : (binade x < 53 + k)%Z) by (apply powerRZ_2_lt_inv; lra).
  assert (Eq : x / ulp x = IZR (m * 2 ^ (k - (binade x - 52)))).
  { unfold ulp. rewrite mult_IZR, <- powerRZ_2_nat by lia.
    replace (k - (binade x - 52))%Z with (k + - (binade x - 52))%Z by lia.
    rewrite (powerRZ_add 2 k) by lra.
    pose proof (powerRZ_2_pos (binade x - 52)) as Hu.
    assert (Ei : powerRZ 2 (- (binade x - 52)) = / powerRZ 2 (binade x - 52)).
    { apply (Rmult_eq_reg_r (powerRZ 2 (binade x - 52))); [|lra].
      rewrite <- powerRZ_add by lra. rewrite Rinv_l by lra.
      replace (- (binade x - 52) + (binade x - 52))%Z with 0%Z by lia.
      reflexivity. }
    rewrite Ei. unfold x, Rdiv. ring. }
  rewrite Eq, nearest_even_IZR. rewrite <- Eq. unfold Rdiv.
  rewrite Rmult_assoc, Rinv_l; [lra|].
  apply Rgt_not_eq. apply powerRZ_2_pos.
Qed.

Lemma round_double_IZR (m : Z) :
  (Z.abs m < 2 ^ 53)%Z -> round_double (IZR m) = IZR m.
Proof.
  intros H. pose proof (round_double_exact m 0 H) as E.
  rewrite powerRZ_O, Rmult_1_r in E. exact E.
Qed.

(** An addition whose exact sum is small against the step times [2^52]
    advances the counter by at least half the step. *)
Lemma double_add_advances (first last step : R) :
  0 < step ->
  Rmax (Rabs first) (Rabs last) + step <= step * 2 ^ 52 ->
  step_advances first last step.
Proof.
  intros Hs Hb x Hx. unfold double_add.
  pose proof (round_double_error (x + step)) as He.
  assert (Hax : Rabs x <= Rmax (Rabs first) (Rabs last)).
  { unfold Rmax. destruct (Rle_dec (Rabs first) (Rabs last));
      unfold Rabs in *;
      destruct (Rcase_abs x), (Rcase_abs first), (Rcase_abs last); lra. }
  assert (Hsum : Rabs (x + step) <= step * 2 ^ 52).
  { apply Rle_trans with (Rabs x + Rabs step); [apply Rabs_triang|].
    rewrite (Rabs_pos_eq step) by lra. lra. }
  assert (Hhalf : Rabs (x + step) / 2 ^ 53 <= step / 2) by lra.
  assert (Hlow : - (Rabs (x + step) / 2 ^ 53)
                 <= round_double (x + step) - (x + step)).
  { generalize He. generalize (Rabs (x + step) / 2 ^ 53). intros b Hb'.
    unfold Rabs in Hb'.
    destruct (Rcase_abs (round_double (x + step) - (x + step))); lra. }
  lra.
Qed.

(** ** Basic facts: the grid *)

Lemma cell_eqb_eq (a b : cell) : cell_eqb a b = true <-> a = b.
Proof.
  destruct a as [[ax ay] az], b as [[bx by_] bz]. unfold cell_eqb.
  rewrite !andb_true_iff, !Z.eqb_eq. split.
  - intros [[-> ->] ->]. reflexivity.
  - intros H. inversion H. auto.
Qed.

Lemma cell_eqb_refl (a : cell) : cell_eqb a a = true.
Proof. now apply cell_eqb_eq. Qed.

Lemma cell_eqb_neq (a b : cell) : a <> b -> cell_eqb a b = false.
Proof.
  intros H. destruct (cell_eqb a b) eqn:E; [|reflexivity].
  now apply cell_eqb_eq in E.
Qed.

Lemma cell_eq_dec (a b : cell) : {a = b} + {a <> b}.
Proof. repeat decide equality. Qed.

Lemma grid_store_same (g : grid) (c : cell) (v : R) : grid_store g c v c = v.
Proof. unfold grid_store. now rewrite cell_eqb_refl. Qed.

Lemma grid_store_other (g : grid) (c c' : cell) (v : R) :
  c' <> c -> grid_store g c v c' = g c'.
Proof. intros H. unfold grid_store. now rewrite cell_eqb_neq. Qed.

Lemma in_extent_spec (xs ys zs : Z) (i j k : Z) :
  in_extent xs ys zs (i, j, k) = true <->
  (0 <= i < xs /\ 0 <= j < ys /\ 0 <= k < zs)%Z.
Proof.
  unfold in_extent. rewrite !andb_true_iff, !Z.leb_le, !Z.ltb_lt. lia.
Qed.

Lemma allocated_spec (i j k : Z) :
  allocated (i, j, k) = true <->
  (0 <= i < kMaxXSize /\ 0 <= j < kMaxYSize /\ 0 <= k < kMaxZSize)%Z.
Proof.
  unfold allocated. rewrite !andb_true_iff, !Z.leb_le, !Z.ltb_lt. lia.
Qed.

(** One update: the target takes the maximum, every other cell is kept. *)
Lemma max_update_spec (g g' : grid) (c : cell) (v : R) :
  max_update g c v = Ok g' ->
  allocated c = true /\ g' c = dmax (g c) v /\
  forall c', c' <> c -> g' c' = g c'.
Proof.
  unfold max_update, grid_get, grid_set, bind.
  destruct (allocated c); [|discriminate].
  intros H. inversion H; subst. split; [reflexivity|]. split.
  - apply grid_store_same.
  - intros c' Hne. now apply grid_store_other.
Qed.

Lemma max_update_ok (g : grid) (c : cell) (v : R) :
  allocated c = true -> max_update g c v = Ok (grid_store g c (dmax (g c) v)).
Proof.
  intros H. unfold max_update, grid_get, grid_set, bind. now rewrite H.
Qed.

Lemma max_update_fault (g : grid) (c : cell) (v : R) (f : fault) :
  max_update g c v = Fault f -> f = OutOfBounds.
Proof.
  unfold max_update, grid_get, grid_set, bind.
  destruct (allocated c); [discriminate|]. now intros [= <-].
Qed.


(** ** Basic facts: the reset of the used extent *)

Lemma fold_store_spec (cells : list cell) (v : R) (g : grid) (c : cell) :
  fold_left (fun g' c' => grid_store g' c' v) cells g c =
  if existsb (cell_eqb c) cells then v else g c.
Proof.
  revert g. induction cells as [|c0 cells IH]; intros g; simpl; [reflexivity|].
  rewrite IH. destruct (existsb (cell_eqb c) cells).
  - now rewrite orb_true_r.
  - rewrite orb_false_r. unfold grid_store. reflexivity.
Qed.

Lemma fold_left_flat_map {A B S : Type} (f : S -> B -> S) (h : A -> list B)
    (l : list A) (s : S) :
  fold_left f (flat_map h l) s = fold_left (fun s' a => fold_left f (h a) s') l s.
Proof.
  revert s. induction l as [|a l IH]; intros s; simpl; [reflexivity|].
  rewrite fold_left_app. apply IH.
Qed.

Lemma fold_left_pointwise {A S : Type} (f g : S -> A -> S) (l : list A) (s : S) :
  (forall s' a, f s' a = g s' a) -> fold_left f l s = fold_left g l s.
Proof.
  intros H. revert s. induction l as [|a l IH]; intros s; simpl;
    [reflexivity|].
  rewrite H. apply IH.
Qed.

Lemma fold_left_over_map {A B S : Type} (f : S -> B -> S) (h : A -> B)
    (l : list A) (s : S) :
  fold_left f (map h l) s = fold_left (fun s' a => f s' (h a)) l s.
Proof.
  revert s. induction l as [|a l IH]; intros s; simpl; [reflexivity|].
  apply IH.
Qed.

Lemma In_extent_cells (xs ys zs : Z) (c : cell) :
  In c (extent_cells xs ys zs) <-> in_extent xs ys zs c = true.
Proof.
  destruct c as [[i j] k]. rewrite in_extent_spec. unfold extent_cells.
  rewrite in_flat_map. split.
  - intros [i' [Hi H]]. apply in_flat_map in H as [j' [Hj H]].
    apply in_map_iff in H as [k' [E Hk]]. inversion E; subst.
    apply In_Zrange in Hi, Hj, Hk. lia.
  - intros H. exists i. split; [apply In_Zrange; lia|].
    apply in_flat_map. exists j. split; [apply In_Zrange; lia|].
    apply in_map_iff. exists k. split; [reflexivity | apply In_Zrange; lia].
Qed.

Lemma reset_grid_stores (xs ys zs : Z) (v : R) (g : grid) :
  reset_grid xs ys zs v g =
  fold_left (fun g' c' => grid_store g' c' v) (extent_cells xs ys zs) g.
Proof.
  unfold reset_grid, extent_cells, fill_z.
  rewrite fold_left_flat_map. apply fold_left_pointwise. intros g1 i.
  rewrite fold_left_flat_map. apply fold_left_pointwise. intros g2 j.
  now rewrite fold_left_over_map.
Qed.

(** The reset sets exactly the cells of the used extent. *)
Lemma reset_grid_spec (xs ys zs : Z) (v : R) (g : grid) (c : cell) :
  reset_grid xs ys zs v g c = if in_extent xs ys zs c then v else g c.
Proof.
  rewrite reset_grid_stores, fold_store_spec.
  destruct (in_extent xs ys zs c) eqn:E.
  - apply In_extent_cells in E.
    assert (existsb (cell_eqb c) (extent_cells xs ys zs) = true) as ->;
      [|reflexivity].
    apply existsb_exists. exists c. split; [assumption | apply cell_eqb_refl].
  - assert (existsb (cell_eqb c) (extent_cells xs ys zs) = false) as ->;
      [|reflexivity].
    apply not_true_is_false. intros H.
    apply existsb_exists in H as [c' [Hin Heq]]. apply cell_eqb_eq in Heq.
    subst c'. apply In_extent_cells in Hin. congruence.
Qed.

(** ** The spill loops as a sequence of updates *)

Lemma spill_general_writes (t : DensityGridTracker) (tbl : spillover_table)
    (pt : PointXYZRGB) (g : grid) :
  spill_general t tbl pt g = apply_writes tbl (writes_general t pt) g.
Proof.
  unfold spill_general, apply_writes, writes_general, for_range.
  rewrite foldM_flat_map. apply foldM_ext. intros xs g1 _.
  rewrite foldM_flat_map. apply foldM_ext. intros ys g2 _.
  rewrite foldM_map. reflexivity.
Qed.

Lemma spill_unit_z_writes (t : DensityGridTracker) (tbl : spillover_table)
    (pt : PointXYZRGB) (g : grid) :
  spill_unit_z t tbl pt g = apply_writes tbl (writes_unit_z t pt) g.
Proof.
  unfold spill_unit_z, apply_writes, writes_unit_z, for_range.
  rewrite foldM_flat_map. apply foldM_ext. intros xs g1 _.
  rewrite foldM_flat_map. apply foldM_ext. intros ys g2 _.
  simpl. unfold do_write. simpl.
  destruct (spillovers_get tbl _ _ 0); simpl; [|reflexivity].
  destruct (max_update g2 _ _); simpl; [|reflexivity].
  destruct (spillovers_get tbl _ _ 1); simpl; [|reflexivity].
  destruct (max_update _ _ _); simpl; [|reflexivity].
  destruct (max_update _ _ _); reflexivity.
Qed.

Lemma spill_point_writes (t : DensityGridTracker) (tbl : spillover_table)
    (pt : PointXYZRGB) (g : grid) :
  spill_point t tbl pt g = apply_writes tbl (writes_of t pt) g.
Proof.
  unfold spill_point, writes_of.
  destruct (1 <? num_spillover_steps_z_ t)%Z;
    [apply spill_general_writes | apply spill_unit_z_writes].
Qed.

Lemma vec_get_fault {A : Type} (v : list A) (i : Z) (f : fault) :
  vec_get v i = Fault f -> f = OutOfBounds.
Proof.
  unfold vec_get. destruct (i <? 0)%Z; [now intros [= <-]|].
  destruct (nth_error v (Z.to_nat i)); [discriminate | now intros [= <-]].
Qed.

Lemma spillovers_get_fault (tbl : spillover_table) (i j k : Z) (f : fault) :
  spillovers_get tbl i j k = Fault f -> f = OutOfBounds.
Proof.
  unfold spillovers_get, bind.
  destruct (vec_get tbl i) as [row|f1] eqn:E1.
  - destruct (vec_get row j) as [col|f2] eqn:E2.
    + apply vec_get_fault.
    + intros [= <-]. eapply vec_get_fault; eauto.
  - intros [= <-]. eapply vec_get_fault; eauto.
Qed.

Lemma do_write_fault (tbl : spillover_table) (w : write) (g : grid)
    (f : fault) :
  do_write tbl w g = Fault f -> f = OutOfBounds.
Proof.
  unfold do_write. destruct w as [c [[i j] k]]. simpl. unfold bind.
  destruct (spillovers_get tbl i j k) eqn:E.
  - apply max_update_fault.
  - intros [= <-]. eapply spillovers_get_fault; eauto.
Qed.

Lemma do_write_spec (tbl : spillover_table) (c : cell) (i j k : Z)
    (g g' : grid) :
  do_write tbl (c, (i, j, k)) g = Ok g' ->
  exists v, spillovers_get tbl i j k = Ok v /\ allocated c = true /\
            g' c = dmax (g c) v /\ forall c', c' <> c -> g' c' = g c'.
Proof.
  unfold do_write. simpl. unfold bind.
  destruct (spillovers_get tbl i j k) as [v|]; [|discriminate].
  intros H. exists v. split; [reflexivity|]. now apply max_update_spec.
Qed.


(** No update lowers a cell. *)
Lemma apply_writes_raises (tbl : spillover_table) (ws : list write)
    (g g' : grid) (c : cell) :
  apply_writes tbl ws g = Ok g' -> g c <= g' c.
Proof.
  intros H.
  apply (foldM_invariant (fun g1 => g c <= g1 c) _ _ _ _ ) in H;
    [assumption | | lra].
  intros [c0 [[i j] k]] g1 g2 _ Hle Hw.
  apply do_write_spec in Hw as (v & _ & _ & Hc & Hother).
  destruct (cell_eq_dec c c0) as [->|Hne].
  - rewrite Hc. pose proof (dmax_l (g1 c0) v). lra.
  - now rewrite Hother.
Qed.


(** After the updates a target holds at least each value combined into it. *)
Lemma apply_writes_lower (tbl : spillover_table) (ws : list write)
    (g g' : grid) (c : cell) (i j k : Z) (v : R) :
  In (c, (i, j, k)) ws -> spillovers_get tbl i j k = Ok v ->
  apply_writes tbl ws g = Ok g' -> v <= g' c.
Proof.
  unfold apply_writes. revert g.
  induction ws as [|w ws IH]; intros g Hin Hv H; [contradiction|].
  simpl in H. destruct (do_write tbl w g) as [g1|] eqn:E; [|discriminate].
  simpl in H. destruct Hin as [->|Hin].
  - apply do_write_spec in E as (v' & Hv' & _ & Hc & _).
    rewrite Hv in Hv'. inversion Hv'; subst v'.
    pose proof (apply_writes_raises tbl ws g1 g' c H).
    pose proof (dmax_r (g c) v). lra.
  - now apply (IH g1).
Qed.

(** A bound on the old value and on every value combined into a cell
    bounds the new value. *)
Lemma apply_writes_upper (tbl : spillover_table) (ws : list write)
    (g g' : grid) (c : cell) (b : R) :
  g c <= b ->
  (forall i j k v, In (c, (i, j, k)) ws ->
                   spillovers_get tbl i j k = Ok v -> v <= b) ->
  apply_writes tbl ws g = Ok g' -> g' c <= b.
Proof.
  intros Hg Hws H.
  apply (foldM_invariant (fun g1 => g1 c <= b) _ _ _ _ ) in H;
    [assumption | | assumption].
  intros [c0 [[i j] k]] g1 g2 Hin Hle Hw.
  apply do_write_spec in Hw as (v & Hv & _ & Hc & Hother).
  destruct (cell_eq_dec c c0) as [->|Hne].
  - rewrite Hc. apply dmax_lub; [assumption|]. eapply Hws; eauto.
  - now rewrite Hother.
Qed.

(** Updates whose reads and targets are all in bounds succeed. *)
Lemma apply_writes_succeeds (tbl : spillover_table) (ws : list write)
    (g : grid) :
  (forall c i j k, In (c, (i, j, k)) ws ->
     allocated c = true /\ exists v, spillovers_get tbl i j k = Ok v) ->
  exists g', apply_writes tbl ws g = Ok g'.
Proof.
  intros H. apply foldM_succeeds. intros [c [[i j] k]] g1 Hin.
  destruct (H c i j k Hin) as (Hc & v & Hv).
  unfold do_write. simpl. rewrite Hv. simpl. rewrite max_update_ok by assumption.
  eauto.
Qed.

(** An update whose read is out of bounds makes the loops fault. *)
Lemma apply_writes_out_of_bounds (tbl : spillover_table) (ws : list write)
    (g : grid) (c : cell) (i j k : Z) :
  In (c, (i, j, k)) ws -> spillovers_get tbl i j k = Fault OutOfBounds ->
  apply_writes tbl ws g = Fault OutOfBounds.
Proof.
  intros Hin Hv. unfold apply_writes.
  apply (foldM_faults _ _ _ (c, (i, j, k))); [assumption | |].
  - intros g1. unfold do_write. simpl. now rewrite Hv.
  - intros w g1 f. apply do_write_fault.
Qed.

(** ** The spillover table *)

Lemma vec_get_map_Zrange {A : Type} (f : Z -> A) (n i : Z) :
  vec_get (map f (Zrange 0 n)) i =
  if ((0 <=? i) && (i <=? n))%Z then Ok (f i) else Fault OutOfBounds.
Proof.
  unfold vec_get. destruct (Z.ltb_spec i 0).
  - destruct (Z.leb_spec 0 i); [lia | reflexivity].
  - destruct (Z.leb_spec 0 i); [|lia]. simpl.
    rewrite nth_error_map. destruct (Z.leb_spec i n).
    + rewrite nth_error_Zrange by lia. simpl. f_equal. f_equal. lia.
    + assert (nth_error (Zrange 0 n) (Z.to_nat i) = None) as ->;
        [|reflexivity].
      apply nth_error_None. rewrite length_Zrange. lia.
Qed.

(** A read of the table: the entry inside its bounds, a fault outside. *)
Lemma spillovers_get_spec (t : DensityGridTracker) (tbl : spillover_table)
    (i j k : Z) :
  make_spillovers t = Ok tbl ->
  spillovers_get tbl i j k =
  if in_table t i j k then Ok (spillover_value t i j k)
  else Fault OutOfBounds.
Proof.
  unfold make_spillovers.
  destruct (_ || _)%bool; [discriminate|]. intros [= <-].
  unfold spillovers_get, in_table, bind.
  rewrite <- !andb_assoc. rewrite vec_get_map_Zrange.
  destruct (0 <=? i)%Z, (i <=? num_spillover_steps_xy_ t)%Z; simpl;
    try reflexivity.
  rewrite vec_get_map_Zrange.
  destruct (0 <=? j)%Z, (j <=? num_spillover_steps_xy_ t)%Z; simpl;
    try reflexivity.
  rewrite vec_get_map_Zrange.
  destruct (0 <=? k)%Z, (k <=? num_spillover_steps_z_ t)%Z; reflexivity.
Qed.

Lemma in_table_spec (t : DensityGridTracker) (i j k : Z) :
  in_table t i j k = true <->
  (0 <= i <= num_spillover_steps_xy_ t /\
   0 <= j <= num_spillover_steps_xy_ t /\
   0 <= k <= num_spillover_steps_z_ t)%Z.
Proof.
  unfold in_table. rewrite !andb_true_iff, !Z.leb_le. lia.
Qed.

Lemma make_spillovers_ok (t : DensityGridTracker) :
  (0 <= num_spillover_steps_xy_ t)%Z -> (0 <= num_spillover_steps_z_ t)%Z ->
  exists tbl, make_spillovers t = Ok tbl.
Proof.
  intros Hxy Hz. unfold make_spillovers.
  destruct (Z.ltb_spec (num_spillover_steps_xy_ t + 1) 0); [lia|].
  destruct (Z.ltb_spec (num_spillover_steps_z_ t + 1) 0); [lia|].
  simpl. eauto.
Qed.

(** ** Grid sizing *)

Lemma kMax_values :
  kMaxXSize = 1000%Z /\ kMaxYSize = 1000%Z /\ kMaxZSize = 500%Z.
Proof. repeat split. Qed.

Lemma computeDensityGridSize_extent_ok (t : DensityGridTracker)
    (prev : PointCloud) (xy zs d dsf : R) :
  extent_ok (computeDensityGridSize t prev xy zs d dsf).
Proof.
  destruct kMax_values as (Hx & Hy & Hz).
  unfold extent_ok. sizing_unfold. rewrite Hx, Hy, Hz. lia.
Qed.

Lemma computeDensityGridSize_discount (t : DensityGridTracker)
    (prev : PointCloud) (xy zs d dsf : R) :
  discount_factor_ (computeDensityGridSize t prev xy zs d dsf) =
  discount_factor (length prev).
Proof. sizing_unfold. reflexivity. Qed.

Lemma computeDensityGridSize_sigma (t : DensityGridTracker)
    (prev : PointCloud) (xy zs d dsf : R) :
  spillover_sigma_xy_ (computeDensityGridSize t prev xy zs d dsf) =
    sigma_xy xy d dsf /\
  spillover_sigma_z_ (computeDensityGridSize t prev xy zs d dsf) =
    sigma_z d dsf.
Proof. sizing_unfold. split; reflexivity. Qed.

Lemma computeDensityGridSize_steps (t : DensityGridTracker)
    (prev : PointCloud) (xy zs d dsf : R) :
  xy_grid_step_ (computeDensityGridSize t prev xy zs d dsf) = xy /\
  z_grid_step_ (computeDensityGridSize t prev xy zs d dsf) = zs /\
  min_density_ (computeDensityGridSize t prev xy zs d dsf) = kSmoothingFactor.
Proof. sizing_unfold. repeat split; reflexivity. Qed.

Lemma computeDensityGridSize_grid (t : DensityGridTracker)
    (prev : PointCloud) (xy zs d dsf : R) (c : cell) :
  density_grid_ (computeDensityGridSize t prev xy zs d dsf) c =
  if used_extent (computeDensityGridSize t prev xy zs d dsf) c
  then ln kSmoothingFactor else density_grid_ t c.
Proof. unfold used_extent. sizing_unfold. apply reset_grid_spec. Qed.

(** ** C5: the discount factor *)

Lemma INR_150 : INR 150 = 150.
Proof. rewrite INR_IZR_INZ. reflexivity. Qed.

Lemma INR_300 : INR 300 = 300.
Proof. rewrite INR_IZR_INZ. reflexivity. Qed.

(** C5.  The discount factor that [computeDensityGridSize] stores is the
    base factor for a previous scan of fewer than 150 points and the base
    factor times [150 / n] for one of [n >= 150] points; it is the base
    factor at [n = 150], half the base factor at [n = 300], and never
    above 1. *)
Theorem discount_factor_by_point_count (t : DensityGridTracker)
    (prev : PointCloud) (xy zs d dsf : R) (n : nat) :
  discount_factor_ (computeDensityGridSize t prev xy zs d dsf) =
    discount_factor (length prev) /\
  discount_factor n =
    (if (n <? 150)%nat then kMeasurementDiscountFactor
     else kMeasurementDiscountFactor * (150 / INR n)) /\
  discount_factor 150 = kMeasurementDiscountFactor /\
  discount_factor 300 = kMeasurementDiscountFactor * 0.5 /\
  discount_factor n <= 1.
Proof.
  split; [apply computeDensityGridSize_discount|].
  unfold discount_factor, kMaxDiscountPoints, kMeasurementDiscountFactor.
  repeat split.
  - destruct (Nat.ltb_spec n 150) as [Hlt|Hge].
    + apply lt_INR in Hlt. rewrite INR_150 in Hlt.
      destruct (Rlt_dec (INR n) 150); [reflexivity | lra].
    + apply le_INR in Hge. rewrite INR_150 in Hge.
      destruct (Rlt_dec (INR n) 150); [lra | reflexivity].
  - rewrite INR_150. destruct (Rlt_dec 150 150); [lra | lra].
  - rewrite INR_300. destruct (Rlt_dec 300 150); [lra | lra].
  - destruct (Rlt_dec (INR n) 150) as [Hlt|Hge]; [lra|].
    apply Rnot_lt_le in Hge.
    assert (150 / INR n <= 1); [|lra].
    unfold Rdiv. apply (Rmult_le_reg_r (INR n)); [lra|].
    rewrite Rmult_assoc, Rinv_l by lra. lra.
Qed.

(** ** C7: the two sigmas *)

(** C7, as stated, fails: for a grid step of 1 the vertical sigma of the
    frame is not the combination that includes the sampling-step term. *)
Lemma sigma_z_ignores_sampling_step :
  spillover_sigma_z_
    (computeDensityGridSize DensityGridTracker_new [mkPoint 0 0 0] 1 1 20 1)
  <> claimed_sigma_z 1 20 1.
Proof.
  rewrite (proj2 (computeDensityGridSize_sigma _ _ _ _ _ _)).
  unfold sigma_z, claimed_sigma_z, kSigmaGridFactor.
  set (e := velodyne_vertical_res 20 1 * kSigmaFactor).
  assert (H : sqrt (0 ^ 2 + e ^ 2 + kMinMeasurementVariance ^ 2)
              < sqrt ((1 * 1) ^ 2 + e ^ 2 + kMinMeasurementVariance ^ 2)).
  { apply sqrt_lt_1_alt. split; [|lra].
    pose proof (pow2_ge_0 e). pose proof (pow2_ge_0 kMinMeasurementVariance).
    lra. }
  lra.
Qed.

(** C7, amended.  [sigma_xy] is the square root of the sum of the squares
    of the sampling-step term [kSigmaGridFactor * xy_step], the horizontal
    resolution term and the noise floor; [sigma_z] is the square root of
    the sum of the squares of the vertical resolution term (2.2 times the
    horizontal resolution) and the noise floor, its sampling term being the
    constant 0, so that it does not depend on the step sizes. *)
Theorem sigma_combination (t : DensityGridTracker) (prev : PointCloud)
    (xy zs d dsf : R) :
  let res_h := 2 * d * tan (0.18 / 2.0 * pi / 180.0) / dsf in
  spillover_sigma_xy_ (computeDensityGridSize t prev xy zs d dsf) =
    sqrt ((kSigmaGridFactor * xy) ^ 2 + (res_h * kSigmaFactor) ^ 2
          + kMinMeasurementVariance ^ 2) /\
  spillover_sigma_z_ (computeDensityGridSize t prev xy zs d dsf) =
    sqrt (0 ^ 2 + (2.2 * res_h * kSigmaFactor) ^ 2
          + kMinMeasurementVariance ^ 2) /\
  forall xy' zs' : R,
    spillover_sigma_z_ (computeDensityGridSize t prev xy' zs' d dsf) =
    spillover_sigma_z_ (computeDensityGridSize t prev xy zs d dsf).
Proof.
  intros res_h.
  destruct (computeDensityGridSize_sigma t prev xy zs d dsf) as [-> ->].
  repeat split.
  intros xy' zs'.
  now destruct (computeDensityGridSize_sigma t prev xy' zs' d dsf) as [_ ->].
Qed.

(** ** C1 and C10: scoring *)

Lemma shifted_index_bounds (size : Z) (c step off : R) :
  (1 <= size)%Z -> (0 <= shifted_index size c step off <= size - 1)%Z.
Proof. unfold shifted_index. lia. Qed.

Lemma shifted_index_clamp (size : Z) (c step off : R) :
  (1 <= size)%Z ->
  shifted_index size c step off =
  clamp 0 (size - 1) (nearest_index (c / step + off)).
Proof. unfold shifted_index, clamp, nearest_index. lia. Qed.

Lemma shifted_cell_spec_cell (t : DensityGridTracker) (minPt : PointXYZRGB)
    (xy zs x y z : R) (pt : PointXYZRGB) :
  extent_ok t ->
  shifted_cell t minPt xy zs x y z pt = spec_cell t minPt xy zs x y z pt.
Proof.
  intros (Hx & Hy & Hz). unfold shifted_cell, spec_cell.
  rewrite !shifted_index_clamp by lia. reflexivity.
Qed.

(** Every read of the scorer is at a cell of the used extent. *)
Lemma shifted_cell_in_extent (t : DensityGridTracker) (minPt : PointXYZRGB)
    (xy zs x y z : R) (pt : PointXYZRGB) :
  extent_ok t ->
  used_extent t (shifted_cell t minPt xy zs x y z pt) = true.
Proof.
  intros (Hx & Hy & Hz). unfold used_extent, shifted_cell.
  apply in_extent_spec.
  pose proof (shifted_index_bounds (xSize_ t) (pt_x pt) xy
                ((x - pt_x minPt) / xy)).
  pose proof (shifted_index_bounds (ySize_ t) (pt_y pt) xy
                ((y - pt_y minPt) / xy)).
  pose proof (shifted_index_bounds (zSize_ t) (pt_z pt) zs
                ((z - pt_z minPt) / zs)).
  lia.
Qed.

Lemma used_extent_allocated (t : DensityGridTracker) (c : cell) :
  extent_ok t -> used_extent t c = true -> allocated c = true.
Proof.
  intros (Hx & Hy & Hz). destruct c as [[i j] k]. unfold used_extent.
  rewrite in_extent_spec, allocated_spec. lia.
Qed.

(** The accumulation loop of the scorer. *)
Lemma total_log_density_loop (g : grid) (cell_of : PointXYZRGB -> cell)
    (pts : PointCloud) (total : R) :
  (forall pt, In pt pts -> allocated (cell_of pt) = true) ->
  foldM (fun pt acc => d <- grid_get g (cell_of pt) ;; Ok (acc + d)) pts total
  = Ok (total + fold_right Rplus 0 (map (fun pt => g (cell_of pt)) pts)).
Proof.
  revert total. induction pts as [|pt pts IH]; intros total H; simpl.
  - f_equal. lra.
  - unfold grid_get. rewrite (H pt) by (now left). simpl.
    rewrite IH by (intros q Hq; apply H; now right). f_equal. lra.
Qed.

(** The scorer returns the score of the specification. *)
Lemma getLogProbability_sum (t : DensityGridTracker)
    (current_points : PointCloud) (minPt : PointXYZRGB) (xy zs : R)
    (motion_model : MotionModel) (x y z : R) :
  extent_ok t ->
  getLogProbability t current_points minPt xy zs motion_model x y z =
  Ok (spec_log_probability t current_points minPt xy zs motion_model x y z).
Proof.
  intros Hok. unfold getLogProbability, spec_log_probability, computeScore.
  rewrite total_log_density_loop.
  - cbn [bind]. rewrite Rplus_0_l. do 4 f_equal.
    apply map_ext. intros pt. now rewrite shifted_cell_spec_cell.
  - intros pt _. apply (used_extent_allocated t); [assumption|].
    now apply shifted_cell_in_extent.
Qed.



(** C10.  Every read of the scorer is at a cell whose indices lie in
    [[0, used dimension - 1]], and the score does not change when the
    cells of the buffer outside the used extent hold other values. *)
Theorem stale_cells_do_not_score (t : DensityGridTracker) (stale : grid)
    (current_points : PointCloud) (minPt : PointXYZRGB) (xy zs : R)
    (motion_model : MotionModel) (x y z : R) :
  extent_ok t ->
  (forall pt, used_extent t (shifted_cell t minPt xy zs x y z pt) = true) /\
  getLogProbability (overwrite_outside t stale) current_points minPt xy zs
    motion_model x y z =
  getLogProbability t current_points minPt xy zs motion_model x y z.
Proof.
  intros Hok. split.
  - intros pt. now apply shifted_cell_in_extent.
  - assert (Hok' : extent_ok (overwrite_outside t stale)) by exact Hok.
    rewrite !getLogProbability_sum by assumption.
    unfold spec_log_probability. do 4 f_equal.
    apply map_ext. intros pt.
    rewrite <- !shifted_cell_spec_cell by assumption.
    change (shifted_cell (overwrite_outside t stale) minPt xy zs x y z pt)
      with (shifted_cell t minPt xy zs x y z pt).
    unfold overwrite_outside, set_density_grid.
    cbn [density_grid_].
    now rewrite shifted_cell_in_extent.
Qed.

Lemma stale_cells_do_not_score_witness :
  let t := computeDensityGridSize DensityGridTracker_new [mkPoint 0 0 0]
             1 1 20 1 in
  (forall pt,
     used_extent t (shifted_cell t (min_pt_ t) 1 1 5 0 0 pt) = true) /\
  getLogProbability (overwrite_outside t (fun _ => 1000))
    [mkPoint 0 0 0; mkPoint 7 0 0] (min_pt_ t) 1 1 (fun _ _ _ => 1) 5 0 0 =
  getLogProbability t
    [mkPoint 0 0 0; mkPoint 7 0 0] (min_pt_ t) 1 1 (fun _ _ _ => 1) 5 0 0.
Proof.
  intros t. apply stale_cells_do_not_score.
  apply computeDensityGridSize_extent_ok.
Defined.

(** ** The bounding box and the indices of the previous points *)

Lemma dmin_le_l (a b : R) : dmin a b <= a.
Proof. rewrite dmin_Rmin. apply Rmin_l. Qed.

Lemma dmin_le_r (a b : R) : dmin a b <= b.
Proof. rewrite dmin_Rmin. apply Rmin_r. Qed.

Lemma minmax_fold_bounds (l : PointCloud) (init : PointXYZRGB * PointXYZRGB) :
  let r := fold_left minmax_step l init in
  (pt_x (fst r) <= pt_x (fst init) /\ pt_x (snd init) <= pt_x (snd r)) /\
  (pt_y (fst r) <= pt_y (fst init) /\ pt_y (snd init) <= pt_y (snd r)) /\
  (pt_z (fst r) <= pt_z (fst init) /\ pt_z (snd init) <= pt_z (snd r)) /\
  forall p, In p l ->
    (pt_x (fst r) <= pt_x p <= pt_x (snd r)) /\
    (pt_y (fst r) <= pt_y p <= pt_y (snd r)) /\
    (pt_z (fst r) <= pt_z p <= pt_z (snd r)).
Proof.
  revert init. induction l as [|q l IH]; intros init; simpl.
  - repeat split; try lra; contradiction.
  - specialize (IH (minmax_step init q)). simpl in IH.
    destruct IH as ((Hx1 & Hx2) & (Hy1 & Hy2) & (Hz1 & Hz2) & Hall).
    pose proof (dmin_le_l (pt_x (fst init)) (pt_x q)).
    pose proof (dmin_le_r (pt_x (fst init)) (pt_x q)).
    pose proof (dmin_le_l (pt_y (fst init)) (pt_y q)).
    pose proof (dmin_le_r (pt_y (fst init)) (pt_y q)).
    pose proof (dmin_le_l (pt_z (fst init)) (pt_z q)).
    pose proof (dmin_le_r (pt_z (fst init)) (pt_z q)).
    pose proof (dmax_l (pt_x (snd init)) (pt_x q)).
    pose proof (dmax_r (pt_x (snd init)) (pt_x q)).
    pose proof (dmax_l (pt_y (snd init)) (pt_y q)).
    pose proof (dmax_r (pt_y (snd init)) (pt_y q)).
    pose proof (dmax_l (pt_z (snd init)) (pt_z q)).
    pose proof (dmax_r (pt_z (snd init)) (pt_z q)).
    repeat split; try lra.
    all: match goal with
         | Hor : _ \/ In _ _ |- _ =>
             destruct Hor as [<-|Hin]; [lra | apply (Hall _ Hin)]
         end.
Qed.

(** The box of [getMinMax3D] holds every point of the cloud. *)
Lemma getMinMax3D_bounds (cloud : PointCloud) (p : PointXYZRGB) :
  In p cloud ->
  (pt_x (fst (getMinMax3D cloud)) <= pt_x p <= pt_x (snd (getMinMax3D cloud)))
  /\
  (pt_y (fst (getMinMax3D cloud)) <= pt_y p <= pt_y (snd (getMinMax3D cloud)))
  /\
  (pt_z (fst (getMinMax3D cloud)) <= pt_z p <= pt_z (snd (getMinMax3D cloud))).
Proof.
  intros Hin. unfold getMinMax3D.
  now apply (minmax_fold_bounds cloud).
Qed.

Lemma round_ge_2 (r : R) : 2 <= r -> (2 <= to_int (round r))%Z.
Proof.
  intros H.
  assert (E : to_int (round 2) = 2%Z).
  { rewrite (round_near 2 2) by lra. apply to_int_IZR. }
  rewrite <- E at 1. now apply to_int_le, round_le.
Qed.

Lemma round_le_ceil (r : R) : 0 <= r -> (to_int (round r) <= Zceil r)%Z.
Proof.
  intros H. unfold round. destruct (Rle_dec 0 r); [|lra].
  rewrite to_int_IZR.
  pose proof (Zfloor_bound (r + / 2)) as [Hf _].
  pose proof (Zceil_bound r) as [_ Hc].
  apply Z.lt_succ_r. apply lt_IZR. rewrite succ_IZR. lra.
Qed.

(** One axis of the sizing: with a positive step and a non-negative extra
    padding, every point of the box has an index of at least 2 and at most
    the unclamped dimension minus 2. *)
Lemma axis_index_bounds (lo hi p step pad : R) :
  0 < step -> 0 <= pad -> lo <= p <= hi ->
  (2 <= point_index p step (- (lo - (2 * step + pad)) / step)
     <= to_int (ceil ((hi + 2 * step - (lo - (2 * step + pad))) / step)) - 2)%Z.
Proof.
  intros Hstep Hpad Hp. unfold point_index. rewrite to_int_ceil.
  set (v := p / step + - (lo - (2 * step + pad)) / step).
  assert (Ev : v = (p - lo) / step + pad / step + 2)
    by (unfold v; field; lra).
  assert (Ew : (hi + 2 * step - (lo - (2 * step + pad))) / step
               = ((hi - lo) / step + pad / step + 2) + IZR 2)
    by (field; lra).
  assert (H1 : 0 <= (p - lo) / step)
    by (apply Rmult_le_pos; [lra | left; apply Rinv_0_lt_compat; lra]).
  assert (H2 : 0 <= pad / step)
    by (apply Rmult_le_pos; [lra | left; apply Rinv_0_lt_compat; lra]).
  assert (H3 : (p - lo) / step <= (hi - lo) / step).
  { apply Rmult_le_compat_r; [left; apply Rinv_0_lt_compat; lra | lra]. }
  split.
  - apply round_ge_2. lra.
  - rewrite Ew, Zceil_addz.
    assert (to_int (round v) <= Zceil v)%Z by (apply round_le_ceil; lra).
    assert (Zceil v <= Zceil ((hi - lo) / step + pad / step + 2))%Z
      by (apply Zceil_le; lra).
    lia.
Qed.

Lemma sigma_xy_ge_step (xy d dsf : R) : 0 < xy -> xy <= sigma_xy xy d dsf.
Proof.
  intros H. unfold sigma_xy, kSigmaGridFactor.
  set (e := velodyne_horizontal_res d dsf * kSigmaFactor).
  rewrite <- (sqrt_pow2 xy) at 1 by lra.
  apply sqrt_le_1_alt.
  pose proof (pow2_ge_0 e). pose proof (pow2_ge_0 kMinMeasurementVariance).
  lra.
Qed.

Lemma sigma_z_pos (d dsf : R) : 0 < sigma_z d dsf.
Proof.
  unfold sigma_z. apply sqrt_lt_R0.
  set (e := velodyne_vertical_res d dsf * kSigmaFactor).
  pose proof (pow2_ge_0 e). unfold kMinMeasurementVariance. lra.
Qed.

Lemma computeDensityGridSize_radius_xy (t : DensityGridTracker)
    (prev : PointCloud) (xy zs d dsf : R) :
  0 < xy ->
  (1 <= num_spillover_steps_xy_ (computeDensityGridSize t prev xy zs d dsf))%Z.
Proof.
  intros Hxy. sizing_unfold. rewrite to_int_ceil.
  rewrite <- (Zceil_eq 1 1) at 1 by lra.
  apply Zceil_le. pose proof (sigma_xy_ge_step xy d dsf Hxy).
  unfold kSpilloverRadius.
  assert (1 <= sigma_xy xy d dsf / xy).
  { unfold Rdiv. apply (Rmult_le_reg_r xy); [lra|].
    rewrite Rmult_assoc, Rinv_l by lra. lra. }
  unfold Rdiv in *. rewrite Rmult_assoc. lra.
Qed.

Lemma computeDensityGridSize_radius_z (t : DensityGridTracker)
    (prev : PointCloud) (xy zs d dsf : R) :
  (1 <= num_spillover_steps_z_ (computeDensityGridSize t prev xy zs d dsf))%Z.
Proof.
  sizing_unfold. rewrite <- (to_int_IZR 1) at 1.
  apply to_int_le. pose proof (dmax_l 1.0 (ceil
    (kSpilloverRadius * sigma_z d dsf / zs - 1))). lra.
Qed.

(** The indices of a point and the dimensions, in terms of the box. *)
Lemma computeDensityGridSize_geometry (t : DensityGridTracker)
    (prev : PointCloud) (xy zs d dsf : R) (pt : PointXYZRGB) :
    x_index_of (computeDensityGridSize t prev xy zs d dsf) pt =
      point_index (pt_x pt) xy
        (- (pt_x (fst (getMinMax3D prev)) - (2 * xy + 0.0001)) / xy) /\
    y_index_of (computeDensityGridSize t prev xy zs d dsf) pt =
      point_index (pt_y pt) xy
        (- (pt_y (fst (getMinMax3D prev)) - (2 * xy + 0.0001)) / xy) /\
    z_index_of (computeDensityGridSize t prev xy zs d dsf) pt =
      point_index (pt_z pt) zs
        (- (pt_z (fst (getMinMax3D prev))
            - (2 * zs + Rabs (zs - (pt_z (snd (getMinMax3D prev))
                                     - pt_z (fst (getMinMax3D prev)))) / 2))
         / zs) /\
    xSize_ (computeDensityGridSize t prev xy zs d dsf) = Z.min kMaxXSize (Z.max 1 (to_int (ceil
      ((pt_x (snd (getMinMax3D prev)) + 2 * xy
        - (pt_x (fst (getMinMax3D prev)) - (2 * xy + 0.0001))) / xy)))) /\
    ySize_ (computeDensityGridSize t prev xy zs d dsf) = Z.min kMaxYSize (Z.max 1 (to_int (ceil
      ((pt_y (snd (getMinMax3D prev)) + 2 * xy
        - (pt_y (fst (getMinMax3D prev)) - (2 * xy + 0.0001))) / xy)))) /\
    zSize_ (computeDensityGridSize t prev xy zs d dsf) = Z.min kMaxZSize (Z.max 1 (to_int (ceil
      ((pt_z (snd (getMinMax3D prev)) + 2 * zs
        - (pt_z (fst (getMinMax3D prev))
           - (2 * zs + Rabs (zs - (pt_z (snd (getMinMax3D prev))
                                    - pt_z (fst (getMinMax3D prev)))) / 2)))
       / zs)))).
Proof.
  unfold x_index_of, y_index_of, z_index_of, computeDensityGridSize.
  destruct (getMinMax3D prev) as [mn mx]. simpl. repeat split.
Qed.

(** What [computeDensityGridSize] establishes for a scan that is not empty
    and positive steps: a sized tracker, every previous point with indices
    of at least 2, and at most the dimension minus 2 on each axis whose
    dimension stays below its maximum. *)
Lemma computeDensityGridSize_sized (t : DensityGridTracker)
    (prev : PointCloud) (xy zs d dsf : R) (pt : PointXYZRGB) :
  0 < xy -> 0 < zs -> In pt prev ->
  let t' := computeDensityGridSize t prev xy zs d dsf in
  sized t' /\
  (2 <= x_index_of t' pt /\ 2 <= y_index_of t' pt /\ 2 <= z_index_of t' pt)%Z
  /\
  ((xSize_ t' < kMaxXSize -> x_index_of t' pt <= xSize_ t' - 2) /\
   (ySize_ t' < kMaxYSize -> y_index_of t' pt <= ySize_ t' - 2) /\
   (zSize_ t' < kMaxZSize -> z_index_of t' pt <= zSize_ t' - 2))%Z.
Proof.
  intros Hxy Hzs Hin t'.
  pose proof (computeDensityGridSize_extent_ok t prev xy zs d dsf) as Hext.
  pose proof (computeDensityGridSize_radius_xy t prev xy zs d dsf Hxy) as Hrxy.
  pose proof (computeDensityGridSize_radius_z t prev xy zs d dsf) as Hrz.
  destruct (computeDensityGridSize_sigma t prev xy zs d dsf) as [Hsxy Hsz].
  destruct (computeDensityGridSize_steps t prev xy zs d dsf)
    as (_ & _ & Hmd).
  pose proof (getMinMax3D_bounds prev pt Hin) as (Hbx & Hby & Hbz).
  fold t' in Hext, Hrxy, Hrz, Hsxy, Hsz, Hmd.
  assert (Hpadz : 0 <= Rabs (zs - (pt_z (snd (getMinMax3D prev))
                                   - pt_z (fst (getMinMax3D prev)))) / 2).
  { pose proof (Rabs_pos (zs - (pt_z (snd (getMinMax3D prev))
                                - pt_z (fst (getMinMax3D prev))))). lra. }
  pose proof (axis_index_bounds _ _ _ xy 0.0001 Hxy ltac:(lra) Hbx) as Hx.
  pose proof (axis_index_bounds _ _ _ xy 0.0001 Hxy ltac:(lra) Hby) as Hy.
  pose proof (axis_index_bounds _ _ _ zs _ Hzs Hpadz Hbz) as Hz.
  destruct kMax_values as (Kx & Ky & Kz).
  pose proof (computeDensityGridSize_geometry t prev xy zs d dsf pt) as Hidx.
  fold t' in Hidx.
  destruct Hidx as (Ex & Ey & Ez & Sx & Sy & Sz).
  rewrite Ex, Ey, Ez, Sx, Sy, Sz, Kx, Ky, Kz.
  split; [|lia].
  constructor; try assumption.
  - rewrite Sx, Sy, Sz, Kx, Ky, Kz. lia.
  - rewrite Hsxy. pose proof (sigma_xy_ge_step xy d dsf Hxy). lra.
  - rewrite Hsz. apply sigma_z_pos.
Qed.

(** ** The spillover kernel falls off with the distance *)

Lemma exp_factor_nonpos (step sigma : R) :
  0 < sigma -> -1.0 * step ^ 2 / (2 * sigma ^ 2) <= 0.
Proof.
  intros H.
  assert (0 < 2 * sigma ^ 2) by (assert (0 < sigma ^ 2) by nra; lra).
  assert (0 <= step ^ 2 / (2 * sigma ^ 2)).
  { apply Rmult_le_pos; [apply pow2_ge_0 | left; now apply Rinv_0_lt_compat]. }
  unfold Rdiv in *. rewrite Rmult_assoc. lra.
Qed.

Lemma exp_le (a b : R) : a <= b -> exp a <= exp b.
Proof.
  intros [H| ->]; [left; now apply exp_increasing | right; reflexivity].
Qed.

Lemma ln_monotone (a b : R) : 0 < a -> a <= b -> ln a <= ln b.
Proof.
  intros Ha [H| ->]; [left; now apply ln_increasing | right; reflexivity].
Qed.

Lemma spillover_value_mono (t : DensityGridTracker) (i j k i' j' k' : Z) :
  0 < spillover_sigma_xy_ t -> 0 < spillover_sigma_z_ t ->
  0 < min_density_ t ->
  (0 <= i' <= i)%Z -> (0 <= j' <= j)%Z -> (0 <= k' <= k)%Z ->
  spillover_value t i j k <= spillover_value t i' j' k'.
Proof.
  intros Hsxy Hsz Hmd Hi Hj Hk. unfold spillover_value.
  pose proof (exp_factor_nonpos (xy_grid_step_ t) _ Hsxy) as Hfx.
  pose proof (exp_factor_nonpos (z_grid_step_ t) _ Hsz) as Hfz.
  fold (xy_exp_factor t) in Hfx. fold (z_exp_factor t) in Hfz.
  assert (Hxy : (i' * i' + j' * j' <= i * i + j * j)%Z) by nia.
  assert (Hz : (k' * k' <= k * k)%Z) by nia.
  apply IZR_le in Hxy, Hz.
  apply ln_monotone.
  - pose proof (exp_pos (IZR (i * i + j * j) * xy_exp_factor t
                         + IZR (k * k) * z_exp_factor t)). lra.
  - apply Rplus_le_compat_r. apply exp_le. nra.
Qed.

(** ** Grid construction as one sequence of updates *)

Lemma build_grid_writes
    (spill : DensityGridTracker -> spillover_table -> PointXYZRGB -> grid ->
             result grid)
    (writes : DensityGridTracker -> PointXYZRGB -> list write)
    (t : DensityGridTracker) (points : PointCloud) :
  (forall tbl pt g, spill t tbl pt g = apply_writes tbl (writes t pt) g) ->
  build_grid spill t points =
  (tbl <- make_spillovers t ;;
   g <- apply_writes tbl (flat_map (writes t) points) (density_grid_ t) ;;
   Ok (set_density_grid t g)).
Proof.
  intros H. unfold build_grid.
  destruct (make_spillovers t) as [tbl|]; simpl; [|reflexivity].
  unfold apply_writes at 1. rewrite foldM_flat_map.
  erewrite foldM_ext; [reflexivity|].
  intros pt g _. apply H.
Qed.

Lemma computeDensityGrid_writes (t : DensityGridTracker) (points : PointCloud) :
  computeDensityGrid t points =
  (tbl <- make_spillovers t ;;
   g <- apply_writes tbl (all_writes t points) (density_grid_ t) ;;
   Ok (set_density_grid t g)).
Proof.
  apply (build_grid_writes spill_point writes_of).
  intros tbl pt g. apply spill_point_writes.
Qed.

Lemma computeDensityGrid_inv (t t' : DensityGridTracker)
    (points : PointCloud) :
  computeDensityGrid t points = Ok t' ->
  exists tbl g,
    make_spillovers t = Ok tbl /\
    apply_writes tbl (all_writes t points) (density_grid_ t) = Ok g /\
    t' = set_density_grid t g.
Proof.
  rewrite computeDensityGrid_writes.
  destruct (make_spillovers t) as [tbl|]; simpl; [|discriminate].
  destruct (apply_writes tbl _ _) as [g|] eqn:E; simpl; [|discriminate].
  intros [= <-]. now exists tbl, g.
Qed.

Lemma apply_writes_reads (tbl : spillover_table) (ws : list write)
    (g g' : grid) (c : cell) (i j k : Z) :
  apply_writes tbl ws g = Ok g' -> In (c, (i, j, k)) ws ->
  exists v, spillovers_get tbl i j k = Ok v.
Proof.
  unfold apply_writes. revert g.
  induction ws as [|w ws IH]; intros g H Hin; [contradiction|].
  simpl in H. destruct (do_write tbl w g) as [g1|] eqn:E; [|discriminate].
  destruct Hin as [->|Hin].
  - apply do_write_spec in E as (v & Hv & _). eauto.
  - now apply (IH g1).
Qed.

Lemma apply_writes_prefix (tbl : spillover_table) (ws : list write)
    (g g' : grid) (n : nat) :
  apply_writes tbl ws g = Ok g' ->
  exists gn, apply_writes tbl (firstn n ws) g = Ok gn.
Proof.
  intros H. rewrite <- (firstn_skipn n ws) in H.
  unfold apply_writes in *. rewrite foldM_app in H.
  destruct (foldM (do_write tbl) (firstn n ws) g) as [gn|]; [eauto|].
  discriminate.
Qed.

(** ** The updates of one point *)

Lemma In_writes_general (t : DensityGridTracker) (pt : PointXYZRGB)
    (c : cell) (i j k : Z) :
  In (c, (i, j, k)) (writes_general t pt) <->
  exists xs ys zs,
    c = (xs, ys, zs) /\
    i = Z.abs (x_index_of t pt - xs) /\
    j = Z.abs (y_index_of t pt - ys) /\
    k = Z.abs (z_index_of t pt - zs) /\
    (min_index (xSize_ t) (x_index_of t pt) (num_spillover_steps_xy_ t)
       <= xs <=
     max_index (xSize_ t) (x_index_of t pt) (num_spillover_steps_xy_ t))%Z /\
    (min_index (ySize_ t) (y_index_of t pt) (num_spillover_steps_xy_ t)
       <= ys <=
     max_index (ySize_ t) (y_index_of t pt) (num_spillover_steps_xy_ t))%Z /\
    (Z.max 1 (Z.min (zSize_ t - 2)
                (z_index_of t pt - num_spillover_steps_z_ t))
       <= zs <=
     Z.max 1 (Z.min (zSize_ t - 2)
                (z_index_of t pt + num_spillover_steps_z_ t)))%Z.
Proof.
  unfold writes_general. rewrite in_flat_map. split.
  - intros (xs & Hxs & H). apply in_flat_map in H as (ys & Hys & H).
    apply in_map_iff in H as (zs & E & Hzs). inversion E; subst.
    apply In_Zrange in Hxs, Hys, Hzs. exists xs, ys, zs. auto 10.
  - intros (xs & ys & zs & -> & -> & -> & -> & Hxs & Hys & Hzs).
    exists xs. split; [now apply In_Zrange|].
    apply in_flat_map. exists ys. split; [now apply In_Zrange|].
    apply in_map_iff. exists zs. split; [reflexivity | now apply In_Zrange].
Qed.

Lemma In_writes_unit_z (t : DensityGridTracker) (pt : PointXYZRGB)
    (c : cell) (i j k : Z) :
  In (c, (i, j, k)) (writes_unit_z t pt) <->
  exists xs ys,
    i = Z.abs (x_index_of t pt - xs) /\
    j = Z.abs (y_index_of t pt - ys) /\
    (min_index (xSize_ t) (x_index_of t pt) (num_spillover_steps_xy_ t)
       <= xs <=
     max_index (xSize_ t) (x_index_of t pt) (num_spillover_steps_xy_ t))%Z /\
    (min_index (ySize_ t) (y_index_of t pt) (num_spillover_steps_xy_ t)
       <= ys <=
     max_index (ySize_ t) (y_index_of t pt) (num_spillover_steps_xy_ t))%Z /\
    ((c = (xs, ys, clamp_interior (zSize_ t) (z_index_of t pt)) /\ k = 0%Z) \/
     (c = (xs, ys, Z.min (clamp_interior (zSize_ t) (z_index_of t pt) + 1)
                     (zSize_ t - 2)) /\ k = 1%Z) \/
     (c = (xs, ys, Z.max 1 (clamp_interior (zSize_ t) (z_index_of t pt) - 1))
      /\ k = 1%Z)).
Proof.
  unfold writes_unit_z, clamp_interior. rewrite in_flat_map. split.
  - intros (xs & Hxs & H). apply in_flat_map in H as (ys & Hys & H).
    apply In_Zrange in Hxs, Hys. exists xs, ys.
    simpl in H. destruct H as [E|[E|[E|[]]]]; inversion E; subst; auto 10.
  - intros (xs & ys & -> & -> & Hxs & Hys & H).
    exists xs. split; [now apply In_Zrange|].
    apply in_flat_map. exists ys. split; [now apply In_Zrange|].
    simpl. destruct H as [[-> ->]|[[-> ->]|[-> ->]]]; auto.
Qed.

(** One axis of a spillover window. *)
Lemma z_min_index (size i r : Z) :
  (3 <= size)%Z -> Z.max 1 (Z.min (size - 2) (i - r)) = min_index size i r.
Proof. unfold min_index. lia. Qed.

Lemma axis_own_in_window (size i r : Z) :
  (3 <= size)%Z -> (0 <= r)%Z ->
  (min_index size i r <= clamp_interior size i <= max_index size i r)%Z.
Proof. unfold min_index, max_index, clamp_interior. lia. Qed.

Lemma axis_window_interior (size i r xs : Z) :
  (3 <= size)%Z ->
  (min_index size i r <= xs <= max_index size i r)%Z ->
  (1 <= xs <= size - 2)%Z.
Proof. unfold min_index, max_index. lia. Qed.

Lemma axis_own_nearest (size i r xs : Z) :
  (3 <= size)%Z ->
  (min_index size i r <= xs <= max_index size i r)%Z ->
  (0 <= Z.abs (i - clamp_interior size i) <= Z.abs (i - xs))%Z.
Proof.
  intros Hs Hxs. pose proof (axis_window_interior size i r xs Hs Hxs).
  unfold clamp_interior. lia.
Qed.

Lemma axis_window_radius (size i r xs : Z) :
  (1 <= i <= size - 2)%Z -> (0 <= r)%Z ->
  (min_index size i r <= xs <= max_index size i r)%Z ->
  (0 <= Z.abs (i - xs) <= r)%Z.
Proof. unfold min_index, max_index. lia. Qed.

Lemma clamp_interior_bounds (size i : Z) :
  (3 <= size)%Z -> (1 <= clamp_interior size i <= size - 2)%Z.
Proof. unfold clamp_interior. lia. Qed.

Lemma clamp_interior_id (size i : Z) :
  (1 <= i <= size - 2)%Z -> clamp_interior size i = i.
Proof. unfold clamp_interior. lia. Qed.

(** The own cell of a point is a target of its updates, at the smallest
    table index of the window. *)
Lemma own_cell_is_written (t : DensityGridTracker) (pt : PointXYZRGB) :
  (3 <= xSize_ t)%Z -> (3 <= ySize_ t)%Z -> (3 <= zSize_ t)%Z ->
  (0 <= num_spillover_steps_xy_ t)%Z -> (0 <= num_spillover_steps_z_ t)%Z ->
  In (own_cell t pt, own_index t pt) (writes_of t pt).
Proof.
  intros Hx Hy Hz Hrxy Hrz. unfold own_cell, own_index, writes_of.
  pose proof (axis_own_in_window (xSize_ t) (x_index_of t pt) _ Hx Hrxy).
  pose proof (axis_own_in_window (ySize_ t) (y_index_of t pt) _ Hy Hrxy).
  pose proof (axis_own_in_window (zSize_ t) (z_index_of t pt) _ Hz Hrz).
  destruct (1 <? num_spillover_steps_z_ t)%Z.
  - apply In_writes_general.
    exists (clamp_interior (xSize_ t) (x_index_of t pt)),
           (clamp_interior (ySize_ t) (y_index_of t pt)),
           (clamp_interior (zSize_ t) (z_index_of t pt)).
    rewrite z_min_index by assumption. fold (max_index (zSize_ t)
      (z_index_of t pt) (num_spillover_steps_z_ t)).
    repeat split; tauto.
  - apply In_writes_unit_z.
    exists (clamp_interior (xSize_ t) (x_index_of t pt)),
           (clamp_interior (ySize_ t) (y_index_of t pt)).
    repeat split; tauto.
Qed.

Lemma own_index_least (t : DensityGridTracker) (pt : PointXYZRGB)
    (c : cell) (i j k : Z) :
  (3 <= xSize_ t)%Z -> (3 <= ySize_ t)%Z -> (3 <= zSize_ t)%Z ->
  In (c, (i, j, k)) (writes_of t pt) ->
  let '(i0, j0, k0) := own_index t pt in
  (0 <= i0 <= i /\ 0 <= j0 <= j /\ 0 <= k0 <= k)%Z.
Proof.
  intros Hx Hy Hz. unfold own_index, writes_of.
  destruct (1 <? num_spillover_steps_z_ t)%Z.
  - intros Hw. apply In_writes_general in Hw
      as (xs & ys & zs & -> & -> & -> & -> & Hxs & Hys & Hzs).
    rewrite z_min_index in Hzs by assumption.
    fold (max_index (zSize_ t) (z_index_of t pt) (num_spillover_steps_z_ t))
      in Hzs.
    pose proof (axis_own_nearest _ _ _ _ Hx Hxs).
    pose proof (axis_own_nearest _ _ _ _ Hy Hys).
    pose proof (axis_own_nearest _ _ _ _ Hz Hzs).
    tauto.
  - intros Hw. apply In_writes_unit_z in Hw
      as (xs & ys & -> & -> & Hxs & Hys & Hk).
    pose proof (axis_own_nearest _ _ _ _ Hx Hxs).
    pose proof (axis_own_nearest _ _ _ _ Hy Hys).
    assert (0 <= 0 <= k)%Z by (destruct Hk as [[_ ->]|[[_ ->]|[_ ->]]]; lia).
    tauto.
Qed.

(** The updates of a point whose indices lie in the interior stay inside
    the grid and inside the table. *)
Lemma writes_in_bounds (t : DensityGridTracker) (pt : PointXYZRGB)
    (c : cell) (i j k : Z) :
  sized t -> in_interior t pt ->
  In (c, (i, j, k)) (writes_of t pt) ->
  allocated c = true /\ in_table t i j k = true.
Proof.
  intros [(Ex & Ey & Ez) (Dx & Dy & Dz) Hrxy Hrz _ _ _] (Ix & Iy & Iz).
  assert (Hx : (3 <= xSize_ t)%Z) by lia.
  assert (Hy : (3 <= ySize_ t)%Z) by lia.
  assert (Hz : (3 <= zSize_ t)%Z) by lia.
  assert (Hrxy0 : (0 <= num_spillover_steps_xy_ t)%Z) by lia.
  assert (Hrz0 : (0 <= num_spillover_steps_z_ t)%Z) by lia.
  unfold writes_of. destruct (Z.ltb_spec 1 (num_spillover_steps_z_ t)).
  - intros Hw. apply In_writes_general in Hw
      as (xs & ys & zs & -> & -> & -> & -> & Hxs & Hys & Hzs).
    rewrite z_min_index in Hzs by assumption.
    fold (max_index (zSize_ t) (z_index_of t pt) (num_spillover_steps_z_ t))
      in Hzs.
    pose proof (axis_window_interior _ _ _ _ Hx Hxs).
    pose proof (axis_window_interior _ _ _ _ Hy Hys).
    pose proof (axis_window_interior _ _ _ _ Hz Hzs).
    pose proof (axis_window_radius _ _ _ _ Ix Hrxy0 Hxs).
    pose proof (axis_window_radius _ _ _ _ Iy Hrxy0 Hys).
    pose proof (axis_window_radius _ _ _ _ Iz Hrz0 Hzs).
    rewrite allocated_spec, in_table_spec. clear Hxs Hys Hzs. lia.
  - intros Hw. apply In_writes_unit_z in Hw
      as (xs & ys & -> & -> & Hxs & Hys & Hk).
    pose proof (axis_window_interior _ _ _ _ Hx Hxs).
    pose proof (axis_window_interior _ _ _ _ Hy Hys).
    pose proof (axis_window_radius _ _ _ _ Ix Hrxy0 Hxs).
    pose proof (axis_window_radius _ _ _ _ Iy Hrxy0 Hys).
    pose proof (clamp_interior_bounds (zSize_ t) (z_index_of t pt) Hz).
    clear Hxs Hys.
    destruct Hk as [[-> ->]|[[-> ->]|[-> ->]]];
      rewrite allocated_spec, in_table_spec; lia.
Qed.


Lemma In_all_writes (t : DensityGridTracker) (points : PointCloud)
    (w : write) :
  In w (all_writes t points) <->
  exists pt, In pt points /\ In w (writes_of t pt).
Proof. unfold all_writes. apply in_flat_map. Qed.

(** Grid construction completes when the indices of every point lie in the
    interior of the used extent. *)
Lemma computeDensityGrid_succeeds (t : DensityGridTracker)
    (points : PointCloud) :
  sized t -> (forall pt, In pt points -> in_interior t pt) ->
  exists t', computeDensityGrid t points = Ok t'.
Proof.
  intros Hs Hint. rewrite computeDensityGrid_writes.
  destruct (make_spillovers_ok t) as [tbl Htbl].
  { pose proof (sized_radius_xy t Hs). lia. }
  { pose proof (sized_radius_z t Hs). lia. }
  rewrite Htbl. simpl.
  destruct (apply_writes_succeeds tbl (all_writes t points) (density_grid_ t))
    as [g Hg].
  - intros c i j k Hin. apply In_all_writes in Hin as (pt & Hpt & Hw).
    destruct (writes_in_bounds t pt c i j k Hs (Hint pt Hpt) Hw) as [Hc Ht].
    split; [assumption|].
    rewrite (spillovers_get_spec t tbl i j k Htbl), Ht. eauto.
  - rewrite Hg. simpl. eauto.
Qed.

(** Below the maxima of the axes, grid construction after sizing
    completes. *)
Lemma computeDensityGrid_succeeds_below_maxima (t0 : DensityGridTracker)
    (prev : PointCloud) (xy zs d dsf : R) :
  0 < xy -> 0 < zs -> prev <> [] ->
  let t := computeDensityGridSize t0 prev xy zs d dsf in
  (xSize_ t < kMaxXSize)%Z -> (ySize_ t < kMaxYSize)%Z ->
  (zSize_ t < kMaxZSize)%Z ->
  exists t', computeDensityGrid t prev = Ok t'.
Proof.
  intros Hxy Hzs Hne t Hx Hy Hz.
  destruct prev as [|p0 prev0]; [congruence|].
  apply computeDensityGrid_succeeds.
  - now apply (computeDensityGridSize_sized t0 (p0 :: prev0) xy zs d dsf p0
                 Hxy Hzs (or_introl eq_refl)).
  - intros pt Hpt.
    destruct (computeDensityGridSize_sized t0 (p0 :: prev0) xy zs d dsf pt
                Hxy Hzs Hpt) as (_ & (Lx & Ly & Lz) & (Ux & Uy & Uz)).
    fold t in Lx, Ly, Lz, Ux, Uy, Uz. unfold in_interior.
    specialize (Ux Hx). specialize (Uy Hy). specialize (Uz Hz). lia.
Qed.

(** ** C9: the background value *)

Lemma used_extent_reset (t0 : DensityGridTracker) (prev : PointCloud)
    (xy zs d dsf : R) (c : cell) :
  used_extent (computeDensityGridSize t0 prev xy zs d dsf) c = true ->
  density_grid_ (computeDensityGridSize t0 prev xy zs d dsf) c
  = ln kSmoothingFactor.
Proof. intros H. now rewrite computeDensityGridSize_grid, H. Qed.


(** ** A frame with one previous point *)

Lemma FLT_MAX_pos : 0 < FLT_MAX.
Proof.
  unfold FLT_MAX. apply Rmult_lt_0_compat.
  - assert (/ 2 ^ 23 <= 1); [|lra].
    rewrite <- Rinv_1. apply Rinv_le_contravar; [lra|].
    apply pow_R1_Rle. lra.
  - apply pow_lt. lra.
Qed.

Lemma dmin_FLT_MAX (r : R) : r < FLT_MAX -> dmin FLT_MAX r = r.
Proof. intros H. unfold dmin. destruct (Rlt_dec r FLT_MAX); lra. Qed.

Lemma dmax_FLT_MAX (r : R) : - FLT_MAX < r -> dmax (- FLT_MAX) r = r.
Proof. intros H. unfold dmax. destruct (Rlt_dec (- FLT_MAX) r); lra. Qed.

Lemma one_point_box :
  getMinMax3D one_point_scan = (mkPoint 0 0 0, mkPoint 0 0 0).
Proof.
  pose proof FLT_MAX_pos.
  unfold getMinMax3D, one_point_scan, minmax_step. simpl.
  rewrite dmin_FLT_MAX, dmax_FLT_MAX by lra. reflexivity.
Qed.

Lemma one_point_dims :
  xSize_ one_point_tracker = 5%Z /\ ySize_ one_point_tracker = 5%Z /\
  zSize_ one_point_tracker = 5%Z.
Proof.
  destruct (computeDensityGridSize_geometry DensityGridTracker_new
              one_point_scan 1 1 20 1 (mkPoint 0 0 0))
    as (_ & _ & _ & Sx & Sy & Sz).
  fold one_point_tracker in Sx, Sy, Sz.
  rewrite one_point_box in Sx, Sy, Sz.
  cbn [fst snd pt_x pt_y pt_z] in Sx, Sy, Sz.
  rewrite to_int_ceil in Sx, Sy, Sz.
  rewrite (Zceil_eq 5) in Sx, Sy by lra.
  rewrite (Zceil_eq 5) in Sz.
  - now rewrite Sx, Sy, Sz.
  - replace (1 - (0 - 0)) with 1 by lra. rewrite Rabs_R1. lra.
Qed.

Lemma one_point_succeeds :
  exists t', computeDensityGrid one_point_tracker one_point_scan = Ok t'.
Proof.
  destruct one_point_dims as (Sx & Sy & Sz).
  apply computeDensityGrid_succeeds_below_maxima; try lra.
  - discriminate.
  - fold one_point_tracker. rewrite Sx. reflexivity.
  - fold one_point_tracker. rewrite Sy. reflexivity.
  - fold one_point_tracker. rewrite Sz. reflexivity.
Qed.


(** ** C4: the own cell of a point *)

(** C4.  Every update of a cell stores the maximum of the cell's value and
    the spillover value.  Hence, after the construction for positive
    steps, the cell of an inserted point, clamped to the interior, holds at
    least [log(kSmoothingFactor)] and at least every spillover value that
    the updates of that point read, at any offset of its window. *)
Theorem own_cell_holds_the_maximum (t0 : DensityGridTracker)
    (prev : PointCloud) (xy zs d dsf : R) (t' : DensityGridTracker)
    (pt : PointXYZRGB) :
  0 < xy -> 0 < zs -> In pt prev ->
  let t := computeDensityGridSize t0 prev xy zs d dsf in
  computeDensityGrid t prev = Ok t' ->
  (forall g g' c v, max_update g c v = Ok g' -> g' c = Rmax (g c) v) /\
  ln kSmoothingFactor <= density_grid_ t' (own_cell t pt) /\
  forall c i j k,
    In (c, (i, j, k)) (writes_of t pt) ->
    spillover_value t i j k <= density_grid_ t' (own_cell t pt).
Proof.
  intros Hxy Hzs Hin t Hrun.
  destruct (computeDensityGridSize_sized t0 prev xy zs d dsf pt Hxy Hzs Hin)
    as (Hs & _ & _).
  fold t in Hs.
  destruct Hs as [(Ex & Ey & Ez) (Dx & Dy & Dz) Hrxy Hrz Hsxy Hsz Hmd].
  assert (Hx : (3 <= xSize_ t)%Z) by lia.
  assert (Hy : (3 <= ySize_ t)%Z) by lia.
  assert (Hz : (3 <= zSize_ t)%Z) by lia.
  apply computeDensityGrid_inv in Hrun as (tbl & g & Htbl & Hg & ->).
  cbn [set_density_grid density_grid_].
  assert (Hown : In (own_cell t pt, own_index t pt) (all_writes t prev)).
  { apply In_all_writes. exists pt. split; [assumption|].
    apply own_cell_is_written; lia. }
  assert (Hlow : forall i0 j0 k0, own_index t pt = (i0, j0, k0) ->
                   spillover_value t i0 j0 k0 <= g (own_cell t pt)).
  { intros i0 j0 k0 E. rewrite E in Hown.
    destruct (apply_writes_reads _ _ _ _ _ _ _ _ Hg Hown) as [v Hv].
    pose proof (apply_writes_lower _ _ _ _ _ _ _ _ _ Hown Hv Hg) as Hle.
    rewrite (spillovers_get_spec t tbl _ _ _ Htbl) in Hv.
    destruct (in_table t i0 j0 k0); [|discriminate].
    inversion Hv; subst v. exact Hle. }
  split; [|split].
  - intros g0 g1 c v H. apply max_update_spec in H as (_ & H & _).
    now rewrite H, dmax_Rmax.
  - assert (Hc : used_extent t (own_cell t pt) = true).
    { unfold used_extent, own_cell. apply in_extent_spec.
      pose proof (clamp_interior_bounds (xSize_ t) (x_index_of t pt) Hx).
      pose proof (clamp_interior_bounds (ySize_ t) (y_index_of t pt) Hy).
      pose proof (clamp_interior_bounds (zSize_ t) (z_index_of t pt) Hz).
      lia. }
    rewrite <- (used_extent_reset t0 prev xy zs d dsf _ Hc). fold t.
    eapply apply_writes_raises; eauto.
  - intros c i j k Hw.
    pose proof (own_index_least t pt c i j k Hx Hy Hz Hw) as Hleast.
    destruct (own_index t pt) as [[i0 j0] k0] eqn:E.
    apply Rle_trans with (spillover_value t i0 j0 k0).
    + apply spillover_value_mono; try assumption; try tauto.
      rewrite Hmd. unfold kSmoothingFactor. lra.
    + now apply Hlow.
Qed.

Lemma own_cell_holds_the_maximum_witness :
  exists t',
    computeDensityGrid one_point_tracker one_point_scan = Ok t' /\
    ln kSmoothingFactor
      <= density_grid_ t' (own_cell one_point_tracker (mkPoint 0 0 0)) /\
    forall c i j k,
      In (c, (i, j, k)) (writes_of one_point_tracker (mkPoint 0 0 0)) ->
      spillover_value one_point_tracker i j k
        <= density_grid_ t' (own_cell one_point_tracker (mkPoint 0 0 0)).
Proof.
  destruct one_point_succeeds as [t' Ht'].
  exists t'. split; [exact Ht'|].
  apply (own_cell_holds_the_maximum DensityGridTracker_new one_point_scan
           1 1 20 1 t' (mkPoint 0 0 0));
    [lra | lra | now left | exact Ht'].
Defined.

(** ** C3: a scan wider than the maximum of an axis *)

Lemma Zceil_lower (x : R) (n : Z) : IZR n <= x -> (n <= Zceil x)%Z.
Proof.
  intros H. rewrite <- (Zceil_eq n (IZR n)) at 1 by lra. now apply Zceil_le.
Qed.

Lemma dimension_clamped (kMax : Z) (lo hi step pad : R) :
  (1 <= kMax)%Z -> 0 < step -> 0 <= pad -> IZR kMax * step < hi - lo ->
  Z.min kMax (Z.max 1 (to_int (ceil
    ((hi + 2 * step - (lo - (2 * step + pad))) / step)))) = kMax.
Proof.
  intros Hk Hstep Hpad Hspan. rewrite to_int_ceil.
  assert (kMax <= Zceil ((hi + 2 * step - (lo - (2 * step + pad))) / step))%Z;
    [|lia].
  apply Zceil_lower. apply (Rmult_le_reg_r step); [assumption|].
  unfold Rdiv. rewrite Rmult_assoc, Rinv_l by lra. lra.
Qed.

(** Sizing clamps: a previous scan that spans more than the maximum of an
    axis times the step gets that dimension set to the maximum. *)
Lemma sizing_clamps_to_maximum (t : DensityGridTracker) (prev : PointCloud)
    (xy zs d dsf : R) (p q : PointXYZRGB) :
  0 < xy -> 0 < zs -> In p prev -> In q prev ->
  let t' := computeDensityGridSize t prev xy zs d dsf in
  (IZR kMaxXSize * xy < pt_x q - pt_x p -> xSize_ t' = kMaxXSize) /\
  (IZR kMaxYSize * xy < pt_y q - pt_y p -> ySize_ t' = kMaxYSize) /\
  (IZR kMaxZSize * zs < pt_z q - pt_z p -> zSize_ t' = kMaxZSize).
Proof.
  intros Hxy Hzs Hp Hq t'.
  destruct (computeDensityGridSize_geometry t prev xy zs d dsf p)
    as (_ & _ & _ & Sx & Sy & Sz).
  fold t' in Sx, Sy, Sz.
  destruct (getMinMax3D_bounds prev p Hp) as (Px & Py & Pz).
  destruct (getMinMax3D_bounds prev q Hq) as (Qx & Qy & Qz).
  pose proof (Rabs_pos (zs - (pt_z (snd (getMinMax3D prev))
                              - pt_z (fst (getMinMax3D prev))))) as Hpad.
  destruct kMax_values as (Kx & Ky & Kz).
  rewrite Sx, Sy, Sz. repeat split; intros Hspan;
    apply dimension_clamped; try lra;
    rewrite ?Kx, ?Ky, ?Kz; lia.
Qed.

(** A point whose own table index lies outside the table makes the
    construction read the table out of bounds. *)
Lemma computeDensityGrid_out_of_bounds (t : DensityGridTracker)
    (points : PointCloud) (pt : PointXYZRGB) :
  sized t -> In pt points ->
  (let '(i, j, k) := own_index t pt in in_table t i j k) = false ->
  computeDensityGrid t points = Fault OutOfBounds.
Proof.
  intros Hs Hin Hout.
  destruct Hs as [(Ex & Ey & Ez) (Dx & Dy & Dz) Hrxy Hrz _ _ _].
  rewrite computeDensityGrid_writes.
  destruct (make_spillovers_ok t) as [tbl Htbl]; [lia | lia |].
  rewrite Htbl. simpl.
  assert (Hown : In (own_cell t pt, own_index t pt) (all_writes t points)).
  { apply In_all_writes. exists pt. split; [assumption|].
    apply own_cell_is_written; lia. }
  destruct (own_index t pt) as [[i j] k].
  rewrite (apply_writes_out_of_bounds tbl _ _ _ i j k Hown); [reflexivity|].
  now rewrite (spillovers_get_spec t tbl i j k Htbl), Hout.
Qed.

Lemma point_index_ge (c step off : R) (n : Z) :
  IZR n <= c / step + off -> (n <= point_index c step off)%Z.
Proof.
  intros H. unfold point_index.
  assert (E : to_int (round (IZR n)) = n).
  { rewrite (round_near (IZR n) n) by lra. apply to_int_IZR. }
  rewrite <- E at 1. now apply to_int_le, round_le.
Qed.

(** The tangent of the angular resolution of the sensor. *)
Lemma tan_resolution_bounds : 0 < tan (0.18 / 2.0 * pi / 180.0) < 1.
Proof.
  unfold pi. pose proof PI_RGT_0 as Hpi.
  assert (H0 : 0 < 0.18 / 2.0 * PI / 180.0) by lra.
  assert (H1 : 0.18 / 2.0 * PI / 180.0 < PI / 4) by lra.
  split.
  - apply tan_gt_0; lra.
  - rewrite <- tan_PI4. apply tan_increasing; lra.
Qed.

(** A bound on the horizontal spillover radius for a step of 1 at a
    distance of 20. *)
Lemma radius_xy_at_20 (t0 : DensityGridTracker) (prev : PointCloud) (zs : R) :
  (num_spillover_steps_xy_ (computeDensityGridSize t0 prev 1 zs 20 1) <= 41)%Z.
Proof.
  sizing_unfold. rewrite to_int_ceil.
  rewrite <- (Zceil_eq 41 41) by lra. apply Zceil_le.
  assert (Hs : sigma_xy 1 20 1 <= 21).
  { unfold sigma_xy, velodyne_horizontal_res, kSigmaGridFactor, kSigmaFactor,
      kMinMeasurementVariance.
    destruct tan_resolution_bounds as [Hlo Hhi].
    set (tn := tan (0.18 / 2.0 * pi / 180.0)) in *.
    rewrite <- (sqrt_pow2 21) by lra. apply sqrt_le_1_alt. nra. }
  unfold kSpilloverRadius. lra.
Qed.

Lemma wide_scan_first : In (mkPoint 0 0 0) wide_scan.
Proof.
  unfold wide_scan. apply in_map_iff. exists 0%nat. split.
  - simpl. f_equal. lra.
  - apply in_seq. lia.
Qed.

Lemma wide_scan_last : In (mkPoint 1998 0 0) wide_scan.
Proof.
  unfold wide_scan. apply in_map_iff. exists 999%nat. split.
  - f_equal. rewrite INR_IZR_INZ.
    change (Z.of_nat 999) with 999%Z. lra.
  - apply in_seq. lia.
Qed.

Lemma wide_scan_box :
  pt_x (fst (getMinMax3D wide_scan)) <= 0 /\
  1998 <= pt_x (snd (getMinMax3D wide_scan)).
Proof.
  destruct (getMinMax3D_bounds wide_scan _ wide_scan_first) as ([H _] & _).
  destruct (getMinMax3D_bounds wide_scan _ wide_scan_last) as ([_ H'] & _).
  cbn [pt_x] in H, H'. split; assumption.
Qed.

Lemma wide_tracker_sized : sized wide_tracker.
Proof.
  refine (proj1 (computeDensityGridSize_sized DensityGridTracker_new wide_scan
                   1 1 20 1 (mkPoint 1998 0 0) _ _ wide_scan_last)); lra.
Qed.

Lemma wide_tracker_radius : (num_spillover_steps_xy_ wide_tracker <= 41)%Z.
Proof. exact (radius_xy_at_20 DensityGridTracker_new wide_scan 1). Qed.

Lemma wide_tracker_geometry :
  x_index_of wide_tracker (mkPoint 1998 0 0) =
    point_index 1998 1
      (- (pt_x (fst (getMinMax3D wide_scan)) - (2 * 1 + 0.0001)) / 1) /\
  xSize_ wide_tracker =
    Z.min kMaxXSize (Z.max 1 (to_int (ceil
      ((pt_x (snd (getMinMax3D wide_scan)) + 2 * 1
        - (pt_x (fst (getMinMax3D wide_scan)) - (2 * 1 + 0.0001))) / 1)))).
Proof.
  destruct (computeDensityGridSize_geometry DensityGridTracker_new wide_scan
              1 1 20 1 (mkPoint 1998 0 0)) as (Ex & _ & _ & Sx & _ & _).
  split; [exact Ex | exact Sx].
Qed.

(** C3 fails on the code.  For a previous scan of 1000 points that spans
    1998 steps along x, sizing clamps the x dimension to its maximum of
    1000, and the spillover pass then reads the spillover table out of
    bounds: the index of the last point is more than the spillover radius
    away from the interior cell it is clamped to. *)
Theorem wide_scan_reads_out_of_bounds :
  length wide_scan = 1000%nat /\
  xSize_ wide_tracker = kMaxXSize /\
  (x_index_of wide_tracker (mkPoint 1998 0 0)
   - clamp_interior (xSize_ wide_tracker)
       (x_index_of wide_tracker (mkPoint 1998 0 0))
   > num_spillover_steps_xy_ wide_tracker)%Z /\
  computeDensityGrid wide_tracker wide_scan = Fault OutOfBounds.
Proof.
  destruct wide_scan_box as [Hmin Hmax].
  destruct wide_tracker_geometry as (Ex & Sx).
  pose proof wide_tracker_radius as Hr.
  pose proof wide_tracker_sized as Hs.
  assert (Hsize : xSize_ wide_tracker = 1000%Z).
  { rewrite Sx, to_int_ceil.
    assert (1000 <= Zceil ((pt_x (snd (getMinMax3D wide_scan)) + 2 * 1
              - (pt_x (fst (getMinMax3D wide_scan)) - (2 * 1 + 0.0001))) / 1))%Z.
    { rewrite <- (Zceil_eq 1000 1000) at 1 by lra. apply Zceil_le. lra. }
    destruct kMax_values as (-> & _ & _). lia. }
  assert (Hidx : (2000 <= x_index_of wide_tracker (mkPoint 1998 0 0))%Z).
  { rewrite Ex. apply point_index_ge. lra. }
  assert (Hfar :
    (x_index_of wide_tracker (mkPoint 1998 0 0)
     - clamp_interior (xSize_ wide_tracker)
         (x_index_of wide_tracker (mkPoint 1998 0 0))
     > num_spillover_steps_xy_ wide_tracker)%Z).
  { rewrite Hsize. unfold clamp_interior. lia. }
  split; [|split; [|split]].
  - unfold wide_scan. now rewrite length_map, length_seq.
  - rewrite Hsize. reflexivity.
  - exact Hfar.
  - apply (computeDensityGrid_out_of_bounds wide_tracker wide_scan
             (mkPoint 1998 0 0) Hs wide_scan_last).
    unfold own_index, in_table.
    destruct (Z.leb_spec
      (Z.abs (x_index_of wide_tracker (mkPoint 1998 0 0)
              - clamp_interior (xSize_ wide_tracker)
                  (x_index_of wide_tracker (mkPoint 1998 0 0))))
      (num_spillover_steps_xy_ wide_tracker)) as [Hle|_].
    + lia.
    + now rewrite andb_false_r.
Qed.

(** ** C2: the branch for a spill of one cell in z *)

Lemma Zceil_upper (x : R) (n : Z) : x <= IZR n -> (Zceil x <= n)%Z.
Proof.
  intros H. rewrite <- (Zceil_eq n (IZR n)) by lra. now apply Zceil_le.
Qed.

Lemma tan_resolution_small : 0 < tan (0.18 / 2.0 * pi / 180.0) < 0.004.
Proof.
  split; [apply tan_resolution_bounds|].
  unfold pi. pose proof PI_RGT_0 as Hpi. pose proof PI_4 as Hpi4.
  set (x := 0.18 / 2.0 * PI / 180.0).
  assert (H0 : 0 < x) by (unfold x; lra).
  assert (H1 : x <= 0.002) by (unfold x; lra).
  assert (H2 : x < PI / 3) by (unfold x; lra).
  assert (Hcos : 1 / 2 < cos x).
  { rewrite <- cos_PI3. apply cos_decreasing_1; lra. }
  pose proof (sin_lt_x x H0) as Hsin.
  unfold tan, Rdiv. apply (Rmult_lt_reg_r (cos x)); [lra|].
  rewrite Rmult_assoc, Rinv_l by lra. lra.
Qed.

Lemma sigma_z_at_20 : 0 < sigma_z 20 1 <= 1.
Proof.
  split; [apply sigma_z_pos|].
  unfold sigma_z, velodyne_vertical_res, velodyne_horizontal_res,
    kSigmaFactor, kMinMeasurementVariance.
  destruct tan_resolution_small as [Hlo Hhi].
  set (tn := tan (0.18 / 2.0 * pi / 180.0)) in *.
  rewrite <- sqrt_1 at 2. apply sqrt_le_1_alt. nra.
Qed.

(** For a z step of 1 at a distance of 20 the z spillover radius is 1. *)
Lemma radius_z_at_20 (t0 : DensityGridTracker) (prev : PointCloud) (xy : R) :
  num_spillover_steps_z_ (computeDensityGridSize t0 prev xy 1 20 1) = 1%Z.
Proof.
  sizing_unfold. destruct sigma_z_at_20 as [Hlo Hhi].
  assert (Hc : ceil (kSpilloverRadius * sigma_z 20 1 / 1 - 1) <= 1).
  { unfold ceil. apply IZR_le. apply Zceil_upper.
    unfold kSpilloverRadius. lra. }
  unfold dmax. destruct (Rlt_dec 1.0 _) as [Hlt|_]; [lra|].
  replace 1.0 with (IZR 1) by lra. apply to_int_IZR.
Qed.

Lemma tall_scan_box :
  getMinMax3D tall_scan = (mkPoint 0 0 0, mkPoint 0 0 331.5).
Proof.
  pose proof FLT_MAX_pos.
  unfold getMinMax3D, tall_scan, minmax_step. simpl.
  rewrite !dmin_FLT_MAX, !dmax_FLT_MAX by lra.
  unfold dmin, dmax.
  destruct (Rlt_dec 0 0), (Rlt_dec 331.5 0), (Rlt_dec 0 331.5);
    try lra; reflexivity.
Qed.

Lemma tall_centering : Rabs (1 - (331.5 - 0)) / 2 = 165.25.
Proof. rewrite Rabs_left by lra. lra. Qed.

Lemma tall_tracker_sized : sized tall_tracker.
Proof.
  refine (proj1 (computeDensityGridSize_sized DensityGridTracker_new tall_scan
                   1 1 20 1 (mkPoint 0 0 0) _ _ _)); try lra. now left.
Qed.

Lemma tall_tracker_radius_z : num_spillover_steps_z_ tall_tracker = 1%Z.
Proof. exact (radius_z_at_20 DensityGridTracker_new tall_scan 1). Qed.

Lemma tall_tracker_dims :
  xSize_ tall_tracker = 5%Z /\ ySize_ tall_tracker = 5%Z /\
  zSize_ tall_tracker = 500%Z.
Proof.
  destruct (computeDensityGridSize_geometry DensityGridTracker_new
              tall_scan 1 1 20 1 (mkPoint 0 0 0))
    as (_ & _ & _ & Sx & Sy & Sz).
  rewrite tall_scan_box in Sx, Sy, Sz.
  cbn [fst snd pt_x pt_y pt_z] in Sx, Sy, Sz.
  rewrite tall_centering in Sz.
  rewrite to_int_ceil in Sx, Sy, Sz.
  rewrite (Zceil_eq 5) in Sx, Sy by lra.
  rewrite (Zceil_eq 501) in Sz by lra.
  unfold tall_tracker. rewrite Sx, Sy, Sz. repeat split.
Qed.

Lemma tall_tracker_indices (pt : PointXYZRGB) :
  In pt tall_scan ->
  x_index_of tall_tracker pt = 2%Z /\ y_index_of tall_tracker pt = 2%Z /\
  (pt = mkPoint 0 0 0 /\ z_index_of tall_tracker pt = 167%Z \/
   pt = mkPoint 0 0 331.5 /\ z_index_of tall_tracker pt = 499%Z).
Proof.
  intros Hin.
  destruct (computeDensityGridSize_geometry DensityGridTracker_new
              tall_scan 1 1 20 1 pt) as (Ex & Ey & Ez & _).
  rewrite tall_scan_box in Ex, Ey, Ez.
  cbn [fst snd pt_x pt_y pt_z] in Ex, Ey, Ez.
  rewrite tall_centering in Ez.
  unfold tall_tracker. rewrite Ex, Ey, Ez.
  destruct Hin as [<-|[<-|[]]]; cbn [pt_x pt_y pt_z].
  - repeat split; [apply index_near; lra | apply index_near; lra |].
    left. split; [reflexivity | apply index_near; lra].
  - repeat split; [apply index_near; lra | apply index_near; lra |].
    right. split; [reflexivity | apply index_near; lra].
Qed.

Lemma tall_window_xy (r xs : Z) :
  (1 <= r)%Z -> (min_index 5 2 r <= xs <= max_index 5 2 r)%Z ->
  (1 <= xs <= 3 /\ 0 <= Z.abs (2 - xs) <= r)%Z.
Proof. unfold min_index, max_index. lia. Qed.

(** The updates of the unit-z branch for the two points stay in bounds. *)
Lemma tall_unit_z_in_bounds (pt : PointXYZRGB) (c : cell) (i j k : Z) :
  In pt tall_scan -> In (c, (i, j, k)) (writes_unit_z tall_tracker pt) ->
  allocated c = true /\ in_table tall_tracker i j k = true.
Proof.
  intros Hpt Hw.
  destruct tall_tracker_dims as (Sx & Sy & Sz).
  destruct (tall_tracker_indices pt Hpt) as (Ix & Iy & Iz).
  pose proof (sized_radius_xy _ tall_tracker_sized) as Hrxy.
  pose proof tall_tracker_radius_z as Hrz.
  apply In_writes_unit_z in Hw as (xs & ys & -> & -> & Hxs & Hys & Hk).
  rewrite Sx, Ix in Hxs. rewrite Sy, Iy in Hys. rewrite Sz in Hk.
  rewrite Ix, Iy.
  pose proof (tall_window_xy _ _ Hrxy Hxs).
  pose proof (tall_window_xy _ _ Hrxy Hys).
  pose proof (clamp_interior_bounds 500 (z_index_of tall_tracker pt)
                ltac:(lia)).
  clear Hxs Hys Iz.
  destruct kMax_values as (Kx & Ky & Kz).
  destruct Hk as [[-> ->]|[[-> ->]|[-> ->]]];
    rewrite allocated_spec, in_table_spec, Hrz, Kx, Ky, Kz; lia.
Qed.

(** So do the updates of the three nested loops. *)
Lemma tall_general_in_bounds (pt : PointXYZRGB) (c : cell) (i j k : Z) :
  In pt tall_scan -> In (c, (i, j, k)) (writes_general tall_tracker pt) ->
  allocated c = true /\ in_table tall_tracker i j k = true.
Proof.
  intros Hpt Hw.
  destruct tall_tracker_dims as (Sx & Sy & Sz).
  destruct (tall_tracker_indices pt Hpt) as (Ix & Iy & Iz).
  pose proof (sized_radius_xy _ tall_tracker_sized) as Hrxy.
  pose proof tall_tracker_radius_z as Hrz.
  apply In_writes_general in Hw
    as (xs & ys & zs & -> & -> & -> & -> & Hxs & Hys & Hzs).
  rewrite Sx, Ix in Hxs. rewrite Sy, Iy in Hys. rewrite Sz, Hrz in Hzs.
  rewrite Ix, Iy.
  pose proof (tall_window_xy _ _ Hrxy Hxs).
  pose proof (tall_window_xy _ _ Hrxy Hys).
  clear Hxs Hys.
  destruct kMax_values as (Kx & Ky & Kz).
  rewrite allocated_spec, in_table_spec, Hrz, Kx, Ky, Kz.
  destruct Iz as [[_ Iz]|[_ Iz]]; rewrite Iz in *; lia.
Qed.

(** The updates of the three nested loops that target the cell
    [(2, 2, 498)] read the table at [(0, 0, 1)]. *)
Lemma tall_general_target (pt : PointXYZRGB) (i j k : Z) :
  In pt tall_scan ->
  In ((2, 2, 498)%Z, (i, j, k)) (writes_general tall_tracker pt) ->
  (i, j, k) = (0, 0, 1)%Z.
Proof.
  intros Hpt Hw.
  destruct tall_tracker_dims as (Sx & Sy & Sz).
  destruct (tall_tracker_indices pt Hpt) as (Ix & Iy & Iz).
  pose proof tall_tracker_radius_z as Hrz.
  apply In_writes_general in Hw
    as (xs & ys & zs & E & -> & -> & -> & _ & _ & Hzs).
  inversion E; subst xs ys zs. rewrite Sz, Hrz in Hzs. rewrite Ix, Iy.
  destruct Iz as [[_ Iz]|[_ Iz]]; rewrite Iz in *; [lia | reflexivity].
Qed.

(** The unit-z branch updates the cell [(2, 2, 498)] with the table entry
    at [(0, 0, 0)]. *)
Lemma tall_unit_z_target :
  In ((2, 2, 498)%Z, (0, 0, 0)%Z)
    (writes_unit_z tall_tracker (mkPoint 0 0 331.5)).
Proof.
  destruct tall_tracker_dims as (Sx & Sy & Sz).
  destruct (tall_tracker_indices (mkPoint 0 0 331.5)) as (Ix & Iy & Iz);
    [right; now left|].
  destruct Iz as [[E _]|[_ Iz]]; [inversion E; lra|].
  pose proof (sized_radius_xy _ tall_tracker_sized) as Hrxy.
  apply In_writes_unit_z. exists 2%Z, 2%Z.
  rewrite Sx, Sy, Sz, Ix, Iy, Iz.
  unfold min_index, max_index, clamp_interior.
  repeat split; try lia. left. split; reflexivity.
Qed.

Lemma spillover_value_above_background (t : DensityGridTracker) (i j k : Z) :
  0 < min_density_ t -> ln (min_density_ t) <= spillover_value t i j k.
Proof.
  intros Hmd. unfold spillover_value. apply ln_monotone; [assumption|].
  pose proof (exp_pos (IZR (i * i + j * j) * xy_exp_factor t
                       + IZR (k * k) * z_exp_factor t)). lra.
Qed.

(** One cell up or down the kernel is strictly lower than at the centre. *)
Lemma tall_kernel_strict :
  spillover_value tall_tracker 0 0 1 < spillover_value tall_tracker 0 0 0.
Proof.
  destruct tall_tracker_sized as [_ _ _ _ _ Hsz Hmd].
  destruct (computeDensityGridSize_steps DensityGridTracker_new tall_scan
              1 1 20 1) as (_ & Hzs & _).
  unfold spillover_value. rewrite Hmd. unfold kSmoothingFactor.
  assert (Hz : z_exp_factor tall_tracker < 0).
  { unfold z_exp_factor, tall_tracker. rewrite Hzs.
    fold tall_tracker.
    assert (0 < 2 * spillover_sigma_z_ tall_tracker ^ 2) by nra.
    assert (0 < 1 ^ 2 / (2 * spillover_sigma_z_ tall_tracker ^ 2)).
    { apply Rmult_lt_0_compat; [lra | now apply Rinv_0_lt_compat]. }
    unfold Rdiv in *. rewrite Rmult_assoc. lra. }
  change (0 * 0 + 0 * 0)%Z with 0%Z. change (1 * 1)%Z with 1%Z.
  change (0 * 0)%Z with 0%Z.
  apply ln_increasing.
  - pose proof (exp_pos (0 * xy_exp_factor tall_tracker
                         + 1 * z_exp_factor tall_tracker)). lra.
  - apply Rplus_lt_compat_r. apply exp_increasing. lra.
Qed.

(** C2 fails on the code.  For the two previous points [(0, 0, 0)] and
    [(0, 0, 331.5)] with steps of 1, the z spillover radius is 1 and the z
    dimension is clamped to its maximum of 500.  Both the unit-z branch
    and the three nested loops complete, and they leave different values
    in the cell [(2, 2, 498)]: the index 499 of the second point lies
    outside the interior, the unit-z branch writes the centre value of the
    kernel at the clamped cell, and the nested loops write the value one
    cell away. *)
Theorem unit_z_branch_differs_from_nested_loops :
  num_spillover_steps_z_ tall_tracker = 1%Z /\
  zSize_ tall_tracker = kMaxZSize /\
  exists tf tg,
    computeDensityGrid tall_tracker tall_scan = Ok tf /\
    computeDensityGrid_general tall_tracker tall_scan = Ok tg /\
    density_grid_ tg (2, 2, 498)%Z < density_grid_ tf (2, 2, 498)%Z.
Proof.
  pose proof tall_tracker_sized as Hs.
  pose proof tall_tracker_radius_z as Hrz.
  destruct tall_tracker_dims as (Sx & Sy & Sz).
  split; [exact Hrz|]. split; [rewrite Sz; reflexivity|].
  destruct (make_spillovers_ok tall_tracker) as [tbl Htbl].
  { pose proof (sized_radius_xy _ Hs). lia. }
  { lia. }
  assert (Hof : forall pt, writes_of tall_tracker pt
                           = writes_unit_z tall_tracker pt).
  { intros pt. unfold writes_of. now rewrite Hrz. }
  (* the unit-z branch completes *)
  destruct (apply_writes_succeeds tbl (all_writes tall_tracker tall_scan)
              (density_grid_ tall_tracker)) as [gf Hgf].
  { intros c i j k Hin. apply In_all_writes in Hin as (pt & Hpt & Hw).
    rewrite Hof in Hw.
    destruct (tall_unit_z_in_bounds pt c i j k Hpt Hw) as [Hc Ht].
    split; [assumption|].
    rewrite (spillovers_get_spec _ tbl i j k Htbl), Ht. eauto. }
  (* the nested loops complete *)
  destruct (apply_writes_succeeds tbl
              (flat_map (writes_general tall_tracker) tall_scan)
              (density_grid_ tall_tracker)) as [gg Hgg].
  { intros c i j k Hin. apply in_flat_map in Hin as (pt & Hpt & Hw).
    destruct (tall_general_in_bounds pt c i j k Hpt Hw) as [Hc Ht].
    split; [assumption|].
    rewrite (spillovers_get_spec _ tbl i j k Htbl), Ht. eauto. }
  exists (set_density_grid tall_tracker gf), (set_density_grid tall_tracker gg).
  split; [|split].
  - rewrite computeDensityGrid_writes, Htbl. cbn [bind]. now rewrite Hgf.
  - unfold computeDensityGrid_general.
    rewrite (build_grid_writes spill_general writes_general)
      by (intros; apply spill_general_writes).
    rewrite Htbl. cbn [bind]. now rewrite Hgg.
  - cbn [set_density_grid density_grid_].
    assert (Hmd : 0 < min_density_ tall_tracker).
    { rewrite (sized_min_density _ Hs). unfold kSmoothingFactor. lra. }
    apply Rle_lt_trans with (spillover_value tall_tracker 0 0 1);
      [|apply Rlt_le_trans with (spillover_value tall_tracker 0 0 0);
        [apply tall_kernel_strict|]].
    + refine (apply_writes_upper tbl _ _ _ _ _ _ _ Hgg).
      * assert (Hc : used_extent tall_tracker (2, 2, 498)%Z = true).
        { unfold used_extent. rewrite Sx, Sy, Sz. reflexivity. }
        unfold tall_tracker in Hc |- *.
        rewrite (used_extent_reset _ _ _ _ _ _ _ Hc).
        fold tall_tracker. rewrite <- (sized_min_density _ Hs).
        now apply spillover_value_above_background.
      * intros i j k v Hin Hv.
        apply in_flat_map in Hin as (pt & Hpt & Hw).
        apply (tall_general_target pt i j k Hpt) in Hw.
        inversion Hw; subst i j k.
        rewrite (spillovers_get_spec _ tbl _ _ _ Htbl) in Hv.
        destruct (in_table tall_tracker 0 0 1); [|discriminate].
        inversion Hv; subst v. lra.
    + apply (apply_writes_lower tbl (all_writes tall_tracker tall_scan)
               (density_grid_ tall_tracker) gf (2, 2, 498)%Z 0 0 0).
      * apply In_all_writes. exists (mkPoint 0 0 331.5).
        split; [right; now left|]. rewrite Hof. apply tall_unit_z_target.
      * rewrite (spillovers_get_spec _ tbl _ _ _ Htbl).
        assert (in_table tall_tracker 0 0 0 = true) as ->; [|reflexivity].
        apply in_table_spec. pose proof (sized_radius_xy _ Hs). lia.
      * exact Hgf.
Qed.

(** ** C6 and C8: the candidate generator *)

(** A step that advances leaves the range after finitely many additions:
    from then on, more fuel lists no more values. *)
Lemma stepping_stable (first last step : R) :
  0 < step -> step_advances first last step ->
  forall (k : nat) (x : R) (n : nat),
    first <= x -> last - x < INR k * (step / 2) -> (k <= n)%nat ->
    stepping n x last step = stepping k x last step.
Proof.
  intros Hs Hadv. induction k as [|k IH]; intros x n Hx Hk Hn.
  - simpl in Hk. destruct n as [|n]; [reflexivity|]. simpl.
    destruct (Rle_dec x last); [lra | reflexivity].
  - destruct n as [|n]; [lia|]. simpl.
    destruct (Rle_dec x last) as [Hle|Hgt]; [|reflexivity].
    pose proof (Hadv x (conj Hx Hle)) as Hnext.
    rewrite S_INR in Hk. f_equal. apply IH; [lra | lra | lia].
Qed.

Lemma lattice_bound_covers (first last step : R) :
  0 < step ->
  last - first < INR (lattice_bound first last step) * (step / 2).
Proof.
  intros Hs. unfold lattice_bound. rewrite S_INR, INR_IZR_INZ.
  pose proof (Zfloor_bound (2 * (last - first) / step)) as [_ Hq].
  assert (Hz : IZR (Zfloor (2 * (last - first) / step))
               <= IZR (Z.of_nat
                         (Z.to_nat (Zfloor (2 * (last - first) / step)))))
    by (apply IZR_le; lia).
  assert (E : last - first = 2 * (last - first) / step * (step / 2))
    by (field; lra).
  rewrite E at 1. apply Rmult_lt_compat_r; lra.
Qed.

Lemma stepping_lattice_points (first last step : R) (n : nat) :
  0 < step -> step_advances first last step ->
  (lattice_bound first last step <= n)%nat ->
  stepping n first last step = lattice_points first last step.
Proof.
  intros Hs Hadv Hn. unfold lattice_points.
  apply (stepping_stable first last step Hs Hadv); [lra | | assumption].
  now apply lattice_bound_covers.
Qed.

(** The lattice is what the loop counter runs through: the first value of
    the range, then the lattice from the rounded sum of that value and
    the step, as long as the value is not above the end of the range. *)
Lemma lattice_points_step (first last step : R) :
  0 < step -> step_advances first last step -> first <= last ->
  lattice_points first last step
  = first :: lattice_points (double_add first step) last step.
Proof.
  intros Hs Hadv Hle.
  pose proof (Hadv first (conj (Rle_refl _) Hle)) as Hnext.
  unfold lattice_points at 1. unfold lattice_bound at 1. cbn [stepping].
  destruct (Rle_dec first last); [|lra]. f_equal.
  set (x' := double_add first step) in *.
  destruct (Rle_dec x' last) as [Hin|Hout].
  - unfold lattice_points.
    apply (stepping_stable first last step Hs Hadv); [lra | |].
    + now apply lattice_bound_covers.
    + unfold lattice_bound.
      assert (Hq : 0 <= 2 * (last - x') / step).
      { apply Rmult_le_pos; [lra | left; now apply Rinv_0_lt_compat]. }
      assert (H0 : (0 <= Zfloor (2 * (last - x') / step))%Z)
        by (apply Zfloor_lub; simpl; lra).
      assert (H1 : (Zfloor (2 * (last - x') / step) + 1
                    <= Zfloor (2 * (last - first) / step))%Z).
      { rewrite <- Zfloor_addz. apply Zfloor_le.
        apply (Rmult_le_reg_r step); [lra|].
        rewrite Rmult_plus_distr_r. unfold Rdiv.
        rewrite !Rmult_assoc, Rinv_l by lra. lra. }
      lia.
  - assert (E : forall n, stepping n x' last step = []).
    { intros [|n]; [reflexivity|]. simpl.
      destruct (Rle_dec x' last); [lra | reflexivity]. }
    unfold lattice_points. now rewrite !E.
Qed.

Lemma lattice_points_done (first last step : R) :
  ~ first <= last -> lattice_points first last step = [].
Proof.
  intros H. unfold lattice_points, lattice_bound. cbn [stepping].
  destruct (Rle_dec first last); [lra | reflexivity].
Qed.

(** The values of the lattice lie in the range. *)
Lemma stepping_in_range (first last step : R) :
  0 < step -> step_advances first last step ->
  forall (n : nat) (x v : R),
    first <= x -> In v (stepping n x last step) -> first <= v <= last.
Proof.
  intros Hs Hadv. induction n as [|n IH]; intros x v Hx Hv; [destruct Hv|].
  simpl in Hv. destruct (Rle_dec x last) as [Hle|Hgt]; [|destruct Hv].
  destruct Hv as [<- | Hv]; [lra|].
  pose proof (Hadv x (conj Hx Hle)).
  apply (IH (double_add x step)); [lra | assumption].
Qed.

(** The inner loop appends the lattice of the y range. *)
Lemma y_loop_spec (first y_last step volume x : R) :
  0 < step -> step_advances first y_last step ->
  forall (k fuel : nat) (y : R) (acc : list XYZTransform),
    first <= y -> y_last - y < INR k * (step / 2) -> (k < fuel)%nat ->
    y_loop fuel x y y_last step volume acc
    = Some (acc ++ map (fun y' => mkXYZTransform x y' 0 volume)
                     (stepping k y y_last step)).
Proof.
  intros Hs Hadv. induction k as [|k IH]; intros fuel y acc Hy Hk Hfuel;
    (destruct fuel as [|fuel]; [lia|]); simpl;
    destruct (Rle_dec y y_last) as [Hle|Hgt].
  - simpl in Hk. lra.
  - now rewrite app_nil_r.
  - pose proof (Hadv y (conj Hy Hle)) as Hnext. rewrite S_INR in Hk.
    rewrite (IH fuel (double_add y step)) by (lra || lia).
    simpl. now rewrite <- app_assoc.
  - now rewrite app_nil_r.
Qed.

(** The outer loop appends, for every x of the lattice, the lattice of
    the y range. *)
Lemma x_loop_spec (first x_last step volume : R) (yRange : R * R) :
  0 < step -> step_advances first x_last step ->
  step_advances (fst yRange) (snd yRange) step ->
  forall (k fuel : nat) (x : R) (acc : list XYZTransform),
    first <= x -> x_last - x < INR k * (step / 2) ->
    (k + lattice_bound (fst yRange) (snd yRange) step < fuel)%nat ->
    x_loop fuel x x_last yRange step volume acc
    = Some (acc ++ flat_map (fun x' =>
                     map (fun y' => mkXYZTransform x' y' 0 volume)
                       (lattice_points (fst yRange) (snd yRange) step))
                     (stepping k x x_last step)).
Proof.
  intros Hs Hadv Hady. induction k as [|k IH]; intros fuel x acc Hx Hk Hfuel;
    (destruct fuel as [|fuel]; [lia|]); simpl;
    destruct (Rle_dec x x_last) as [Hle|Hgt].
  - simpl in Hk. lra.
  - now rewrite app_nil_r.
  - pose proof (Hadv x (conj Hx Hle)) as Hnext. rewrite S_INR in Hk.
    rewrite (y_loop_spec (fst yRange) (snd yRange) step volume x Hs Hady
               (lattice_bound (fst yRange) (snd yRange) step) fuel
               (fst yRange) acc)
      by (lra || lia || now apply lattice_bound_covers).
    fold (lattice_points (fst yRange) (snd yRange) step).
    rewrite (IH fuel (double_add x step)) by (lra || lia).
    simpl. now rewrite <- app_assoc.
  - now rewrite app_nil_r.
Qed.

(** With a positive step that advances and a count that [reserve] accepts,
    the generator appends the lattice of the x and y ranges, each pair with
    [z = 0] and the volume [step^2 * z_step]. *)
Lemma createCandidateXYZTransforms_lattice (xy_step z_step : R)
    (xRange yRange zRange : R * R) (transforms : list XYZTransform) :
  0 < xy_step ->
  step_advances (fst xRange) (snd xRange) xy_step ->
  step_advances (fst yRange) (snd yRange) xy_step ->
  (0 <= wrap_int
          (to_int ((snd xRange - fst xRange) / xy_step)
           * to_int ((snd yRange - fst yRange) / xy_step)
           * num_z_locations z_step (candidate_zRange z_step zRange)))%Z ->
  exists fuel0, forall fuel, (fuel0 <= fuel)%nat ->
    createCandidateXYZTransforms fuel xy_step z_step xRange yRange zRange
      transforms
    = Some (Ok (transforms ++ spec_candidates xy_step z_step xRange yRange)).
Proof.
  intros Hs Hadx Hady Hcount.
  exists (S (lattice_bound (fst xRange) (snd xRange) xy_step
             + lattice_bound (fst yRange) (snd yRange) xy_step)).
  intros fuel Hfuel. unfold createCandidateXYZTransforms, reserve.
  destruct (Z.ltb_spec (wrap_int
    (to_int ((snd xRange - fst xRange) / xy_step)
     * to_int ((snd yRange - fst yRange) / xy_step)
     * num_z_locations z_step (candidate_zRange z_step zRange))) 0); [lia|].
  rewrite (x_loop_spec (fst xRange) (snd xRange) xy_step _ yRange Hs Hadx Hady
             (lattice_bound (fst xRange) (snd xRange) xy_step) fuel
             (fst xRange) transforms)
    by (lra || lia || now apply lattice_bound_covers).
  reflexivity.
Qed.

(** After the collapse of the z range the z location count is 0. *)
Lemma collapsed_z_locations (z_step : R) (zRange : R * R) :
  z_step > Rabs (fst zRange) ->
  candidate_zRange z_step zRange = (0, 0) /\
  num_z_locations z_step (candidate_zRange z_step zRange) = 0%Z.
Proof.
  intros Hz.
  assert (Ez : candidate_zRange z_step zRange = (0, 0)).
  { unfold candidate_zRange.
    destruct (Rgt_dec z_step (Rabs (fst zRange))); [reflexivity | lra]. }
  split; [exact Ez|].
  rewrite Ez. unfold num_z_locations. cbn [fst snd].
  pose proof (Rabs_pos (fst zRange)).
  destruct (Req_dec_T z_step 0); [lra|].
  replace ((0 - 0) / z_step) with (IZR 0) by (simpl; field; lra).
  apply to_int_IZR.
Qed.

Lemma to_int_of (r : R) (n : Z) : r = IZR n -> to_int r = n.
Proof. intros ->. apply to_int_IZR. Qed.

Lemma double_add_IZR (a b : Z) :
  (Z.abs (a + b) < 2 ^ 53)%Z -> double_add (IZR a) (IZR b) = IZR (a + b).
Proof.
  intros H. unfold double_add. rewrite <- plus_IZR.
  now apply round_double_IZR.
Qed.

(** Steps of 1 advance on the range [[-1, 1]]. *)
Lemma step_advances_unit : step_advances (-1) 1 1.
Proof.
  apply double_add_advances; [lra|].
  rewrite Rabs_left, Rabs_right by lra.
  unfold Rmax. destruct (Rle_dec (- -1) 1); lra.
Qed.

(** The lattice of [[-1, 1]] at step 1. *)
Lemma lattice_minus1_1 : lattice_points (-1) 1 1 = [-1; 0; 1].
Proof.
  unfold lattice_points, lattice_bound.
  replace (Zfloor (2 * (1 - -1) / 1)) with 4%Z
    by (symmetry; apply Zfloor_eq; simpl; lra).
  change (S (Z.to_nat 4)) with 5%nat. cbn [stepping].
  destruct (Rle_dec (-1) 1); [|lra].
  rewrite (double_add_IZR (-1) 1) by (simpl; lia). cbn [Z.add Z.opp Z.pos_sub].
  destruct (Rle_dec 0 1); [|lra].
  rewrite (double_add_IZR 0 1) by (simpl; lia). cbn [Z.add].
  destruct (Rle_dec 1 1); [|lra].
  rewrite (double_add_IZR 1 1) by (simpl; lia). cbn [Z.add Pos.add].
  destruct (Rle_dec 2 1); [lra|]. reflexivity.
Qed.

(** The scenario of the specification: the ranges [[-1, 1]] for x and y,
    [[0, 0]] for z and steps of 1 give nine candidates of volume 1. *)
Lemma nine_candidates :
  exists fuel0, forall fuel, (fuel0 <= fuel)%nat ->
    createCandidateXYZTransforms fuel 1 1 (-1, 1) (-1, 1) (0, 0) []
    = Some (Ok [mkXYZTransform (-1) (-1) 0 1; mkXYZTransform (-1) 0 0 1;
                mkXYZTransform (-1) 1 0 1;
                mkXYZTransform 0 (-1) 0 1; mkXYZTransform 0 0 0 1;
                mkXYZTransform 0 1 0 1;
                mkXYZTransform 1 (-1) 0 1; mkXYZTransform 1 0 0 1;
                mkXYZTransform 1 1 0 1]).
Proof.
  destruct (createCandidateXYZTransforms_lattice 1 1 (-1, 1) (-1, 1) (0, 0)
              [])
    as [fuel0 H]; [lra | apply step_advances_unit | apply step_advances_unit
                   | |].
  - cbn [fst snd].
    assert (Hz : 1 > Rabs (fst (0, 0)))
      by (cbn [fst]; rewrite Rabs_R0; lra).
    rewrite (proj2 (collapsed_z_locations 1 (0, 0) Hz)), Z.mul_0_r.
    discriminate.
  - exists fuel0. intros fuel Hfuel. rewrite (H fuel Hfuel).
    unfold spec_candidates. cbn [fst snd]. rewrite lattice_minus1_1.
    cbn [flat_map map app].
    replace (1 ^ 2 * 1) with 1 by lra. reflexivity.
Qed.

(** C6 fails on the code for an empty range.  With the empty x range
    [[1, 0]], the y and z ranges [[-1, 1]] and steps of 1, the location
    counts are -1, 2 and 2; their product -4 is the argument of [reserve],
    which raises [std::length_error] before any candidate is produced. *)
Theorem reserve_rejects_empty_x_range (fuel : nat) :
  to_int ((snd (1, 0) - fst (1, 0)) / 1) = (-1)%Z /\
  to_int ((snd (-1, 1) - fst (-1, 1)) / 1) = 2%Z /\
  num_z_locations 1 (candidate_zRange 1 (-1, 1)) = 2%Z /\
  createCandidateXYZTransforms fuel 1 1 (1, 0) (-1, 1) (-1, 1) []
  = Some (Fault LengthError).
Proof.
  assert (Ex : to_int ((snd (1, 0) - fst (1, 0)) / 1) = (-1)%Z)
    by (apply to_int_of; cbn [fst snd]; lra).
  assert (Ey : to_int ((snd (-1, 1) - fst (-1, 1)) / 1) = 2%Z)
    by (apply to_int_of; cbn [fst snd]; lra).
  assert (Ez : num_z_locations 1 (candidate_zRange 1 (-1, 1)) = 2%Z).
  { unfold candidate_zRange, num_z_locations. cbn [fst snd].
    rewrite Rabs_left by lra.
    destruct (Rgt_dec 1 (- -1)); [lra|]. cbn [fst snd].
    destruct (Req_dec_T 1 0); [lra|]. apply to_int_of. lra. }
  repeat split; try assumption.
  unfold createCandidateXYZTransforms. rewrite Ex, Ey, Ez. reflexivity.
Qed.

(** C8, as stated, fails: the code does not compare the z step with the
    available z range.  For the range [[5, 5.5]] and a step of 1 the step
    is larger than the range, and the generator keeps the range; for the
    range from 5 to 3, which holds no value, with x and y ranges
    [[-1, 1]] and steps of 1, the range is kept as well, the z location
    count is -2, and [reserve] raises [std::length_error]. *)
Lemma narrow_z_range_is_kept :
  (1 > snd (5, 5.5) - fst (5, 5.5) /\
   claimed_zRange 1 (5, 5.5) = (0, 0) /\
   candidate_zRange 1 (5, 5.5) = (5, 5.5) /\
   candidate_zRange 1 (5, 5.5) <> claimed_zRange 1 (5, 5.5)) /\
  (1 > snd (5, 3) - fst (5, 3) /\
   claimed_zRange 1 (5, 3) = (0, 0) /\
   candidate_zRange 1 (5, 3) = (5, 3) /\
   forall fuel,
     createCandidateXYZTransforms fuel 1 1 (-1, 1) (-1, 1) (5, 3) []
     = Some (Fault LengthError)).
Proof.
  assert (Ec : claimed_zRange 1 (5, 5.5) = (0, 0)).
  { unfold claimed_zRange. cbn [fst snd].
    destruct (Rgt_dec 1 (5.5 - 5)); [reflexivity | lra]. }
  assert (Ek : candidate_zRange 1 (5, 5.5) = (5, 5.5)).
  { unfold candidate_zRange. cbn [fst snd]. rewrite Rabs_right by lra.
    destruct (Rgt_dec 1 5); [lra | reflexivity]. }
  assert (Ec' : claimed_zRange 1 (5, 3) = (0, 0)).
  { unfold claimed_zRange. cbn [fst snd].
    destruct (Rgt_dec 1 (3 - 5)); [reflexivity | lra]. }
  assert (Ek' : candidate_zRange 1 (5, 3) = (5, 3)).
  { unfold candidate_zRange. cbn [fst snd]. rewrite Rabs_right by lra.
    destruct (Rgt_dec 1 5); [lra | reflexivity]. }
  split; repeat split;
    try (cbn [fst snd]; lra); try assumption.
  - rewrite Ec, Ek. intros E. injection E as E _. lra.
  - intros fuel. unfold createCandidateXYZTransforms. rewrite Ek'.
    unfold num_z_locations. cbn [fst snd].
    destruct (Req_dec_T 1 0); [lra|].
    rewrite (to_int_of ((1 - -1) / 1) 2), (to_int_of ((3 - 5) / 1) (-2))
      by lra.
    reflexivity.
Qed.

(** C8, amended.  The code compares the z step with the absolute value of
    the lower end of the z range.  Whenever the z step is larger than
    [fabs(zRange.first)], the generator collapses the z range to the
    single point 0 and the z location count is 0, so that [reserve] is
    asked for no element; for a positive xy step that advances on the x
    and y ranges and x and y quotients that convert to [int], the
    generator then completes, given enough fuel, without a fault: it
    appends the candidates of the x and y lattice, all at [z = 0]. *)
Theorem degenerate_z_range_collapses (xy_step z_step : R)
    (xRange yRange zRange : R * R) (transforms : list XYZTransform) :
  z_step > Rabs (fst zRange) ->
  0 < xy_step ->
  step_advances (fst xRange) (snd xRange) xy_step ->
  step_advances (fst yRange) (snd yRange) xy_step ->
  counts_fit_int xy_step xRange yRange ->
  candidate_zRange z_step zRange = (0, 0) /\
  num_z_locations z_step (candidate_zRange z_step zRange) = 0%Z /\
  (exists fuel0, forall fuel, (fuel0 <= fuel)%nat ->
     createCandidateXYZTransforms fuel xy_step z_step xRange yRange zRange
       transforms
     = Some (Ok (transforms
                 ++ spec_candidates xy_step z_step xRange yRange))) /\
  forall c, In c (spec_candidates xy_step z_step xRange yRange) ->
    tf_z c = 0.
Proof.
  intros Hz Hxy Hadx Hady _.
  destruct (collapsed_z_locations z_step zRange Hz) as [Ez En].
  repeat split; [exact Ez | exact En | |].
  - apply createCandidateXYZTransforms_lattice; try assumption.
    rewrite En, Z.mul_0_r. discriminate.
  - intros c Hc. unfold spec_candidates in Hc.
    apply in_flat_map in Hc as (x & _ & Hc).
    apply in_map_iff in Hc as (y & <- & _). reflexivity.
Qed.

Lemma fits_int_of (r : R) (n : Z) :
  r = IZR n -> (INT_MIN <= n <= INT_MAX)%Z -> fits_int r.
Proof. intros -> H. now apply fits_int_IZR. Qed.

Lemma degenerate_z_range_collapses_witness :
  candidate_zRange 3 (-1, 1) = (0, 0) /\
  num_z_locations 3 (candidate_zRange 3 (-1, 1)) = 0%Z /\
  (exists fuel0, forall fuel, (fuel0 <= fuel)%nat ->
     createCandidateXYZTransforms fuel 1 3 (-1, 1) (-1, 1) (-1, 1) []
     = Some (Ok ([] ++ spec_candidates 1 3 (-1, 1) (-1, 1)))) /\
  forall c, In c (spec_candidates 1 3 (-1, 1) (-1, 1)) -> tf_z c = 0.
Proof.
  apply (degenerate_z_range_collapses 1 3 (-1, 1) (-1, 1) (-1, 1) []).
  - cbn [fst]. rewrite Rabs_left by lra. lra.
  - lra.
  - apply step_advances_unit.
  - apply step_advances_unit.
  - split; cbn [fst snd]; apply (fits_int_of _ 2); try lra;
      unfold INT_MIN, INT_MAX; lia.
Defined.

(** ** Where the two branches agree *)

(** For a point whose z index lies in the interior and a z radius of 1,
    every update of one branch is matched by an update of the other branch
    at the same cell and at a table index that is not larger. *)
Lemma unit_z_dominated (t : DensityGridTracker) (pt : PointXYZRGB)
    (c : cell) (i j k : Z) :
  (3 <= zSize_ t)%Z -> num_spillover_steps_z_ t = 1%Z ->
  (1 <= z_index_of t pt <= zSize_ t - 2)%Z ->
  In (c, (i, j, k)) (writes_unit_z t pt) ->
  exists k', In (c, (i, j, k')) (writes_general t pt) /\ (0 <= k' <= k)%Z.
Proof.
  intros Hz Hrz Iz Hw.
  apply In_writes_unit_z in Hw as (xs & ys & -> & -> & Hxs & Hys & Hk).
  rewrite (clamp_interior_id _ _ Iz) in Hk.
  assert (Hgen : forall zs,
    (Z.max 1 (z_index_of t pt - 1) <= zs
       <= Z.min (z_index_of t pt + 1) (zSize_ t - 2))%Z ->
    In ((xs, ys, zs),
        (Z.abs (x_index_of t pt - xs), Z.abs (y_index_of t pt - ys),
         Z.abs (z_index_of t pt - zs))) (writes_general t pt)).
  { intros zs Hzs. apply In_writes_general. exists xs, ys, zs.
    rewrite Hrz. repeat split; try tauto; lia. }
  destruct Hk as [[-> ->]|[[-> ->]|[-> ->]]].
  - exists (Z.abs (z_index_of t pt - z_index_of t pt)).
    split; [apply Hgen|]; lia.
  - exists (Z.abs (z_index_of t pt
                   - Z.min (z_index_of t pt + 1) (zSize_ t - 2))).
    split; [apply Hgen|]; lia.
  - exists (Z.abs (z_index_of t pt - Z.max 1 (z_index_of t pt - 1))).
    split; [apply Hgen|]; lia.
Qed.

Lemma general_dominated (t : DensityGridTracker) (pt : PointXYZRGB)
    (c : cell) (i j k : Z) :
  (3 <= zSize_ t)%Z -> num_spillover_steps_z_ t = 1%Z ->
  (1 <= z_index_of t pt <= zSize_ t - 2)%Z ->
  In (c, (i, j, k)) (writes_general t pt) ->
  exists k', In (c, (i, j, k')) (writes_unit_z t pt) /\ (0 <= k' <= k)%Z.
Proof.
  intros Hz Hrz Iz Hw.
  apply In_writes_general in Hw
    as (xs & ys & zs & -> & -> & -> & -> & Hxs & Hys & Hzs).
  rewrite Hrz in Hzs.
  assert (Hunit : forall z' k',
    (z' = clamp_interior (zSize_ t) (z_index_of t pt) /\ k' = 0%Z) \/
    (z' = Z.min (clamp_interior (zSize_ t) (z_index_of t pt) + 1)
            (zSize_ t - 2) /\ k' = 1%Z) \/
    (z' = Z.max 1 (clamp_interior (zSize_ t) (z_index_of t pt) - 1)
     /\ k' = 1%Z) ->
    In ((xs, ys, z'),
        (Z.abs (x_index_of t pt - xs), Z.abs (y_index_of t pt - ys), k'))
      (writes_unit_z t pt)).
  { intros z' k' H. apply In_writes_unit_z. exists xs, ys.
    repeat split; try tauto.
    destruct H as [[-> ->]|[[-> ->]|[-> ->]]]; auto. }
  rewrite (clamp_interior_id _ _ Iz) in Hunit.
  assert (Hcases : zs = z_index_of t pt \/ zs = (z_index_of t pt + 1)%Z \/
                   zs = (z_index_of t pt - 1)%Z) by lia.
  destruct Hcases as [-> | [-> | ->]].
  - exists 0%Z. split; [apply Hunit; left; split; reflexivity | lia].
  - exists 1%Z. split; [apply Hunit; right; left; split; lia | lia].
  - exists 1%Z. split; [apply Hunit; right; right; split; lia | lia].
Qed.

(** One update sequence stays below another that dominates it. *)
Lemma apply_writes_dominated (t : DensityGridTracker) (tbl : spillover_table)
    (ws1 ws2 : list write) (g g1 g2 : grid) (c : cell) :
  make_spillovers t = Ok tbl ->
  0 < spillover_sigma_xy_ t -> 0 < spillover_sigma_z_ t ->
  0 < min_density_ t ->
  (forall i j k, In (c, (i, j, k)) ws1 ->
     exists k', In (c, (i, j, k')) ws2 /\ (0 <= k' <= k)%Z) ->
  apply_writes tbl ws1 g = Ok g1 -> apply_writes tbl ws2 g = Ok g2 ->
  g1 c <= g2 c.
Proof.
  intros Htbl Hsxy Hsz Hmd Hdom H1 H2.
  apply (apply_writes_upper tbl ws1 g g1 c (g2 c)); [| |assumption].
  - eapply apply_writes_raises; eauto.
  - intros i j k v Hin Hv.
    destruct (Hdom i j k Hin) as (k' & Hin' & Hk).
    destruct (apply_writes_reads _ _ _ _ _ _ _ _ H2 Hin') as [v' Hv'].
    pose proof (apply_writes_lower _ _ _ _ _ _ _ _ _ Hin' Hv' H2) as Hle.
    rewrite (spillovers_get_spec t tbl _ _ _ Htbl) in Hv.
    rewrite (spillovers_get_spec t tbl _ _ _ Htbl) in Hv'.
    destruct (in_table t i j k) eqn:E; [|discriminate].
    destruct (in_table t i j k') eqn:E'; [|discriminate].
    inversion Hv; subst v. inversion Hv'; subst v'.
    apply in_table_spec in E.
    apply Rle_trans with (spillover_value t i j k'); [|assumption].
    apply spillover_value_mono; try assumption; lia.
Qed.

(** When the z index of every point lies in the interior of the used
    extent, which sizing guarantees below the maximum of the z axis, the
    unit-z branch and the three nested loops with a z radius of 1 leave
    the same value in every cell. *)
Lemma unit_z_matches_nested_loops_in_interior (t tf tg : DensityGridTracker)
    (points : PointCloud) :
  sized t -> num_spillover_steps_z_ t = 1%Z ->
  (forall pt, In pt points -> (1 <= z_index_of t pt <= zSize_ t - 2)%Z) ->
  computeDensityGrid t points = Ok tf ->
  computeDensityGrid_general t points = Ok tg ->
  forall c, density_grid_ tf c = density_grid_ tg c.
Proof.
  intros Hs Hrz Hint Hf Hg c.
  destruct Hs as [_ (_ & _ & Dz) _ _ Hsxy Hsz Hmd].
  assert (Hmd' : 0 < min_density_ t)
    by (rewrite Hmd; unfold kSmoothingFactor; lra).
  apply computeDensityGrid_inv in Hf as (tbl & gf & Htbl & Hgf & ->).
  unfold computeDensityGrid_general in Hg.
  rewrite (build_grid_writes spill_general writes_general) in Hg
    by (intros; apply spill_general_writes).
  rewrite Htbl in Hg. cbn [bind] in Hg.
  destruct (apply_writes tbl (flat_map (writes_general t) points)
              (density_grid_ t)) as [gg|] eqn:Hgg; [|discriminate].
  cbn [bind] in Hg. inversion Hg; subst tg.
  cbn [set_density_grid density_grid_].
  assert (Hof : forall pt, writes_of t pt = writes_unit_z t pt).
  { intros pt. unfold writes_of. now rewrite Hrz. }
  apply Rle_antisym.
  - refine (apply_writes_dominated t tbl _ _ _ _ _ c Htbl Hsxy Hsz Hmd'
              _ Hgf Hgg).
    intros i j k Hin. apply In_all_writes in Hin as (pt & Hpt & Hw).
    rewrite Hof in Hw.
    destruct (unit_z_dominated t pt c i j k ltac:(lia) Hrz (Hint pt Hpt) Hw)
      as (k' & Hin' & Hk).
    exists k'. split; [|assumption]. apply in_flat_map. eauto.
  - refine (apply_writes_dominated t tbl _ _ _ _ _ c Htbl Hsxy Hsz Hmd'
              _ Hgg Hgf).
    intros i j k Hin. apply in_flat_map in Hin as (pt & Hpt & Hw).
    destruct (general_dominated t pt c i j k ltac:(lia) Hrz (Hint pt Hpt) Hw)
      as (k' & Hin' & Hk).
    exists k'. split; [|assumption]. apply In_all_writes.
    exists pt. split; [assumption|]. now rewrite Hof.
Qed.

(** ** The scores of a frame do not depend on the buffer it starts from *)

(** The same updates on two grids: the same fault, or grids that agree
    wherever they agreed before. *)
Lemma apply_writes_agree (tbl : spillover_table) (ws : list write)
    (g1 g2 : grid) :
  match apply_writes tbl ws g1, apply_writes tbl ws g2 with
  | Ok g1', Ok g2' => forall c, g1 c = g2 c -> g1' c = g2' c
  | Fault f1, Fault f2 => f1 = f2
  | _, _ => False
  end.
Proof.
  unfold apply_writes. revert g1 g2.
  induction ws as [|[c0 [[i j] k]] ws IH]; intros g1 g2; simpl.
  - auto.
  - unfold do_write. cbn [fst snd]. unfold bind at 2 4.
    destruct (spillovers_get tbl i j k) as [v|f]; [|reflexivity].
    unfold max_update, grid_get, grid_set. unfold bind at 2 4.
    destruct (allocated c0); cbn [bind]; [|reflexivity].
    specialize (IH (grid_store g1 c0 (dmax (g1 c0) v))
                   (grid_store g2 c0 (dmax (g2 c0) v))).
    destruct (foldM _ ws (grid_store g1 c0 _)) as [g1'|f1],
             (foldM _ ws (grid_store g2 c0 _)) as [g2'|f2]; try assumption.
    intros c Hc. apply IH. unfold grid_store.
    destruct (cell_eqb c c0) eqn:E; [|assumption].
    apply cell_eqb_eq in E. subst c0. now rewrite Hc.
Qed.

(** Grid construction on two buffers that agree on the used extent. *)
Lemma computeDensityGrid_agree (t : DensityGridTracker) (g : grid)
    (points : PointCloud) :
  (forall c, used_extent t c = true -> g c = density_grid_ t c) ->
  match computeDensityGrid t points,
        computeDensityGrid (set_density_grid t g) points with
  | Ok ta, Ok tb =>
      tb = set_density_grid ta (density_grid_ tb) /\
      forall c, used_extent ta c = true ->
                density_grid_ tb c = density_grid_ ta c
  | Fault f1, Fault f2 => f1 = f2
  | _, _ => False
  end.
Proof.
  intros Hagree. rewrite !computeDensityGrid_writes.
  change (make_spillovers (set_density_grid t g)) with (make_spillovers t).
  change (all_writes (set_density_grid t g) points)
    with (all_writes t points).
  destruct (make_spillovers t) as [tbl|f]; cbn [bind]; [|reflexivity].
  cbn [set_density_grid density_grid_].
  pose proof (apply_writes_agree tbl (all_writes t points)
                (density_grid_ t) g) as H.
  destruct (apply_writes tbl (all_writes t points) (density_grid_ t))
    as [ga|fa],
    (apply_writes tbl (all_writes t points) g) as [gb|fb];
    cbn [bind]; try assumption.
  split; [reflexivity|].
  intros c Hc. cbn [set_density_grid density_grid_].
  symmetry. apply H. symmetry. now apply Hagree.
Qed.

(** The scorer on two buffers that agree on the used extent. *)
Lemma getLogProbability_agree (t : DensityGridTracker) (g : grid)
    (current_points : PointCloud) (minPt : PointXYZRGB) (xy zs : R)
    (motion_model : MotionModel) (x y z : R) :
  extent_ok t ->
  (forall c, used_extent t c = true -> g c = density_grid_ t c) ->
  getLogProbability (set_density_grid t g) current_points minPt xy zs
    motion_model x y z =
  getLogProbability t current_points minPt xy zs motion_model x y z.
Proof.
  intros Hok Hagree.
  assert (Hok' : extent_ok (set_density_grid t g)) by exact Hok.
  rewrite !getLogProbability_sum by assumption.
  unfold spec_log_probability. f_equal. f_equal. f_equal. f_equal.
  apply map_ext. intros pt.
  rewrite <- !shifted_cell_spec_cell by assumption.
  change (shifted_cell (set_density_grid t g) minPt xy zs x y z pt)
    with (shifted_cell t minPt xy zs x y z pt).
  cbn [set_density_grid density_grid_].
  apply Hagree. now apply shifted_cell_in_extent.
Qed.

Lemma computeDensityGridSize_same_frame (t1 t2 : DensityGridTracker)
    (prev : PointCloud) (xy zs d dsf : R) :
  computeDensityGridSize t2 prev xy zs d dsf =
  set_density_grid (computeDensityGridSize t1 prev xy zs d dsf)
    (density_grid_ (computeDensityGridSize t2 prev xy zs d dsf)).
Proof.
  unfold computeDensityGridSize.
  destruct (getMinMax3D prev) as [mn mx]. reflexivity.
Qed.

Lemma computeDensityGridSize_same_extent (t1 t2 : DensityGridTracker)
    (prev : PointCloud) (xy zs d dsf : R) (c : cell) :
  used_extent (computeDensityGridSize t2 prev xy zs d dsf) c =
  used_extent (computeDensityGridSize t1 prev xy zs d dsf) c.
Proof.
  unfold used_extent, computeDensityGridSize.
  destruct (getMinMax3D prev) as [mn mx]. reflexivity.
Qed.

Lemma computeDensityGrid_extent_ok (t t' : DensityGridTracker)
    (points : PointCloud) :
  extent_ok t -> computeDensityGrid t points = Ok t' -> extent_ok t'.
Proof.
  intros Hok H. apply computeDensityGrid_inv in H as (tbl & g & _ & _ & ->).
  exact Hok.
Qed.

(** A frame scored from two trackers, whatever their buffers hold, gives
    the same scores or the same fault. *)
Lemma scoreXYZTransforms_ignores_old_buffer (t1 t2 : DensityGridTracker)
    (current_points prev_points : PointCloud) (xy zs : R)
    (transforms : list XYZTransform) (motion_model : MotionModel)
    (d dsf : R) :
  emitted_scores (scoreXYZTransforms t2 current_points prev_points xy zs
                    transforms motion_model d dsf) =
  emitted_scores (scoreXYZTransforms t1 current_points prev_points xy zs
                    transforms motion_model d dsf).
Proof.
  unfold scoreXYZTransforms.
  assert (Hagree : forall c,
    used_extent (computeDensityGridSize t1 prev_points xy zs d dsf) c = true ->
    density_grid_ (computeDensityGridSize t2 prev_points xy zs d dsf) c
    = density_grid_ (computeDensityGridSize t1 prev_points xy zs d dsf) c).
  { intros c Hc. rewrite !computeDensityGridSize_grid.
    now rewrite (computeDensityGridSize_same_extent t1 t2), Hc. }
  pose proof (computeDensityGridSize_extent_ok t1 prev_points xy zs d dsf)
    as Hok1.
  rewrite (computeDensityGridSize_same_frame t1 t2).
  set (s1 := computeDensityGridSize t1 prev_points xy zs d dsf) in *.
  set (g2 := density_grid_ (computeDensityGridSize t2 prev_points xy zs d dsf))
    in *.
  pose proof (computeDensityGrid_agree s1 g2 prev_points Hagree) as H.
  destruct (computeDensityGrid s1 prev_points) as [ta|fa] eqn:Ea;
    destruct (computeDensityGrid (set_density_grid s1 g2) prev_points)
      as [tb|fb]; cbn [bind emitted_scores];
    try contradiction; [|now subst].
  destruct H as [Etb Hab].
  pose proof (computeDensityGrid_extent_ok s1 ta prev_points Hok1 Ea)
    as Hpres.
  rewrite Etb. set (gb := density_grid_ tb) in *. clearbody gb. clear Etb.
  assert (E : forall (acc : list ScoredTransformXYZ),
    foldM (fun transform scored_transforms =>
             log_prob <- getLogProbability (set_density_grid ta gb)
                           current_points (min_pt_ (set_density_grid ta gb))
                           (xy_grid_step_ (set_density_grid ta gb))
                           (z_grid_step_ (set_density_grid ta gb))
                           motion_model
                           (tf_x transform) (tf_y transform) (tf_z transform) ;;
             Ok (scored_transforms ++
                 [mkScoredTransformXYZ (tf_x transform) (tf_y transform)
                    (tf_z transform) log_prob (tf_volume transform)]))
      transforms acc
    = foldM (fun transform scored_transforms =>
             log_prob <- getLogProbability ta current_points (min_pt_ ta)
                           (xy_grid_step_ ta) (z_grid_step_ ta) motion_model
                           (tf_x transform) (tf_y transform) (tf_z transform) ;;
             Ok (scored_transforms ++
                 [mkScoredTransformXYZ (tf_x transform) (tf_y transform)
                    (tf_z transform) log_prob (tf_volume transform)]))
      transforms acc).
  { intros acc. apply foldM_ext. intros transform scored _.
    cbn [set_density_grid min_pt_ xy_grid_step_ z_grid_step_].
    now rewrite (getLogProbability_agree ta gb) by assumption. }
  rewrite E.
  destruct (foldM _ transforms []); reflexivity.
Qed.

(** ** Further properties of sizing *)

Lemma sigma_xy_pos (xy d dsf : R) : 0 < sigma_xy xy d dsf.
Proof.
  unfold sigma_xy. apply sqrt_lt_R0.
  set (e := velodyne_horizontal_res d dsf * kSigmaFactor).
  pose proof (pow2_ge_0 e). pose proof (pow2_ge_0 (kSigmaGridFactor * xy)).
  unfold kMinMeasurementVariance. lra.
Qed.

Lemma sigma_xy_gt_step (xy d dsf : R) : 0 < xy -> xy < sigma_xy xy d dsf.
Proof.
  intros H. unfold sigma_xy, kSigmaGridFactor.
  set (e := velodyne_horizontal_res d dsf * kSigmaFactor).
  rewrite <- (sqrt_pow2 xy) at 1 by lra.
  apply sqrt_lt_1_alt. pose proof (pow2_ge_0 e). pose proof (pow2_ge_0 xy).
  unfold kMinMeasurementVariance. lra.
Qed.

(** X1.  Whatever the tracker held and whatever the inputs are, sizing
    leaves used dimensions between 1 and the maxima of the allocation,
    sets every cell of the used extent to [log(kSmoothingFactor)] and
    keeps every other cell of the buffer as it was. *)
Theorem sizing_resets_exactly_the_used_extent (t : DensityGridTracker)
    (prev : PointCloud) (xy zs d dsf : R) (c : cell) :
  (1 <= xSize_ (computeDensityGridSize t prev xy zs d dsf) <= 1000)%Z /\
  (1 <= ySize_ (computeDensityGridSize t prev xy zs d dsf) <= 1000)%Z /\
  (1 <= zSize_ (computeDensityGridSize t prev xy zs d dsf) <= 500)%Z /\
  density_grid_ (computeDensityGridSize t prev xy zs d dsf) c =
    (if used_extent (computeDensityGridSize t prev xy zs d dsf) c
     then ln 0.8 else density_grid_ t c).
Proof.
  destruct (computeDensityGridSize_extent_ok t prev xy zs d dsf)
    as (Hx & Hy & Hz).
  destruct kMax_values as (Kx & Ky & Kz). rewrite Kx in Hx.
  rewrite Ky in Hy. rewrite Kz in Hz.
  repeat split; try lia.
  apply computeDensityGridSize_grid.
Qed.

(** At a distance of 20, for steps of 1 and no down-sampling, the two
    radii are [int] values. *)
Lemma radii_fit_int_at_20 : radii_fit_int 1 1 20 1.
Proof.
  split.
  - unfold ceil. apply fits_int_IZR.
    assert (Hs : 0 < sigma_xy 1 20 1 <= 21).
    { split; [apply sigma_xy_pos|].
      unfold sigma_xy, velodyne_horizontal_res, kSigmaGridFactor,
        kSigmaFactor, kMinMeasurementVariance.
      destruct tan_resolution_bounds as [Hlo Hhi].
      set (tn := tan (0.18 / 2.0 * pi / 180.0)) in *.
      rewrite <- (sqrt_pow2 21) by lra. apply sqrt_le_1_alt. nra. }
    unfold kSpilloverRadius. split.
    + apply Z.le_trans with (-1)%Z; [unfold INT_MIN; lia|].
      apply Zceil_lower. lra.
    + apply Z.le_trans with 41%Z; [|unfold INT_MAX; lia].
      apply Zceil_upper. lra.
  - destruct sigma_z_at_20 as [Hlo Hhi].
    assert (Hc : ceil (kSpilloverRadius * sigma_z 20 1 / 1 - 1) <= 1).
    { unfold ceil. apply IZR_le. apply Zceil_upper.
      unfold kSpilloverRadius. lra. }
    unfold dmax. destruct (Rlt_dec 1.0 _) as [Hlt|_]; [lra|].
    apply (fits_int_of _ 1); [lra | unfold INT_MIN, INT_MAX; lia].
Qed.

(** X2.  The spillover radii that sizing derives, for positive steps, a
    positive down-sampling factor and radii that convert to [int]: the
    horizontal radius, which the code does not floor, is at least 1 cell
    as the vertical one is, so that the spillover table is built, with at
    least two entries along each axis, without a length error. *)
Theorem spillover_radii_lower_bounds (t : DensityGridTracker)
    (prev : PointCloud) (xy zs d dsf : R) :
  0 < xy -> 0 < zs -> 0 < dsf -> radii_fit_int xy zs d dsf ->
  let t' := computeDensityGridSize t prev xy zs d dsf in
  (1 <= num_spillover_steps_xy_ t')%Z /\
  (1 <= num_spillover_steps_z_ t')%Z /\
  exists tbl,
    make_spillovers t' = Ok tbl /\
    length tbl = Z.to_nat (num_spillover_steps_xy_ t' + 1) /\
    forall i j k, in_table t' i j k = true ->
      spillovers_get tbl i j k = Ok (spillover_value t' i j k).
Proof.
  intros Hxy _ _ _ t'.
  pose proof (computeDensityGridSize_radius_xy t prev xy zs d dsf Hxy) as Rxy.
  pose proof (computeDensityGridSize_radius_z t prev xy zs d dsf) as Rz.
  fold t' in Rxy, Rz.
  repeat split; [exact Rxy | exact Rz |].
  destruct (make_spillovers_ok t') as [tbl Htbl]; [lia | lia |].
  exists tbl. repeat split; [exact Htbl | |].
  - unfold make_spillovers in Htbl.
    destruct ((num_spillover_steps_xy_ t' + 1 <? 0)
              || (num_spillover_steps_z_ t' + 1 <? 0))%Z; [discriminate|].
    injection Htbl as <-. rewrite length_map, length_Zrange. f_equal. lia.
  - intros i j k Hin.
    now rewrite (spillovers_get_spec t' tbl i j k Htbl), Hin.
Qed.

Lemma spillover_radii_lower_bounds_witness :
  (1 <= num_spillover_steps_xy_ one_point_tracker)%Z /\
  (1 <= num_spillover_steps_z_ one_point_tracker)%Z /\
  exists tbl,
    make_spillovers one_point_tracker = Ok tbl /\
    length tbl = Z.to_nat (num_spillover_steps_xy_ one_point_tracker + 1) /\
    forall i j k, in_table one_point_tracker i j k = true ->
      spillovers_get tbl i j k = Ok (spillover_value one_point_tracker i j k).
Proof.
  apply (spillover_radii_lower_bounds DensityGridTracker_new one_point_scan
           1 1 20 1); [lra | lra | lra | apply radii_fit_int_at_20].
Defined.



(** ** Further properties of the spillover kernel and of the built grid *)


Lemma spillover_value_below_centre (t : DensityGridTracker) (i j k : Z) :
  0 < spillover_sigma_xy_ t -> 0 < spillover_sigma_z_ t ->
  0 < min_density_ t ->
  spillover_value t i j k <= ln (1 + min_density_ t).
Proof.
  intros Hsxy Hsz Hmd. unfold spillover_value.
  pose proof (exp_factor_nonpos (xy_grid_step_ t) _ Hsxy) as Hfx.
  pose proof (exp_factor_nonpos (z_grid_step_ t) _ Hsz) as Hfz.
  fold (xy_exp_factor t) in Hfx. fold (z_exp_factor t) in Hfz.
  assert (Hxy : (0 <= i * i + j * j)%Z) by nia.
  assert (Hz : (0 <= k * k)%Z) by nia.
  apply IZR_le in Hxy, Hz.
  set (e := IZR (i * i + j * j) * xy_exp_factor t
            + IZR (k * k) * z_exp_factor t).
  assert (He : e <= 0) by (unfold e; nra).
  pose proof (exp_pos e). pose proof (exp_le e 0 He) as Hle.
  rewrite exp_0 in Hle.
  apply ln_monotone; lra.
Qed.


Lemma sizing_kernel_facts (t0 : DensityGridTracker) (prev : PointCloud)
    (xy zs d dsf : R) :
  let t := computeDensityGridSize t0 prev xy zs d dsf in
  0 < spillover_sigma_xy_ t /\ 0 < spillover_sigma_z_ t /\
  min_density_ t = 0.8.
Proof.
  intros t.
  destruct (computeDensityGridSize_sigma t0 prev xy zs d dsf) as [Hsxy Hsz].
  destruct (computeDensityGridSize_steps t0 prev xy zs d dsf)
    as (_ & _ & Hmd).
  fold t in Hsxy, Hsz, Hmd. rewrite Hsxy, Hsz, Hmd.
  repeat split; [apply sigma_xy_pos | apply sigma_z_pos].
Qed.

Lemma ln_08_le_ln_18 : ln 0.8 <= ln (1 + 0.8).
Proof. apply ln_monotone; lra. Qed.

(** The values of a grid built after sizing. *)
Lemma built_grid_bounds (t0 : DensityGridTracker) (prev : PointCloud)
    (xy zs d dsf : R) (t' : DensityGridTracker) (c : cell) :
  let t := computeDensityGridSize t0 prev xy zs d dsf in
  computeDensityGrid t prev = Ok t' -> used_extent t c = true ->
  ln 0.8 <= density_grid_ t' c <= ln (1 + 0.8).
Proof.
  intros t Hrun Hc.
  destruct (sizing_kernel_facts t0 prev xy zs d dsf) as (Pxy & Pz & Hmd).
  fold t in Pxy, Pz, Hmd.
  apply computeDensityGrid_inv in Hrun as (tbl & g & Htbl & Hg & ->).
  pose proof (used_extent_reset t0 prev xy zs d dsf c Hc) as Hreset.
  fold t in Hreset. cbn [set_density_grid density_grid_].
  change (ln kSmoothingFactor) with (ln 0.8) in Hreset.
  split.
  - rewrite <- Hreset. eapply apply_writes_raises; eauto.
  - refine (apply_writes_upper tbl _ _ _ _ _ _ _ Hg).
    + rewrite Hreset. apply ln_08_le_ln_18.
    + intros i j k v _ Hv.
      rewrite (spillovers_get_spec t tbl i j k Htbl) in Hv.
      destruct (in_table t i j k); [|discriminate].
      inversion Hv; subst v. rewrite <- Hmd.
      apply spillover_value_below_centre; try assumption.
      rewrite Hmd. lra.
Qed.

(** X5.  After sizing and a completed construction every cell of the used
    extent holds a value between [log(0.8)] and [log(1.8)]: max-combining
    never takes a cell above the centre value of the kernel. *)
Theorem built_grid_values_are_bounded (t0 : DensityGridTracker)
    (prev : PointCloud) (xy zs d dsf : R) (t' : DensityGridTracker)
    (c : cell) :
  let t := computeDensityGridSize t0 prev xy zs d dsf in
  computeDensityGrid t prev = Ok t' -> used_extent t c = true ->
  ln 0.8 <= density_grid_ t' c <= ln (1 + 0.8).
Proof. apply built_grid_bounds. Qed.

Lemma built_grid_values_are_bounded_witness :
  exists t',
    computeDensityGrid one_point_tracker one_point_scan = Ok t' /\
    ln 0.8 <= density_grid_ t' (2, 2, 3)%Z <= ln (1 + 0.8).
Proof.
  destruct one_point_succeeds as [t' Ht'].
  exists t'. split; [exact Ht'|].
  apply (built_grid_values_are_bounded DensityGridTracker_new one_point_scan
           1 1 20 1 t' (2, 2, 3)%Z Ht').
  destruct one_point_dims as (Sx & Sy & Sz).
  unfold used_extent. fold one_point_tracker. rewrite Sx, Sy, Sz. reflexivity.
Defined.

Lemma sum_bounds {A : Type} (f : A -> R) (l : list A) (a b : R) :
  (forall x, In x l -> a <= f x <= b) ->
  INR (length l) * a <= fold_right Rplus 0 (map f l) <= INR (length l) * b.
Proof.
  induction l as [|x l IH]; intros H.
  - simpl. lra.
  - cbn [map fold_right length]. rewrite S_INR.
    destruct (H x (or_introl eq_refl)).
    destruct IH as [IH1 IH2]; [intros y Hy; apply H; now right|]. lra.
Qed.

Lemma discount_factor_nonneg (n : nat) : 0 <= discount_factor n.
Proof.
  unfold discount_factor, kMeasurementDiscountFactor, kMaxDiscountPoints.
  destruct (Rlt_dec (INR n) 150) as [_|Hge]; [lra|].
  apply Rnot_lt_le in Hge.
  assert (0 < 150 / INR n)
    by (apply Rmult_lt_0_compat; [lra | apply Rinv_0_lt_compat; lra]).
  lra.
Qed.

(** On a grid built after sizing the scorer does not fault, and its score
    lies in the range of the scores of as many points. *)
Lemma score_range (t0 : DensityGridTracker) (prev : PointCloud)
    (xy zs d dsf : R) (t' : DensityGridTracker)
    (current_points : PointCloud) (minPt : PointXYZRGB) (gxy gzs : R)
    (motion_model : MotionModel) (x y z : R) :
  computeDensityGrid (computeDensityGridSize t0 prev xy zs d dsf) prev
  = Ok t' ->
  exists s,
    getLogProbability t' current_points minPt gxy gzs motion_model x y z
      = Ok s /\
    score_in_range (discount_factor_ t') (length current_points)
      (motion_model x y z) s.
Proof.
  set (t := computeDensityGridSize t0 prev xy zs d dsf). intros Hrun.
  pose proof (computeDensityGridSize_extent_ok t0 prev xy zs d dsf) as Hok.
  fold t in Hok.
  pose proof (computeDensityGrid_extent_ok t t' prev Hok Hrun) as Hok'.
  rewrite (getLogProbability_sum t' _ _ _ _ _ _ _ _ Hok').
  eexists. split; [reflexivity|]. unfold spec_log_probability.
  assert (Hd : 0 <= discount_factor_ t').
  { apply computeDensityGrid_inv in Hrun as (tbl & g & _ & _ & ->).
    cbn [set_density_grid discount_factor_]. unfold t.
    rewrite computeDensityGridSize_discount. apply discount_factor_nonneg. }
  destruct (sum_bounds
    (fun pt => density_grid_ t' (spec_cell t' minPt gxy gzs x y z pt))
    current_points (ln 0.8) (ln (1 + 0.8))) as [Hlo Hhi].
  { intros pt _. apply (built_grid_bounds t0 prev xy zs d dsf t' _ Hrun).
    rewrite <- (shifted_cell_spec_cell t' minPt gxy gzs x y z pt Hok').
    pose proof (shifted_cell_in_extent t' minPt gxy gzs x y z pt Hok') as H.
    apply computeDensityGrid_inv in Hrun as (tbl & g & _ & _ & ->).
    exact H. }
  split.
  - intros Hp. rewrite (log_pos _ Hp). eexists. split; [reflexivity|].
    split.
    + apply Rplus_le_compat_l. now apply Rmult_le_compat_l.
    + apply Rplus_le_compat_l. now apply Rmult_le_compat_l.
  - intros Hp. now rewrite (log_zero _ Hp).
Qed.

(** X6.  On a grid built after sizing the scorer never faults, and for a
    positive motion-model probability the log-probability of a candidate
    is a finite number between the motion-model term plus the discount
    times [n * log(0.8)] and the motion-model term plus the discount times
    [n * log(1.8)], for [n] current points. *)
Theorem score_is_bounded (t0 : DensityGridTracker) (prev : PointCloud)
    (xy zs d dsf : R) (t' : DensityGridTracker)
    (current_points : PointCloud) (minPt : PointXYZRGB) (gxy gzs : R)
    (motion_model : MotionModel) (x y z : R) :
  let t := computeDensityGridSize t0 prev xy zs d dsf in
  computeDensityGrid t prev = Ok t' ->
  0 < motion_model x y z ->
  exists s,
    getLogProbability t' current_points minPt gxy gzs motion_model x y z
      = Ok (Finite s) /\
    ln (motion_model x y z)
      + discount_factor_ t' * (INR (length current_points) * ln 0.8) <= s /\
    s <= ln (motion_model x y z)
           + discount_factor_ t'
             * (INR (length current_points) * ln (1 + 0.8)).
Proof.
  intros t Hrun Hp.
  destruct (score_range t0 prev xy zs d dsf t' current_points minPt gxy gzs
              motion_model x y z Hrun) as (s & Hs & Hpos & _).
  destruct (Hpos Hp) as (v & -> & Hb). now exists v.
Qed.

Lemma score_is_bounded_witness :
  exists t' s,
    computeDensityGrid one_point_tracker one_point_scan = Ok t' /\
    getLogProbability t' [mkPoint 0 0 0; mkPoint 1 0 0] (min_pt_ t') 1 1
      (fun _ _ _ => 1) 1 0 0 = Ok (Finite s) /\
    ln 1 + discount_factor_ t' * (INR 2 * ln 0.8) <= s /\
    s <= ln 1 + discount_factor_ t' * (INR 2 * ln (1 + 0.8)).
Proof.
  destruct one_point_succeeds as [t' Ht'].
  destruct (score_is_bounded DensityGridTracker_new one_point_scan 1 1 20 1
              t' [mkPoint 0 0 0; mkPoint 1 0 0] (min_pt_ t') 1 1
              (fun _ _ _ => 1) 1 0 0 Ht' ltac:(lra)) as (s & Hs & Hb).
  exists t', s. split; [exact Ht' | split; [exact Hs | exact Hb]].
Defined.

(** ** Further properties of the construction *)


Lemma sizing_dims_ge_3 (t0 : DensityGridTracker) (prev : PointCloud)
    (xy zs d dsf : R) :
  0 < xy -> 0 < zs -> prev <> [] ->
  sized (computeDensityGridSize t0 prev xy zs d dsf).
Proof.
  intros Hxy Hzs Hne. destruct prev as [|p0 prev0]; [congruence|].
  now apply (computeDensityGridSize_sized t0 (p0 :: prev0) xy zs d dsf p0
               Hxy Hzs (or_introl eq_refl)).
Qed.












(** ** A scan scored against itself *)






(** ** Further properties of scoring a frame *)

Lemma scoring_loop (t : DensityGridTracker) (current_points : PointCloud)
    (motion_model : MotionModel) (transforms : list XYZTransform)
    (acc : list ScoredTransformXYZ) :
  extent_ok t ->
  foldM (fun transform scored_transforms =>
           log_prob <- getLogProbability t current_points (min_pt_ t)
                         (xy_grid_step_ t) (z_grid_step_ t) motion_model
                         (tf_x transform) (tf_y transform) (tf_z transform) ;;
           Ok (scored_transforms ++
               [mkScoredTransformXYZ (tf_x transform) (tf_y transform)
                  (tf_z transform) log_prob (tf_volume transform)]))
    transforms acc
  = Ok (acc ++ map (scored_transform t current_points motion_model)
                 transforms).
Proof.
  intros Hok. revert acc.
  induction transforms as [|tr transforms IH]; intros acc; simpl.
  - now rewrite app_nil_r.
  - rewrite getLogProbability_sum by assumption. cbn [bind].
    rewrite IH, <- app_assoc. reflexivity.
Qed.

Lemma scoreXYZTransforms_eq (t : DensityGridTracker)
    (current_points prev_points : PointCloud) (xy zs : R)
    (transforms : list XYZTransform) (motion_model : MotionModel)
    (d dsf : R) :
  scoreXYZTransforms t current_points prev_points xy zs transforms
    motion_model d dsf =
  match computeDensityGrid (computeDensityGridSize t prev_points xy zs d dsf)
          prev_points with
  | Ok t2 =>
      Ok (t2, map (scored_transform t2 current_points motion_model) transforms)
  | Fault f => Fault f
  end.
Proof.
  unfold scoreXYZTransforms.
  pose proof (computeDensityGridSize_extent_ok t prev_points xy zs d dsf)
    as Hok.
  destruct (computeDensityGrid
              (computeDensityGridSize t prev_points xy zs d dsf) prev_points)
    as [t2|f] eqn:E; cbn [bind]; [|reflexivity].
  pose proof (computeDensityGrid_extent_ok _ _ _ Hok E) as Hok2.
  rewrite (scoring_loop t2 current_points motion_model transforms [] Hok2).
  reflexivity.
Qed.

(** What a scored transform of a built grid carries: its candidate, and a
    score in the range of the scores of as many points. *)
Lemma scored_transform_range (t0 : DensityGridTracker)
    (prev current_points : PointCloud) (xy zs d dsf : R)
    (t2 : DensityGridTracker) (motion_model : MotionModel)
    (transforms : list XYZTransform) :
  computeDensityGrid (computeDensityGridSize t0 prev xy zs d dsf) prev
  = Ok t2 ->
  map st_transform
    (map (scored_transform t2 current_points motion_model) transforms)
  = transforms /\
  Forall2
    (fun c s =>
       score_in_range (discount_factor_ t2) (length current_points)
         (motion_model (tf_x c) (tf_y c) (tf_z c)) (st_log_prob s))
    transforms
    (map (scored_transform t2 current_points motion_model) transforms).
Proof.
  intros Hrun.
  pose proof (computeDensityGridSize_extent_ok t0 prev xy zs d dsf) as Hok.
  pose proof (computeDensityGrid_extent_ok _ _ _ Hok Hrun) as Hok2.
  split.
  - rewrite map_map. rewrite <- (map_id transforms) at 2.
    apply map_ext. now intros [x y z v].
  - induction transforms as [|c transforms IH]; [constructor|].
    cbn [map]. constructor; [|exact IH].
    destruct (score_range t0 prev xy zs d dsf t2 current_points (min_pt_ t2)
                (xy_grid_step_ t2) (z_grid_step_ t2) motion_model
                (tf_x c) (tf_y c) (tf_z c) Hrun) as (s & Hs & Hr).
    rewrite (getLogProbability_sum t2 _ _ _ _ _ _ _ _ Hok2) in Hs.
    injection Hs as <-. exact Hr.
Qed.

(** X11.  [scoreXYZTransforms] faults exactly when the construction of the
    grid faults, with the same fault: scoring itself never faults.
    Otherwise it leaves the built grid and emits one scored transform per
    candidate, in the order of the candidates, each with the x, y, z and
    volume of its candidate; the score of a candidate of positive
    motion-model probability is a finite number between the motion-model
    term plus the discount times [n * log(0.8)] and the same plus the
    discount times [n * log(1.8)], for [n] current points, and the score
    of a candidate of probability 0 is minus infinity. *)
Theorem scoreXYZTransforms_result (t : DensityGridTracker)
    (current_points prev_points : PointCloud) (xy zs : R)
    (transforms : list XYZTransform) (motion_model : MotionModel)
    (d dsf : R) :
  match scoreXYZTransforms t current_points prev_points xy zs transforms
          motion_model d dsf with
  | Fault f =>
      computeDensityGrid (computeDensityGridSize t prev_points xy zs d dsf)
        prev_points = Fault f
  | Ok (t2, scored) =>
      computeDensityGrid (computeDensityGridSize t prev_points xy zs d dsf)
        prev_points = Ok t2 /\
      map st_transform scored = transforms /\
      Forall2
        (fun c s =>
           score_in_range (discount_factor_ t2) (length current_points)
             (motion_model (tf_x c) (tf_y c) (tf_z c)) (st_log_prob s))
        transforms scored
  end.
Proof.
  rewrite scoreXYZTransforms_eq.
  destruct (computeDensityGrid
              (computeDensityGridSize t prev_points xy zs d dsf) prev_points)
    as [t2|f] eqn:E; [|reflexivity].
  split; [reflexivity|].
  now apply (scored_transform_range t prev_points current_points xy zs d dsf).
Qed.

(** X12.  The scores of a frame do not depend on the tracker it is scored
    from: two trackers, whatever their members and their grid buffers
    hold from earlier frames, emit the same scores or the same fault. *)
Theorem frame_scores_ignore_the_old_tracker (t1 t2 : DensityGridTracker)
    (current_points prev_points : PointCloud) (xy zs : R)
    (transforms : list XYZTransform) (motion_model : MotionModel)
    (d dsf : R) :
  emitted_scores (scoreXYZTransforms t2 current_points prev_points xy zs
                    transforms motion_model d dsf) =
  emitted_scores (scoreXYZTransforms t1 current_points prev_points xy zs
                    transforms motion_model d dsf).
Proof. apply scoreXYZTransforms_ignores_old_buffer. Qed.

(** ** The grid as a function of the set of points *)

Lemma apply_writes_targets (tbl : spillover_table) (ws : list write)
    (g g' : grid) (c : cell) (i j k : Z) :
  apply_writes tbl ws g = Ok g' -> In (c, (i, j, k)) ws ->
  allocated c = true.
Proof.
  unfold apply_writes. revert g.
  induction ws as [|w ws IH]; intros g H Hin; [contradiction|].
  simpl in H. destruct (do_write tbl w g) as [g1|] eqn:E; [|discriminate].
  destruct Hin as [->|Hin].
  - apply do_write_spec in E as (v & _ & Ha & _). exact Ha.
  - now apply (IH g1).
Qed.

(** Two update sequences with the same updates, in any order and with any
    repetitions, complete together and leave the same grid. *)
Lemma apply_writes_same_updates (tbl : spillover_table) (ws1 ws2 : list write)
    (g g1 : grid) :
  (forall w, In w ws1 <-> In w ws2) ->
  apply_writes tbl ws1 g = Ok g1 ->
  exists g2, apply_writes tbl ws2 g = Ok g2 /\ forall c, g1 c = g2 c.
Proof.
  intros Hsame H1.
  destruct (apply_writes_succeeds tbl ws2 g) as [g2 H2].
  { intros c i j k Hin. apply Hsame in Hin. split.
    - eapply apply_writes_targets; eauto.
    - eapply apply_writes_reads; eauto. }
  exists g2. split; [exact H2|]. intros c. apply Rle_antisym.
  - apply (apply_writes_upper tbl ws1 g g1 c (g2 c)); [| |assumption].
    + eapply apply_writes_raises; eauto.
    + intros i j k v Hin Hv. apply Hsame in Hin.
      eapply apply_writes_lower; eauto.
  - apply (apply_writes_upper tbl ws2 g g2 c (g1 c)); [| |assumption].
    + eapply apply_writes_raises; eauto.
    + intros i j k v Hin Hv. apply Hsame in Hin.
      eapply apply_writes_lower; eauto.
Qed.

(** X13.  Max-combining makes the construction independent of the order
    and of the repetitions of the points: on one tracker, two clouds with
    the same points complete together and give the same grid, cell for
    cell. *)
Theorem grid_depends_on_the_set_of_points (t t1 : DensityGridTracker)
    (points points' : PointCloud) :
  (forall pt, In pt points <-> In pt points') ->
  computeDensityGrid t points = Ok t1 ->
  exists t2,
    computeDensityGrid t points' = Ok t2 /\
    forall c, density_grid_ t1 c = density_grid_ t2 c.
Proof.
  intros Hsame H1.
  apply computeDensityGrid_inv in H1 as (tbl & g1 & Htbl & Hg1 & ->).
  destruct (apply_writes_same_updates tbl (all_writes t points)
              (all_writes t points') (density_grid_ t) g1) as (g2 & Hg2 & Heq);
    [|assumption|].
  - intros w. rewrite !In_all_writes. split; intros (pt & Hpt & Hw);
      exists pt; split; try assumption; now apply Hsame.
  - exists (set_density_grid t g2). split; [|exact Heq].
    rewrite computeDensityGrid_writes, Htbl. cbn [bind]. now rewrite Hg2.
Qed.

Lemma grid_depends_on_the_set_of_points_witness :
  exists t1 t2,
    computeDensityGrid one_point_tracker one_point_scan = Ok t1 /\
    computeDensityGrid one_point_tracker
      [mkPoint 0 0 0; mkPoint 0 0 0; mkPoint 0 0 0] = Ok t2 /\
    forall c, density_grid_ t1 c = density_grid_ t2 c.
Proof.
  destruct one_point_succeeds as [t1 H1].
  destruct (grid_depends_on_the_set_of_points one_point_tracker t1
              one_point_scan [mkPoint 0 0 0; mkPoint 0 0 0; mkPoint 0 0 0])
    as (t2 & H2 & Heq); [|exact H1|].
  - intros pt. unfold one_point_scan. simpl. tauto.
  - exists t1, t2. split; [exact H1 | split; [exact H2 | exact Heq]].
Defined.

(** ** The unit-z branch inside the interior *)

Lemma general_z_offset (t : DensityGridTracker) (pt : PointXYZRGB)
    (c : cell) (i j k : Z) :
  (3 <= zSize_ t)%Z -> num_spillover_steps_z_ t = 1%Z ->
  (1 <= z_index_of t pt <= zSize_ t - 2)%Z ->
  In (c, (i, j, k)) (writes_general t pt) -> (0 <= k <= 1)%Z.
Proof.
  intros Hz Hrz Iz Hw.
  apply In_writes_general in Hw
    as (xs & ys & zs & _ & _ & _ & -> & _ & _ & Hzs).
  rewrite Hrz in Hzs. lia.
Qed.

(** X14.  Where the specialisation is valid: on a sized tracker with a z
    radius of 1, when the z index of every point lies in the interior
    [[1, zSize - 2]] and the unit-z branch completes, the three nested
    loops complete as well and leave the same value in every cell. *)
Theorem unit_z_equals_nested_loops_in_interior (t tf : DensityGridTracker)
    (points : PointCloud) :
  sized t -> num_spillover_steps_z_ t = 1%Z ->
  (forall pt, In pt points -> (1 <= z_index_of t pt <= zSize_ t - 2)%Z) ->
  computeDensityGrid t points = Ok tf ->
  exists tg,
    computeDensityGrid_general t points = Ok tg /\
    forall c, density_grid_ tf c = density_grid_ tg c.
Proof.
  intros Hs Hrz Hint Hf.
  pose proof Hf as Hf0.
  apply computeDensityGrid_inv in Hf as (tbl & gf & Htbl & Hgf & Etf).
  assert (Dz : (3 <= zSize_ t)%Z)
    by (destruct (sized_dims _ Hs) as (_ & _ & D); lia).
  assert (Hof : forall pt, writes_of t pt = writes_unit_z t pt).
  { intros pt. unfold writes_of. now rewrite Hrz. }
  destruct (apply_writes_succeeds tbl (flat_map (writes_general t) points)
              (density_grid_ t)) as [gg Hgg].
  { intros c i j k Hin. apply in_flat_map in Hin as (pt & Hpt & Hw).
    destruct (general_dominated t pt c i j k Dz Hrz (Hint pt Hpt) Hw)
      as (k' & Hin' & Hk').
    pose proof (general_z_offset t pt c i j k Dz Hrz (Hint pt Hpt) Hw) as Hk.
    assert (Hall : In (c, (i, j, k')) (all_writes t points)).
    { apply In_all_writes. exists pt. split; [assumption|].
      now rewrite Hof. }
    split; [exact (apply_writes_targets _ _ _ _ _ _ _ _ Hgf Hall)|].
    destruct (apply_writes_reads _ _ _ _ _ _ _ _ Hgf Hall) as [v' Hv'].
    rewrite (spillovers_get_spec t tbl _ _ _ Htbl) in Hv'.
    destruct (in_table t i j k') eqn:E'; [|discriminate].
    apply in_table_spec in E'.
    rewrite (spillovers_get_spec t tbl _ _ _ Htbl).
    assert (in_table t i j k = true) as ->; [|eauto].
    apply in_table_spec. lia. }
  assert (Hg : computeDensityGrid_general t points
               = Ok (set_density_grid t gg)).
  { unfold computeDensityGrid_general.
    rewrite (build_grid_writes spill_general writes_general)
      by (intros; apply spill_general_writes).
    rewrite Htbl. cbn [bind]. now rewrite Hgg. }
  exists (set_density_grid t gg). split; [exact Hg|].
  exact (unit_z_matches_nested_loops_in_interior t tf _ points Hs Hrz Hint
           Hf0 Hg).
Qed.

Lemma one_point_interior (pt : PointXYZRGB) :
  In pt one_point_scan -> in_interior one_point_tracker pt.
Proof.
  intros Hpt. destruct one_point_dims as (Sx & Sy & Sz).
  destruct (computeDensityGridSize_sized DensityGridTracker_new one_point_scan
              1 1 20 1 pt) as (_ & (Lx & Ly & Lz) & (Ux & Uy & Uz));
    [lra | lra | exact Hpt |].
  fold one_point_tracker in Lx, Ly, Lz, Ux, Uy, Uz.
  rewrite Sx in Ux. rewrite Sy in Uy. rewrite Sz in Uz.
  unfold in_interior. rewrite Sx, Sy, Sz.
  specialize (Ux eq_refl). specialize (Uy eq_refl). specialize (Uz eq_refl).
  lia.
Qed.

Lemma unit_z_equals_nested_loops_in_interior_witness :
  exists tf tg,
    computeDensityGrid one_point_tracker one_point_scan = Ok tf /\
    computeDensityGrid_general one_point_tracker one_point_scan = Ok tg /\
    forall c, density_grid_ tf c = density_grid_ tg c.
Proof.
  destruct one_point_succeeds as [tf Hf].
  destruct (unit_z_equals_nested_loops_in_interior one_point_tracker tf
              one_point_scan) as (tg & Hg & Heq).
  - apply (sizing_dims_ge_3 DensityGridTracker_new one_point_scan 1 1 20 1);
      [lra | lra | discriminate].
  - exact (radius_z_at_20 DensityGridTracker_new one_point_scan 1).
  - intros pt Hpt. destruct (one_point_interior pt Hpt) as (_ & _ & Iz).
    exact Iz.
  - exact Hf.
  - exists tf, tg. split; [exact Hf | split; [exact Hg | exact Heq]].
Defined.

(** ** Further properties of the candidate generator and of [track] *)

Lemma length_flat_map_rows {A B C : Type} (f : A -> B -> C) (xs : list A)
    (ys : list B) :
  length (flat_map (fun x => map (f x) ys) xs)
  = (length xs * length ys)%nat.
Proof.
  induction xs as [|x xs IH]; simpl; [reflexivity|].
  now rewrite length_app, length_map, IH.
Qed.

(** The candidates of the lattice: their coordinates and their volume. *)
Lemma spec_candidates_spec (xy_step z_step : R) (xRange yRange : R * R)
    (c : XYZTransform) :
  0 < xy_step ->
  step_advances (fst xRange) (snd xRange) xy_step ->
  step_advances (fst yRange) (snd yRange) xy_step ->
  In c (spec_candidates xy_step z_step xRange yRange) ->
  tf_z c = 0 /\ tf_volume c = xy_step ^ 2 * z_step /\
  fst xRange <= tf_x c <= snd xRange /\
  fst yRange <= tf_y c <= snd yRange.
Proof.
  intros Hs Hadx Hady Hc. unfold spec_candidates in Hc.
  apply in_flat_map in Hc as (x & Hx & Hc).
  apply in_map_iff in Hc as (y & <- & Hy). cbn [tf_x tf_y tf_z tf_volume].
  repeat split; try reflexivity.
  - apply (stepping_in_range _ _ _ Hs Hadx _ (fst xRange) x (Rle_refl _) Hx).
  - apply (stepping_in_range _ _ _ Hs Hadx _ (fst xRange) x (Rle_refl _) Hx).
  - apply (stepping_in_range _ _ _ Hs Hady _ (fst yRange) y (Rle_refl _) Hy).
  - apply (stepping_in_range _ _ _ Hs Hady _ (fst yRange) y (Rle_refl _) Hy).
Qed.

(** X15.  For a positive step that advances on the x and y ranges,
    quotients that convert to [int] and a location count that [reserve]
    accepts, the generator, given enough fuel, appends to the vector it is
    handed the candidates of the x and y lattices of floating-point
    stepping, x-major, and keeps what the vector held; it appends as many
    candidates as the product of the two lattice sizes, each inside the x
    and y ranges, with [z = 0] and the volume [xy_step^2 * z_step]. *)
Theorem generator_appends_the_lattice (xy_step z_step : R)
    (xRange yRange zRange : R * R) (transforms : list XYZTransform) :
  0 < xy_step ->
  step_advances (fst xRange) (snd xRange) xy_step ->
  step_advances (fst yRange) (snd yRange) xy_step ->
  counts_fit_int xy_step xRange yRange ->
  fits_int ((snd (candidate_zRange z_step zRange)
             - fst (candidate_zRange z_step zRange)) / z_step) ->
  (0 <= wrap_int
          (to_int ((snd xRange - fst xRange) / xy_step)
           * to_int ((snd yRange - fst yRange) / xy_step)
           * num_z_locations z_step (candidate_zRange z_step zRange)))%Z ->
  (exists fuel0, forall fuel, (fuel0 <= fuel)%nat ->
     createCandidateXYZTransforms fuel xy_step z_step xRange yRange zRange
       transforms
     = Some (Ok (transforms
                 ++ spec_candidates xy_step z_step xRange yRange))) /\
  length (spec_candidates xy_step z_step xRange yRange)
  = (length (lattice_points (fst xRange) (snd xRange) xy_step)
     * length (lattice_points (fst yRange) (snd yRange) xy_step))%nat /\
  forall c, In c (spec_candidates xy_step z_step xRange yRange) ->
    tf_z c = 0 /\ tf_volume c = xy_step ^ 2 * z_step /\
    fst xRange <= tf_x c <= snd xRange /\
    fst yRange <= tf_y c <= snd yRange.
Proof.
  intros Hs Hadx Hady _ _ Hcount. split; [|split].
  - now apply createCandidateXYZTransforms_lattice.
  - unfold spec_candidates.
    apply (length_flat_map_rows
             (fun x y => mkXYZTransform x y 0 (xy_step ^ 2 * z_step))).
  - intros c. now apply spec_candidates_spec.
Qed.

(** The counts of the ranges [[-1, 1]] at step 1. *)
Lemma counts_fit_int_unit : counts_fit_int 1 (-1, 1) (-1, 1).
Proof.
  split; cbn [fst snd]; apply (fits_int_of _ 2); try lra;
    unfold INT_MIN, INT_MAX; lia.
Qed.

Lemma generator_appends_the_lattice_witness :
  (exists fuel0, forall fuel, (fuel0 <= fuel)%nat ->
     createCandidateXYZTransforms fuel 1 1 (-1, 1) (-1, 1) (-2, 2)
       [mkXYZTransform 5 5 5 5]
     = Some (Ok ([mkXYZTransform 5 5 5 5]
                 ++ spec_candidates 1 1 (-1, 1) (-1, 1)))) /\
  length (spec_candidates 1 1 (-1, 1) (-1, 1))
  = Nat.mul (length (lattice_points (-1) 1 1))
      (length (lattice_points (-1) 1 1)) /\
  forall c, In c (spec_candidates 1 1 (-1, 1) (-1, 1)) ->
    tf_z c = 0 /\ tf_volume c = 1 ^ 2 * 1 /\
    fst (-1, 1) <= tf_x c <= snd (-1, 1) /\
    fst (-1, 1) <= tf_y c <= snd (-1, 1).
Proof.
  assert (Ez : candidate_zRange 1 (-2, 2) = (-2, 2)).
  { unfold candidate_zRange. cbn [fst snd]. rewrite Rabs_left by lra.
    destruct (Rgt_dec 1 (- -2)); [lra | reflexivity]. }
  apply (generator_appends_the_lattice 1 1 (-1, 1) (-1, 1) (-2, 2)).
  - lra.
  - apply step_advances_unit.
  - apply step_advances_unit.
  - apply counts_fit_int_unit.
  - rewrite Ez. cbn [fst snd]. apply (fits_int_of _ 4); [lra|].
    unfold INT_MIN, INT_MAX. lia.
  - rewrite Ez. unfold num_z_locations. cbn [fst snd].
    destruct (Req_dec_T 1 0); [lra|].
    rewrite (to_int_of ((1 - -1) / 1) 2), (to_int_of ((2 - -2) / 1) 4) by lra.
    vm_compute. discriminate.
Defined.



(** ** The buffer across frames *)

Lemma scoreXYZTransforms_inv (t t2 : DensityGridTracker)
    (current_points prev_points : PointCloud) (xy zs : R)
    (transforms : list XYZTransform) (motion_model : MotionModel)
    (d dsf : R) (scored : list ScoredTransformXYZ) :
  scoreXYZTransforms t current_points prev_points xy zs transforms
    motion_model d dsf = Ok (t2, scored) ->
  computeDensityGrid (computeDensityGridSize t prev_points xy zs d dsf)
    prev_points = Ok t2.
Proof.
  rewrite scoreXYZTransforms_eq.
  destruct (computeDensityGrid _ prev_points) as [t'|f]; [|discriminate].
  now intros [= -> _].
Qed.




(** X18.  An invariant of the buffer across frames: when every cell of the
    buffer holds a value between [log(0.8)] and [log(1.8)], as in a new
    tracker, the same is true after a frame. *)
Theorem buffer_stays_in_range (t0 t2 : DensityGridTracker)
    (current_points prev_points : PointCloud) (xy zs : R)
    (transforms : list XYZTransform) (motion_model : MotionModel)
    (d dsf : R) (scored : list ScoredTransformXYZ) :
  (forall c, ln 0.8 <= density_grid_ t0 c <= ln (1 + 0.8)) ->
  scoreXYZTransforms t0 current_points prev_points xy zs transforms
    motion_model d dsf = Ok (t2, scored) ->
  (forall c, ln 0.8 <= density_grid_ DensityGridTracker_new c
             <= ln (1 + 0.8)) /\
  forall c, ln 0.8 <= density_grid_ t2 c <= ln (1 + 0.8).
Proof.
  intros H0 Hrun. split.
  { intros c. cbn [DensityGridTracker_new density_grid_].
    change (ln kSmoothingFactor) with (ln 0.8).
    pose proof ln_08_le_ln_18. lra. }
  intros c. apply scoreXYZTransforms_inv in Hrun.
  destruct (sizing_kernel_facts t0 prev_points xy zs d dsf)
    as (Pxy & Pz & Hmd).
  set (t := computeDensityGridSize t0 prev_points xy zs d dsf) in *.
  assert (Hs : ln 0.8 <= density_grid_ t c <= ln (1 + 0.8)).
  { unfold t. rewrite computeDensityGridSize_grid.
    destruct (used_extent _ c); [|apply H0].
    change (ln kSmoothingFactor) with (ln 0.8).
    pose proof ln_08_le_ln_18. lra. }
  apply computeDensityGrid_inv in Hrun as (tbl & g & Htbl & Hg & ->).
  cbn [set_density_grid density_grid_]. split.
  - apply Rle_trans with (density_grid_ t c); [apply Hs|].
    eapply apply_writes_raises; eauto.
  - refine (apply_writes_upper tbl _ _ _ _ _ _ _ Hg); [apply Hs|].
    intros i j k v _ Hv.
    rewrite (spillovers_get_spec t tbl i j k Htbl) in Hv.
    destruct (in_table t i j k); [|discriminate].
    inversion Hv; subst v. rewrite <- Hmd.
    apply spillover_value_below_centre; try assumption.
    rewrite Hmd. lra.
Qed.

Lemma one_point_frame_new :
  exists t2,
    scoreXYZTransforms DensityGridTracker_new [mkPoint 0 0 0] one_point_scan
      1 1 [mkXYZTransform 0 0 0 1] (fun _ _ _ => 1) 20 1
    = Ok (t2, map (scored_transform t2 [mkPoint 0 0 0] (fun _ _ _ => 1))
                [mkXYZTransform 0 0 0 1]).
Proof.
  destruct one_point_succeeds as [t2 H2]. exists t2.
  rewrite scoreXYZTransforms_eq. fold one_point_tracker. now rewrite H2.
Qed.

Lemma buffer_stays_in_range_witness :
  exists t2,
    scoreXYZTransforms DensityGridTracker_new [mkPoint 0 0 0] one_point_scan
      1 1 [mkXYZTransform 0 0 0 1] (fun _ _ _ => 1) 20 1
    = Ok (t2, map (scored_transform t2 [mkPoint 0 0 0] (fun _ _ _ => 1))
                [mkXYZTransform 0 0 0 1]) /\
    forall c, ln 0.8 <= density_grid_ t2 c <= ln (1 + 0.8).
Proof.
  destruct one_point_frame_new as (t2 & Hrun).
  exists t2. split; [exact Hrun|].
  refine (proj2 (buffer_stays_in_range DensityGridTracker_new t2
                   [mkPoint 0 0 0] one_point_scan 1 1
                   [mkXYZTransform 0 0 0 1] (fun _ _ _ => 1) 20 1 _ _ Hrun)).
  intros c. cbn [DensityGridTracker_new density_grid_].
  change (ln kSmoothingFactor) with (ln 0.8).
  pose proof ln_08_le_ln_18. lra.
Defined.

(** ** A candidate that moves the scan off the grid *)





